(** * Professional Stock Visualizer: indicator library and alert engine

    A shallow embedding of
      - [src/utils/technicalIndicators.ts]  (module [Indicators]),
      - [src/utils/quantAnalytics.ts]       (module [Quant]),
      - [src/services/notificationService.ts] (module [NotificationService]),
      - [src/utils/alertTriggers.ts]        (module [AlertTriggers]),
      - [src/hooks/useAlerts.ts]            (module [UseAlerts]),
    followed by the properties of the specification that concern them, and
    by further properties of the store, the indicators and the analytics
    that the code itself shows.

    JavaScript numbers.  Every function of the program computes on the
    JavaScript [number] type.  The embedding is written once, over a class
    [JsNumber] of the operations the program uses, and is read at two
    instances:
      - [float_number]: IEEE 754 binary64 (the kernel's primitive floats),
        which is what the program computes, bit for bit;
      - [R_number]: the real numbers, the exact arithmetic in which the
        specification states its numeric laws.
    Properties that only depend on the control flow are proved for every
    instance; algebraic laws are proved over [R]; concrete runs are evaluated
    in binary64. *)

From Stdlib Require Import PrimFloat Uint63.
From Stdlib Require Import String ZArith List Bool Lia PeanoNat.
From Stdlib Require Import Reals Lra.
Import ListNotations.

Set Implicit Arguments.

(* ================================================================= *)
(** ** JavaScript numbers *)

Class JsNumber (N : Type) : Type := {
  num_of_Z : Z -> N;              (* integer literals and loop counters *)
  nadd : N -> N -> N;             (* a + b *)
  nsub : N -> N -> N;             (* a - b *)
  nmul : N -> N -> N;             (* a * b *)
  ndiv : N -> N -> N;             (* a / b *)
  nabs : N -> N;                  (* Math.abs *)
  nsqrt : N -> N;                 (* Math.sqrt *)
  nltb : N -> N -> bool;          (* a < b *)
  nleb : N -> N -> bool;          (* a <= b *)
  neqb : N -> N -> bool           (* a === b *)
}.

Declare Scope js_scope.
Delimit Scope js_scope with js.
Infix "+" := nadd : js_scope.
Infix "-" := nsub : js_scope.
Infix "*" := nmul : js_scope.
Infix "/" := ndiv : js_scope.
Infix "<?" := nltb : js_scope.
Infix "<=?" := nleb : js_scope.
Infix "=?" := neqb : js_scope.
Notation "a >? b" := (nltb b a) (at level 70) : js_scope.
Notation "a >=? b" := (nleb b a) (at level 70) : js_scope.
Notation "# z" := (num_of_Z z%Z) (at level 5, format "# z") : js_scope.

(** Truthiness of a number, as [||], [&&] and [if] see it: [0], [-0] and
    [NaN] are falsy ([NaN] is the one number that is not [===] to itself). *)
Definition truthy {N} `{JsNumber N} (x : N) : bool :=
  (x =? x)%js && negb (x =? #0)%js.

(** [x || null] on a value that may be a number, [null] or [undefined]. *)
Definition or_null {N} `{JsNumber N} (x : option N) : option N :=
  match x with
  | Some v => if truthy v then Some v else None
  | None => None
  end.

(** [a ?? d] *)
Definition nullish {A} (a : option A) (d : A) : A :=
  match a with Some v => v | None => d end.

(** *** The real numbers: exact arithmetic *)

Definition Rltb (x y : R) : bool := if Rlt_dec x y then true else false.
Definition Rleb (x y : R) : bool := if Rle_dec x y then true else false.
Definition Reqb (x y : R) : bool := if Req_dec_T x y then true else false.

#[export] Instance R_number : JsNumber R := {
  num_of_Z := IZR;
  nadd := Rplus; nsub := Rminus; nmul := Rmult; ndiv := Rdiv;
  nabs := Rabs; nsqrt := R_sqrt.sqrt;
  nltb := Rltb; nleb := Rleb; neqb := Reqb
}.

(** *** IEEE 754 binary64: what the program computes *)

(** An integer literal or loop counter as a binary64 number.  The conversion
    goes through the 63-bit machine integers: it is the JavaScript number for
    every integer below 2^63 in absolute value, and wraps beyond, where a
    JavaScript number does not; the periods, counters and literals of the
    program are far below. *)
Definition float_of_Z (z : Z) : float :=
  match z with
  | Z0 => PrimFloat.zero
  | Zpos _ => PrimFloat.of_uint63 (Uint63.of_Z z)
  | Zneg _ => PrimFloat.opp (PrimFloat.of_uint63 (Uint63.of_Z (- z)))
  end.

#[export] Instance float_number : JsNumber float := {
  num_of_Z := float_of_Z;
  nadd := PrimFloat.add; nsub := PrimFloat.sub;
  nmul := PrimFloat.mul; ndiv := PrimFloat.div;
  nabs := PrimFloat.abs; nsqrt := PrimFloat.sqrt;
  nltb := PrimFloat.ltb; nleb := PrimFloat.leb; neqb := PrimFloat.eqb
}.

(** *** [Math.max] and [Math.min] *)

Class JsMath (N : Type) : Type := {
  nmax : N -> N -> N;             (* Math.max(a, b) *)
  nmin : N -> N -> N              (* Math.min(a, b) *)
}.

#[export] Instance R_math : JsMath R := {
  nmax := Rmax; nmin := Rmin
}.

(** In binary64 [Math.max] and [Math.min] return NaN when an argument is
    NaN, and order [-0] below [+0]. *)
Definition float_is_nan (x : float) : bool := negb (PrimFloat.eqb x x).

Definition float_is_neg_zero (x : float) : bool :=
  PrimFloat.eqb x PrimFloat.zero
  && PrimFloat.ltb (PrimFloat.div PrimFloat.one x) PrimFloat.zero.

Definition float_max (a b : float) : float :=
  if float_is_nan a then a
  else if float_is_nan b then b
  else if PrimFloat.ltb a b then b
  else if PrimFloat.ltb b a then a
  else if float_is_neg_zero a then b else a.

Definition float_min (a b : float) : float :=
  if float_is_nan a then a
  else if float_is_nan b then b
  else if PrimFloat.ltb a b then a
  else if PrimFloat.ltb b a then b
  else if float_is_neg_zero a then a else b.

#[export] Instance float_math : JsMath float := {
  nmax := float_max; nmin := float_min
}.

(* ================================================================= *)
(** ** Arrays *)

(** The index that [Array.prototype.slice] makes of an integer argument:
    a negative one counts from the end, and both are clamped to the array. *)
Definition rel_index (len k : Z) : Z :=
  if (k <? 0)%Z then Z.max (len + k) 0 else Z.min k len.

(** [l.slice(s, e)] *)
Definition slice {A} (l : list A) (s e : Z) : list A :=
  let len := Z.of_nat (length l) in
  let s' := rel_index len s in
  let e' := rel_index len e in
  firstn (Z.to_nat (e' - s')) (skipn (Z.to_nat s') l).

(** [for (let i = 0; i < n; i++) result.push(body(i, result))] on an empty
    [result]: the body may read what was pushed before it. *)
Definition for_push {A} (n : nat) (body : nat -> list A -> A) : list A :=
  fold_left (fun result i => result ++ [body i result]) (seq 0 n) [].

(** [l.filter(val => val !== null) as number[]] *)
Fixpoint filter_not_null {A} (l : list (option A)) : list A :=
  match l with
  | [] => []
  | Some v :: l' => v :: filter_not_null l'
  | None :: l' => filter_not_null l'
  end.

(** [l[i]] where the elements are [number | null]: [None] stands for both
    [null] and [undefined] (an index outside the array). *)
Definition at_index {A} (l : list (option A)) (i : nat) : option A :=
  match nth_error l i with Some v => v | None => None end.

(** [for (let i = 1; i < l.length; i++) out.push(f(l[i - 1], l[i]))] *)
Fixpoint adjacent_map {A B} (f : A -> A -> B) (l : list A) : list B :=
  match l with
  | previous :: (current :: _) as rest => f previous current :: adjacent_map f rest
  | _ => []
  end.

(** [for (let i = from; i < to; i++)]: the values of [i], in order. *)
Definition range (from to : Z) : list Z :=
  map (fun k => (from + Z.of_nat k)%Z) (seq 0 (Z.to_nat (to - from))).

(* ================================================================= *)
(** ** types/chart.ts *)

Module ChartDataPoint.
Record t (N : Type) : Type := {
  time : string;
  open : N;
  high : N;
  low : N;
  close : N;
  volume : N;
  timestamp : N
}.
End ChartDataPoint.

(* ================================================================= *)
(** ** technicalIndicators.ts *)

Module Indicators.
Section WithNumber.
Context {N : Type} `{JsNumber N}.

(** [l.reduce((acc, val) => acc + val, 0)] *)
Definition sum (l : list N) : N := fold_left nadd l (#0)%js.

(** [calculateSMA(data, period)] *)
Definition calculateSMA (data : list N) (period : Z) : list (option N) :=
  for_push (length data) (fun i _ =>
    if (Z.of_nat i <? period - 1)%Z then None
    else
      let sum := sum (slice data (Z.of_nat i - period + 1) (Z.of_nat i + 1)) in
      Some (sum / #period)%js).

(** [calculateEMA(data, period)] *)
Definition calculateEMA (data : list N) (period : Z) : list (option N) :=
  let multiplier := (#2 / #(period + 1))%js in
  for_push (length data) (fun i result =>
    if (i =? 0)%nat then nth_error data i
    else if (Z.of_nat i <? period - 1)%Z then
      let sum := sum (slice data 0 (Z.of_nat i + 1)) in
      Some (sum / #(Z.of_nat i + 1))%js
    else
      match at_index result (i - 1), nth_error data i with
      | Some prevEMA, Some d =>
          Some (d * multiplier + prevEMA * (#1 - multiplier))%js
      | _, _ => None
      end).

Record MACDPoint : Type := {
  macd : option N;
  signal : option N;
  histogram : option N
}.

(** The loop of [calculateMACD] that puts the signal line back on the
    indices of the MACD line; [signalIndex] counts the defined entries
    seen so far. *)
Definition alignSignalLine (macdLine signalLine : list (option N))
  : list (option N) :=
  fst (fold_left
    (fun '(alignedSignalLine, signalIndex) m =>
       match m with
       | Some _ =>
           (alignedSignalLine ++ [or_null (at_index signalLine signalIndex)],
            S signalIndex)
       | None => (alignedSignalLine ++ [None], signalIndex)
       end)
    macdLine ([], 0%nat)).

(** The first loop of [calculateMACD]: the MACD line, the fast EMA minus the
    slow EMA where both are numbers. *)
Definition macdLineOf (data : list N) (fastPeriod slowPeriod : Z)
  : list (option N) :=
  let fastEMA := calculateEMA data fastPeriod in
  let slowEMA := calculateEMA data slowPeriod in
  for_push (length data) (fun i _ =>
    match at_index fastEMA i, at_index slowEMA i with
    | Some f, Some s => Some (f - s)%js
    | _, _ => None
    end).

(** [calculateMACD(data, fastPeriod, slowPeriod, signalPeriod)] *)
Definition calculateMACD (data : list N)
    (fastPeriod slowPeriod signalPeriod : Z) : list MACDPoint :=
  let macdLine := macdLineOf data fastPeriod slowPeriod in
  let validMacdValues := filter_not_null macdLine in
  let signalLine := calculateEMA validMacdValues signalPeriod in
  let alignedSignalLine := alignSignalLine macdLine signalLine in
  for_push (length data) (fun i _ =>
    let macd := at_index macdLine i in
    let signal := at_index alignedSignalLine i in
    let histogram :=
      match macd, signal with
      | Some m, Some s => Some (m - s)%js
      | _, _ => None
      end in
    {| macd := macd; signal := signal; histogram := histogram |}).

(** [calculateWMA(data, period)] *)
Definition calculateWMA (data : list N) (period : Z) : list (option N) :=
  for_push (length data) (fun i _ =>
    if (Z.of_nat i <? period - 1)%Z then None
    else
      let subset := slice data (Z.of_nat i - period + 1) (Z.of_nat i + 1) in
      let '(weightedSum, weightSum, _) :=
        fold_left
          (fun '(weightedSum, weightSum, j) x =>
             let weight := (#(Z.of_nat j + 1))%js in
             ((weightedSum + x * weight)%js, (weightSum + weight)%js, S j))
          subset ((#0)%js, (#0)%js, 0%nat) in
      Some (weightedSum / weightSum)%js).

Record Bands : Type := {
  upper : option N;
  middle : option N;
  lower : option N
}.

(** [calculateBollingerBands(data, period, stdDev)]; [Math.pow(x, 2)] is
    [x * x]. *)
Definition calculateBollingerBands (data : list N) (period : Z) (stdDev : N)
  : list Bands :=
  let sma := calculateSMA data period in
  for_push (length data) (fun i _ =>
    if (Z.of_nat i <? period - 1)%Z
    then {| upper := None; middle := None; lower := None |}
    else
      match at_index sma i with
      | Some middle =>
          let subset := slice data (Z.of_nat i - period + 1) (Z.of_nat i + 1) in
          let variance :=
            (fold_left (fun acc val => acc + (val - middle) * (val - middle))
                       subset #0 / #period)%js in
          let standardDeviation := nsqrt variance in
          {| upper := Some (middle + standardDeviation * stdDev)%js;
             middle := Some middle;
             lower := Some (middle - standardDeviation * stdDev)%js |}
      | None => {| upper := None; middle := None; lower := None |}
      end).

(** [avgLoss === 0 ? 100 : 100 - 100 / (1 + avgGain / avgLoss)] *)
Definition rsiOf (avgGain avgLoss : N) : N :=
  if (avgLoss =? #0)%js then (#100)%js
  else
    let rs := (avgGain / avgLoss)%js in
    (#100 - #100 / (#1 + rs))%js.

(** [calculateRSI(data, period)], for a period that is a natural number.
    (With a negative period the loops of the source run from a negative
    index and read [gains[i]] there; such periods are outside this
    definition.) *)
Definition calculateRSI (data : list N) (period : nat) : list (option N) :=
  if (length data <? period + 1)%nat then map (fun _ => None) data
  else
    let changes := adjacent_map (fun previous current => (current - previous)%js) data in
    let gains :=
      map (fun change => if (change >? #0)%js then change else (#0)%js) changes in
    let losses :=
      map (fun change => if (change <? #0)%js then nabs change else (#0)%js)
          changes in
    let avgGain := (sum (slice gains 0 (Z.of_nat period)) / #(Z.of_nat period))%js in
    let avgLoss := (sum (slice losses 0 (Z.of_nat period)) / #(Z.of_nat period))%js in
    let result := for_push (period + 1) (fun _ _ => @None N) in
    let '(result, _, _) :=
      fold_left
        (fun '(result, avgGain, avgLoss) i =>
           let result := result ++ [Some (rsiOf avgGain avgLoss)] in
           if (Z.of_nat i <? Z.of_nat (length changes) - 1)%Z then
             (result,
              ((avgGain * #(Z.of_nat period - 1) + nth i gains #0)
               / #(Z.of_nat period))%js,
              ((avgLoss * #(Z.of_nat period - 1) + nth i losses #0)
               / #(Z.of_nat period))%js)
           else (result, avgGain, avgLoss))
        (seq period (length changes - period))
        (result, avgGain, avgLoss) in
    result.

(** [calculateVWAP(data)] *)
Definition calculateVWAP (data : list (ChartDataPoint.t N)) : list (option N) :=
  fst (fst (fold_left
    (fun '(result, cumulativePriceVolume, cumulativeVolume) d =>
       let typicalPrice :=
         ((ChartDataPoint.high d + ChartDataPoint.low d + ChartDataPoint.close d)
          / #3)%js in
       let priceVolume := (typicalPrice * ChartDataPoint.volume d)%js in
       let cumulativePriceVolume := (cumulativePriceVolume + priceVolume)%js in
       let cumulativeVolume := (cumulativeVolume + ChartDataPoint.volume d)%js in
       if (cumulativeVolume =? #0)%js
       then (result ++ [None], cumulativePriceVolume, cumulativeVolume)
       else (result ++ [Some (cumulativePriceVolume / cumulativeVolume)%js],
             cumulativePriceVolume, cumulativeVolume))
    data ([], (#0)%js, (#0)%js))).

Context `{JsMath N}.

(** The true range of a bar, after the close of the bar before it. *)
Definition trueRange (previous current : ChartDataPoint.t N) : N :=
  let tr1 := (ChartDataPoint.high current - ChartDataPoint.low current)%js in
  let tr2 := nabs (ChartDataPoint.high current - ChartDataPoint.close previous)%js in
  let tr3 := nabs (ChartDataPoint.low current - ChartDataPoint.close previous)%js in
  nmax (nmax tr1 tr2) tr3.

(** [calculateATRIndicator(data, period)] *)
Definition calculateATRIndicator (data : list (ChartDataPoint.t N))
    (period : Z) : list (option N) :=
  let trueRanges := adjacent_map trueRange data in
  let atrValues := calculateEMA trueRanges period in
  None :: atrValues.

End WithNumber.
End Indicators.

(* ================================================================= *)
(** ** quantAnalytics.ts *)

(** A ratio returned by [QuantAnalytics]: either the literal [Infinity] that
    the code returns for a zero denominator, or a computed number. *)
Inductive Ratio (N : Type) : Type :=
  | Infinity : Ratio N
  | Finite (x : N) : Ratio N.
Arguments Infinity {N}.
Arguments Finite {N} x.

Module Quant.
Section WithNumber.
Context {N : Type} `{JsNumber N}.

Definition TRADING_DAYS_PER_YEAR : Z := 252.

Definition length_of (l : list N) : N := (#(Z.of_nat (length l)))%js.

(** [calculateMean(values)] *)
Definition calculateMean (values : list N) : N :=
  if (length values =? 0)%nat then (#0)%js
  else (fold_left (fun sum val => sum + val) values #0 / length_of values)%js.

(** [calculateStandardDeviation(values)]; [Math.pow(x, 2)] is [x * x]. *)
Definition calculateStandardDeviation (values : list N) : N :=
  if (length values =? 0)%nat then (#0)%js
  else if (length values =? 1)%nat then (#0)%js
  else
    let mean := calculateMean values in
    let variance :=
      (fold_left (fun sum val => sum + (val - mean) * (val - mean)) values #0
       / #(Z.of_nat (length values) - 1))%js in
    nsqrt variance.

(** [meanExcessReturn > 0 ? Infinity : 0] *)
Definition infinity_or_zero (meanExcessReturn : N) : Ratio N :=
  if (meanExcessReturn >? #0)%js then Infinity else Finite (#0)%js.

(** [calculateSharpeRatio(returns, riskFreeRate)] *)
Definition calculateSharpeRatio (returns : list N) (riskFreeRate : N)
  : Ratio N :=
  if (length returns =? 0)%nat then Finite (#0)%js
  else
    let annualizedRiskFreeRate :=
      (riskFreeRate / #TRADING_DAYS_PER_YEAR)%js in
    let excessReturns :=
      map (fun r => (r - annualizedRiskFreeRate)%js) returns in
    let meanExcessReturn := calculateMean excessReturns in
    let stdDev := calculateStandardDeviation excessReturns in
    if (stdDev =? #0)%js then infinity_or_zero meanExcessReturn
    else
      Finite ((meanExcessReturn * nsqrt #TRADING_DAYS_PER_YEAR)
              / (stdDev * nsqrt #TRADING_DAYS_PER_YEAR))%js.

(** [calculateSortinoRatio(returns, riskFreeRate)] *)
Definition calculateSortinoRatio (returns : list N) (riskFreeRate : N)
  : Ratio N :=
  if (length returns =? 0)%nat then Finite (#0)%js
  else
    let annualizedRiskFreeRate :=
      (riskFreeRate / #TRADING_DAYS_PER_YEAR)%js in
    let excessReturns :=
      map (fun r => (r - annualizedRiskFreeRate)%js) returns in
    let meanExcessReturn := calculateMean excessReturns in
    let negativeExcessReturns :=
      filter (fun r => (r <? #0)%js) excessReturns in
    if (length negativeExcessReturns =? 0)%nat
    then infinity_or_zero meanExcessReturn
    else
      let downsideVariance :=
        (fold_left (fun sum r => sum + r * r) negativeExcessReturns #0
         / length_of negativeExcessReturns)%js in
      let downsideDeviation := nsqrt downsideVariance in
      if (downsideDeviation =? #0)%js then infinity_or_zero meanExcessReturn
      else
        Finite ((meanExcessReturn * nsqrt #TRADING_DAYS_PER_YEAR)
                / (downsideDeviation * nsqrt #TRADING_DAYS_PER_YEAR))%js.

(** [calculateReturns(prices)] *)
Definition calculateReturns (prices : list N) : list N :=
  if (length prices <? 2)%nat then []
  else adjacent_map (fun previous current => ((current - previous) / previous)%js)
                    prices.

(** [calculateCumulativeReturns(returns)] *)
Definition calculateCumulativeReturns (returns : list N) : list N :=
  fst (fold_left
    (fun '(cumReturns, cumulative) r =>
       let cumulative := (cumulative + r)%js in
       (cumReturns ++ [cumulative], cumulative))
    returns ([(#0)%js], (#0)%js)).

(** [cumulativeReturnsToPrice(returns, startPrice)] *)
Definition cumulativeReturnsToPrice (returns : list N) (startPrice : N)
  : list N :=
  fst (fold_left
    (fun '(prices, currentPrice) ret =>
       let currentPrice := (currentPrice * (#1 + ret))%js in
       (prices ++ [currentPrice], currentPrice))
    returns ([startPrice], startPrice)).

(** [calculateCalmarRatio(returns, maxDrawdown)] *)
Definition calculateCalmarRatio (returns : list N) (maxDrawdown : N) : N :=
  if (maxDrawdown =? #0)%js || (length returns =? 0)%nat then (#0)%js
  else
    let annualizedReturn :=
      (calculateMean returns * #TRADING_DAYS_PER_YEAR)%js in
    (annualizedReturn / maxDrawdown)%js.

(** [calculateRollingVolatility(returns, window)] *)
Definition calculateRollingVolatility (returns : list N) (window : Z)
  : list N :=
  map (fun i =>
         let windowReturns := slice returns (i - window + 1) (i + 1) in
         (calculateStandardDeviation windowReturns
          * nsqrt #TRADING_DAYS_PER_YEAR)%js)
      (range (window - 1) (Z.of_nat (length returns))).

(** [l.slice(-n)] *)
Definition last_n (l : list N) (n : nat) : list N :=
  slice l (- Z.of_nat n) (Z.of_nat (length l)).

(** [calculateBeta(stockReturns, marketReturns)] *)
Definition calculateBeta (stockReturns marketReturns : list N) : N :=
  if (length stockReturns =? 0)%nat || (length marketReturns =? 0)%nat
  then (#1)%js
  else
    let n := Nat.min (length stockReturns) (length marketReturns) in
    if (n <? 2)%nat then (#1)%js
    else
      let stockSlice := last_n stockReturns n in
      let marketSlice := last_n marketReturns n in
      let stockMean := calculateMean stockSlice in
      let marketMean := calculateMean marketSlice in
      let '(covariance, marketVariance) :=
        fold_left
          (fun '(covariance, marketVariance) '(s, m) =>
             let stockDev := (s - stockMean)%js in
             let marketDev := (m - marketMean)%js in
             ((covariance + stockDev * marketDev)%js,
              (marketVariance + marketDev * marketDev)%js))
          (combine stockSlice marketSlice) ((#0)%js, (#0)%js) in
      if (marketVariance =? #0)%js then (#1)%js
      else (covariance / marketVariance)%js.

(** [calculateCorrelation(returns1, returns2)] *)
Definition calculateCorrelation (returns1 returns2 : list N) : N :=
  if (length returns1 =? 0)%nat || (length returns2 =? 0)%nat then (#0)%js
  else
    let n := Nat.min (length returns1) (length returns2) in
    let slice1 := last_n returns1 n in
    let slice2 := last_n returns2 n in
    let mean1 := calculateMean slice1 in
    let mean2 := calculateMean slice2 in
    let '(covariance, variance1, variance2) :=
      fold_left
        (fun '(covariance, variance1, variance2) '(x1, x2) =>
           let dev1 := (x1 - mean1)%js in
           let dev2 := (x2 - mean2)%js in
           ((covariance + dev1 * dev2)%js,
            (variance1 + dev1 * dev1)%js,
            (variance2 + dev2 * dev2)%js))
        (combine slice1 slice2) ((#0)%js, (#0)%js, (#0)%js) in
    let denominator := nsqrt (variance1 * variance2)%js in
    if (denominator =? #0)%js then (#0)%js
    else (covariance / denominator)%js.

(** [calculateInformationRatio(stockReturns, benchmarkReturns)] *)
Definition calculateInformationRatio (stockReturns benchmarkReturns : list N)
  : Ratio N :=
  if (length stockReturns =? 0)%nat || (length benchmarkReturns =? 0)%nat
  then Finite (#0)%js
  else
    let n := Nat.min (length stockReturns) (length benchmarkReturns) in
    let activeReturns :=
      map (fun '(r, b) => (r - b)%js)
          (combine (last_n stockReturns n) (last_n benchmarkReturns n)) in
    let meanActiveReturn := calculateMean activeReturns in
    let trackingError := calculateStandardDeviation activeReturns in
    if (trackingError =? #0)%js then infinity_or_zero meanActiveReturn
    else
      Finite ((meanActiveReturn * nsqrt #TRADING_DAYS_PER_YEAR)
              / (trackingError * nsqrt #TRADING_DAYS_PER_YEAR))%js.

Context `{JsMath N}.

Record Drawdown : Type := {
  maxDrawdown : N;
  drawdownSeries : list N
}.

(** [calculateMaxDrawdown(prices)] *)
Definition calculateMaxDrawdown (prices : list N) : Drawdown :=
  match prices with
  | [] => {| maxDrawdown := (#0)%js; drawdownSeries := [] |}
  | first :: rest =>
      let '(maxDrawdown, _, drawdownSeries) :=
        fold_left
          (fun '(maxDrawdown, peak, drawdownSeries) price =>
             let peak := if (price >? peak)%js then price else peak in
             let drawdown := ((peak - price) / peak)%js in
             (nmax maxDrawdown drawdown, peak, drawdownSeries ++ [drawdown]))
          rest ((#0)%js, first, [(#0)%js]) in
      {| maxDrawdown := maxDrawdown; drawdownSeries := drawdownSeries |}
  end.

End WithNumber.
End Quant.

(* ================================================================= *)
(** ** types/alerts.ts *)

Inductive Priority : Type := low | medium | high | critical.

Definition Priority_eqb (p q : Priority) : bool :=
  match p, q with
  | low, low | medium, medium | high, high | critical, critical => true
  | _, _ => false
  end.

(** A [Date], as milliseconds. *)
Definition Date : Type := nat.

Record NotificationSettings : Type := {
  browser : bool;
  sound : bool
}.

Inductive PriceAlertType : Type :=
  price_above | price_below | percent_change | volume_spike.

Inductive Operator : Type := greater_than | less_than | equal_to.

Inductive TechnicalAlertType : Type :=
  | rsi_overbought | rsi_oversold | macd_crossover
  | support_break | resistance_break | volume_breakout.

Inductive Sentiment : Type := positive | negative | neutral | any.

Inductive NotificationType : Type :=
  type_price | type_technical | type_news | type_system.

Module PriceAlert.
Record Condition (N : Type) : Type := {
  value : N;
  operator : Operator
}.
Record Metadata (N : Type) : Type := {
  currentPrice : option N;
  triggerPrice : option N;
  percentChange : option N
}.
Record t (N : Type) : Type := {
  id : string;
  symbol : string;
  type : PriceAlertType;
  condition : Condition N;
  isActive : bool;
  isTriggered : bool;
  createdAt : Date;
  triggeredAt : option Date;
  notificationSettings : NotificationSettings;
  message : string;
  priority : Priority;
  metadata : option (Metadata N)
}.

Definition set_metadata {N} (m : Metadata N) (a : t N) : t N :=
  {| id := id a; symbol := symbol a; type := type a;
     condition := condition a; isActive := isActive a;
     isTriggered := isTriggered a; createdAt := createdAt a;
     triggeredAt := triggeredAt a;
     notificationSettings := notificationSettings a;
     message := message a; priority := priority a;
     metadata := Some m |}.

(** [alert.isTriggered = true; alert.triggeredAt = d], also what the
    spread [{ ...a, isTriggered: true, triggeredAt: d }] builds. *)
Definition set_triggered {N} (d : Date) (a : t N) : t N :=
  {| id := id a; symbol := symbol a; type := type a;
     condition := condition a; isActive := isActive a;
     isTriggered := true; createdAt := createdAt a;
     triggeredAt := Some d;
     notificationSettings := notificationSettings a;
     message := message a; priority := priority a;
     metadata := metadata a |}.

(** [{ ...alert, isActive: !alert.isActive }] *)
Definition toggle_active {N} (a : t N) : t N :=
  {| id := id a; symbol := symbol a; type := type a;
     condition := condition a; isActive := negb (isActive a);
     isTriggered := isTriggered a; createdAt := createdAt a;
     triggeredAt := triggeredAt a;
     notificationSettings := notificationSettings a;
     message := message a; priority := priority a;
     metadata := metadata a |}.
End PriceAlert.

Module TechnicalAlert.
Record Parameters (N : Type) : Type := {
  rsiLevel : option N;
  supportLevel : option N;
  resistanceLevel : option N;
  volumeMultiplier : option N
}.
Record t (N : Type) : Type := {
  id : string;
  symbol : string;
  type : TechnicalAlertType;
  parameters : Parameters N;
  isActive : bool;
  isTriggered : bool;
  createdAt : Date;
  triggeredAt : option Date;
  notificationSettings : NotificationSettings;
  message : string;
  priority : Priority
}.

Definition set_triggered {N} (d : Date) (a : t N) : t N :=
  {| id := id a; symbol := symbol a; type := type a;
     parameters := parameters a; isActive := isActive a;
     isTriggered := true; createdAt := createdAt a;
     triggeredAt := Some d;
     notificationSettings := notificationSettings a;
     message := message a; priority := priority a |}.

Definition toggle_active {N} (a : t N) : t N :=
  {| id := id a; symbol := symbol a; type := type a;
     parameters := parameters a; isActive := negb (isActive a);
     isTriggered := isTriggered a; createdAt := createdAt a;
     triggeredAt := triggeredAt a;
     notificationSettings := notificationSettings a;
     message := message a; priority := priority a |}.
End TechnicalAlert.

Module NewsAlert.
Record t : Type := {
  id : string;
  keywords : list string;
  symbols : list string;
  sentiment : Sentiment;
  isActive : bool;
  createdAt : Date;
  notificationSettings : NotificationSettings;
  message : string;
  priority : Priority
}.

Definition toggle_active (a : t) : t :=
  {| id := id a; keywords := keywords a; symbols := symbols a;
     sentiment := sentiment a; isActive := negb (isActive a);
     createdAt := createdAt a;
     notificationSettings := notificationSettings a;
     message := message a; priority := priority a |}.
End NewsAlert.

Module AlertNotification.
Record t : Type := {
  id : nat * nat;          (* [notification_${Date.now()}_${random}] *)
  alertId : string;
  title : string;
  message : string;
  type : NotificationType;
  priority : Priority;
  timestamp : Date;
  isRead : bool
}.

(** [{ ...notification, isRead: true }] *)
Definition set_read (n : t) : t :=
  {| id := id n; alertId := alertId n; title := title n;
     message := message n; type := type n; priority := priority n;
     timestamp := timestamp n; isRead := true |}.
End AlertNotification.

(* ================================================================= *)
(** ** services/notificationService.ts *)

Module NotificationService.

Inductive Permission : Type := perm_default | perm_granted | perm_denied.

Inductive SoundType : Type :=
  snd_info | snd_warning | snd_error | snd_success | snd_critical.

(** The titles the service is asked to show; the text of the body and the
    decoration of the title are not modelled. *)
Inductive Title : Type :=
  | PriceAlertTitle (symbol : string) (above : bool)
  | SymbolAlertTitle (symbol : string)
  | TechnicalAlertTitle (symbol : string)
  | TestNotificationTitle.

(** What the user perceives: a browser notification, a tone sequence. *)
Inductive Effect : Type :=
  | Visual (title : Title) (priority : Priority)
  | PlayTone (frequencies : list Z).

Definition is_visual (e : Effect) : bool :=
  match e with Visual _ _ => true | PlayTone _ => false end.
Definition is_sound (e : Effect) : bool :=
  match e with Visual _ _ => false | PlayTone _ => true end.

(** The fields of the singleton [notificationService]. *)
Record t : Type := {
  audioContext : bool;             (* [this.audioContext !== null] *)
  soundEnabled : bool;
  notificationPermission : Permission
}.

(** The service as it is constructed: [soundEnabled = true]. *)
Definition initial (audio : bool) (p : Permission) : t :=
  {| audioContext := audio; soundEnabled := true;
     notificationPermission := p |}.

(** Everything outside the React state: the service, the effects performed
    so far (oldest first), [Date.now()] and the source of [Math.random()]. *)
Record World : Type := {
  service : t;
  effects : list Effect;
  clock : Date;
  entropy : nat
}.

Definition emit (e : Effect) (w : World) : World :=
  {| service := service w; effects := effects w ++ [e];
     clock := clock w; entropy := entropy w |}.

Definition permission_granted (p : Permission) : bool :=
  match p with perm_granted => true | _ => false end.

(** [showNotification(title, { priority, ... })] *)
Definition showNotification (title : Title) (priority : Priority)
    (w : World) : World :=
  if negb (permission_granted (notificationPermission (service w))) then w
  else emit (Visual title priority) w.

Definition frequencies (type : SoundType) : list Z :=
  match type with
  | snd_info => [800; 600]
  | snd_success => [600; 800]
  | snd_warning => [400; 400; 400]
  | snd_error => [300; 300]
  | snd_critical => [1000; 500; 1000; 500; 1000]
  end%Z.

(** [playAlertSound(type)] *)
Definition playAlertSound (type : SoundType) (w : World) : World :=
  if negb (soundEnabled (service w)) || negb (audioContext (service w))
  then w
  else emit (PlayTone (frequencies type)) w.

(** [showPriceAlert(symbol, currentPrice, targetPrice, type)] *)
Definition showPriceAlert (symbol : string) (above : bool) (w : World)
  : World :=
  let w := showNotification (PriceAlertTitle symbol above) high w in
  playAlertSound (if above then snd_success else snd_warning) w.

(** [showTechnicalAlert(symbol, indicator, message, priority)] *)
Definition showTechnicalAlert (symbol : string) (priority : Priority)
    (w : World) : World :=
  let w := showNotification (TechnicalAlertTitle symbol) priority w in
  let soundType :=
    if Priority_eqb priority high then snd_warning else snd_info in
  playAlertSound soundType w.

(** [setSoundEnabled(enabled)] *)
Definition setSoundEnabled (enabled : bool) (w : World) : World :=
  {| service := {| audioContext := audioContext (service w);
                   soundEnabled := enabled;
                   notificationPermission :=
                     notificationPermission (service w) |};
     effects := effects w; clock := clock w; entropy := entropy w |}.

(** [testNotification()] *)
Definition testNotification (w : World) : World :=
  let w := showNotification TestNotificationTitle low w in
  playAlertSound snd_info w.

End NotificationService.

(* ================================================================= *)
(** ** utils/alertTriggers.ts *)

Module PriceData.
Record t (N : Type) : Type := {
  symbol : string;
  price : N;
  change : N;
  changePercent : N;
  volume : N;
  high : N;
  low : N;
  timestamp : N
}.
End PriceData.

Module TechnicalData.
Record MACD (N : Type) : Type := {
  macd : N;
  signal : N;
  histogram : N
}.
Record t (N : Type) : Type := {
  rsi : option N;
  macd_ : option (MACD N);          (* the field [macd] *)
  volume : option N;
  averageVolume : option N;
  supportLevel : option N;
  resistanceLevel : option N
}.
End TechnicalData.

Module AlertTriggers.
Import NotificationService.
Section WithNumber.
Context {N : Type} `{JsNumber N}.

(** [priority === 'critical' ? 'critical' : priority === 'high' ? 'warning'
    : 'info'] *)
Definition soundTypeOf (priority : Priority) : SoundType :=
  if Priority_eqb priority critical then snd_critical
  else if Priority_eqb priority high then snd_warning
  else snd_info.

(** [triggerPriceAlert(alert, priceData)]: the alert is mutated in place,
    so the mutated alert is returned next to the world. *)
Definition triggerPriceAlert (alert : PriceAlert.t N)
    (priceData : PriceData.t N) (w : World) : PriceAlert.t N * World :=
  let notificationSettings := PriceAlert.notificationSettings alert in
  let priority := PriceAlert.priority alert in
  let alert :=
    PriceAlert.set_metadata
      {| PriceAlert.currentPrice := Some (PriceData.price priceData);
         PriceAlert.triggerPrice :=
           Some (PriceAlert.value (PriceAlert.condition alert));
         PriceAlert.percentChange :=
           Some (PriceData.changePercent priceData) |}
      alert in
  let w :=
    if browser notificationSettings then
      match PriceAlert.type alert with
      | price_above => showPriceAlert (PriceAlert.symbol alert) true w
      | price_below => showPriceAlert (PriceAlert.symbol alert) false w
      | _ =>
          showNotification (SymbolAlertTitle (PriceAlert.symbol alert))
            priority w
      end
    else w in
  let w :=
    if sound notificationSettings
    then playAlertSound (soundTypeOf priority) w
    else w in
  (PriceAlert.set_triggered (clock w) alert, w).

(** [checkPriceAlert(alert, priceData)] *)
Definition checkPriceAlert (alert : PriceAlert.t N)
    (priceData : PriceData.t N) (w : World)
  : bool * PriceAlert.t N * World :=
  if negb (PriceAlert.isActive alert) || PriceAlert.isTriggered alert
  then (false, alert, w)
  else if negb (String.eqb (PriceAlert.symbol alert)
                           (PriceData.symbol priceData))
  then (false, alert, w)
  else
    let value := PriceAlert.value (PriceAlert.condition alert) in
    let operator := PriceAlert.operator (PriceAlert.condition alert) in
    let currentPrice := PriceData.price priceData in
    let shouldTrigger :=
      match PriceAlert.type alert with
      | price_above => (currentPrice >? value)%js
      | price_below => (currentPrice <? value)%js
      | percent_change =>
          let absChange := nabs (PriceData.changePercent priceData) in
          match operator with
          | greater_than => (absChange >? value)%js
          | _ => (absChange <? value)%js
          end
      | volume_spike =>
          let volumeRatio :=
            (PriceData.volume priceData
             / (PriceData.volume priceData / value))%js in
          (volumeRatio >=? value)%js
      end in
    if shouldTrigger then
      let '(alert, w) := triggerPriceAlert alert priceData w in
      (true, alert, w)
    else (false, alert, w).

(** [triggerTechnicalAlert(alert, technicalData)] *)
Definition triggerTechnicalAlert (alert : TechnicalAlert.t N)
    (technicalData : TechnicalData.t N) (w : World)
  : TechnicalAlert.t N * World :=
  let notificationSettings := TechnicalAlert.notificationSettings alert in
  let priority := TechnicalAlert.priority alert in
  let w :=
    if browser notificationSettings
    then showTechnicalAlert (TechnicalAlert.symbol alert) priority w
    else w in
  let w :=
    if sound notificationSettings
    then playAlertSound (soundTypeOf priority) w
    else w in
  (TechnicalAlert.set_triggered (clock w) alert, w).

(** An optional number used as a condition: [undefined], [0] and [NaN]
    are falsy. *)
Definition truthy_opt (x : option N) : bool :=
  match x with Some v => truthy v | None => false end.

(** [checkTechnicalAlert(alert, technicalData)] *)
Definition checkTechnicalAlert (alert : TechnicalAlert.t N)
    (technicalData : TechnicalData.t N) (w : World)
  : bool * TechnicalAlert.t N * World :=
  if negb (TechnicalAlert.isActive alert) || TechnicalAlert.isTriggered alert
  then (false, alert, w)
  else
    let parameters := TechnicalAlert.parameters alert in
    let shouldTrigger :=
      match TechnicalAlert.type alert with
      | rsi_overbought =>
          (nullish (TechnicalData.rsi technicalData) #50
           >? nullish (TechnicalAlert.rsiLevel parameters) #70)%js
      | rsi_oversold =>
          (nullish (TechnicalData.rsi technicalData) #50
           <? nullish (TechnicalAlert.rsiLevel parameters) #30)%js
      | macd_crossover =>
          match TechnicalData.macd_ technicalData with
          | Some m => (TechnicalData.macd m >? TechnicalData.signal m)%js
          | None => false
          end
      | support_break =>
          (nullish (TechnicalData.supportLevel technicalData) #0 >? #0)%js
      | resistance_break =>
          (nullish (TechnicalData.resistanceLevel technicalData) #0 >? #0)%js
      | volume_breakout =>
          match TechnicalData.volume technicalData,
                TechnicalData.averageVolume technicalData with
          | Some volume, Some averageVolume =>
              if truthy volume && truthy averageVolume then
                let ratio := (volume / averageVolume)%js in
                (ratio >=? nullish (TechnicalAlert.volumeMultiplier parameters) #2)%js
              else false
          | _, _ => false
          end
      end in
    if shouldTrigger then
      let '(alert, w) := triggerTechnicalAlert alert technicalData w in
      (true, alert, w)
    else (false, alert, w).

(** [createAlertNotification(alertId, title, message, type, priority)] *)
Definition createAlertNotification (alertId title message : string)
    (type : NotificationType) (priority : Priority) (w : World)
  : AlertNotification.t * World :=
  ({| AlertNotification.id := (clock w, entropy w);
      AlertNotification.alertId := alertId;
      AlertNotification.title := title;
      AlertNotification.message := message;
      AlertNotification.type := type;
      AlertNotification.priority := priority;
      AlertNotification.timestamp := clock w;
      AlertNotification.isRead := false |},
   {| service := service w; effects := effects w;
      clock := clock w; entropy := S (entropy w) |}).

(** [calculateRSI(prices, period)] of alertTriggers.ts, for a period that is
    a natural number: one number, 50 when the history is too short. *)
Definition calculateRSI (prices : list N) (period : nat) : N :=
  if (length prices <? period + 1)%nat then (#50)%js
  else
    let '(gains, losses) :=
      fold_left
        (fun '(gains, losses) i =>
           let change := (nth i prices #0 - nth (i - 1) prices #0)%js in
           if (change >? #0)%js then ((gains + change)%js, losses)
           else (gains, (losses + nabs change)%js))
        (seq 1 period) ((#0)%js, (#0)%js) in
    let avgGain := (gains / #(Z.of_nat period))%js in
    let avgLoss := (losses / #(Z.of_nat period))%js in
    let '(avgGain, avgLoss) :=
      fold_left
        (fun '(avgGain, avgLoss) i =>
           let change := (nth i prices #0 - nth (i - 1) prices #0)%js in
           let gain := if (change >? #0)%js then change else (#0)%js in
           let loss := if (change <? #0)%js then nabs change else (#0)%js in
           (((avgGain * #(Z.of_nat period - 1) + gain) / #(Z.of_nat period))%js,
            ((avgLoss * #(Z.of_nat period - 1) + loss) / #(Z.of_nat period))%js))
        (seq (period + 1) (length prices - (period + 1)))
        (avgGain, avgLoss) in
    Indicators.rsiOf avgGain avgLoss.

Record Levels : Type := {
  support : list N;
  resistance : list N
}.

(** [detectSupportResistance(prices, window)], for a window that is a natural
    number. *)
Definition detectSupportResistance (prices : list N) (window : nat) : Levels :=
  let '(support, resistance) :=
    fold_left
      (fun '(support, resistance) i =>
         let current := nth i prices (#0)%js in
         let leftWindow :=
           slice prices (Z.of_nat i - Z.of_nat window) (Z.of_nat i) in
         let rightWindow :=
           slice prices (Z.of_nat i + 1) (Z.of_nat i + Z.of_nat window + 1) in
         let isLocalMin :=
           forallb (fun p => (p >=? current)%js) leftWindow
           && forallb (fun p => (p >=? current)%js) rightWindow in
         let isLocalMax :=
           forallb (fun p => (p <=? current)%js) leftWindow
           && forallb (fun p => (p <=? current)%js) rightWindow in
         let support := if isLocalMin then support ++ [current] else support in
         let resistance :=
           if isLocalMax then resistance ++ [current] else resistance in
         (support, resistance))
      (seq window (length prices - window - window)) ([], []) in
  {| support := support; resistance := resistance |}.

End WithNumber.
End AlertTriggers.

(* ================================================================= *)
(** ** hooks/useAlerts.ts *)

Module UseAlerts.
Import NotificationService AlertTriggers.

Record Settings : Type := {
  browserNotifications : bool;
  soundEnabled : bool;
  emailNotifications : bool;
  maxNotifications : Z
}.

(** [Partial<AlertState['settings']>]: [None] is an absent key. *)
Record PartialSettings : Type := {
  browserNotifications_ : option bool;
  soundEnabled_ : option bool;
  emailNotifications_ : option bool;
  maxNotifications_ : option Z
}.

(** [{ ...settings, ...newSettings }] *)
Definition mergeSettings (settings : Settings) (newSettings : PartialSettings)
  : Settings :=
  {| browserNotifications :=
       nullish (browserNotifications_ newSettings)
               (browserNotifications settings);
     soundEnabled :=
       nullish (soundEnabled_ newSettings) (soundEnabled settings);
     emailNotifications :=
       nullish (emailNotifications_ newSettings)
               (emailNotifications settings);
     maxNotifications :=
       nullish (maxNotifications_ newSettings) (maxNotifications settings) |}.

Section WithNumber.
Context {N : Type} `{JsNumber N}.

Record AlertState : Type := {
  priceAlerts : list (PriceAlert.t N);
  technicalAlerts : list (TechnicalAlert.t N);
  newsAlerts : list NewsAlert.t;
  notifications : list AlertNotification.t;
  settings : Settings
}.

(** The state [useState] starts from. *)
Definition initialState : AlertState :=
  {| priceAlerts := []; technicalAlerts := []; newsAlerts := [];
     notifications := [];
     settings := {| browserNotifications := true; soundEnabled := true;
                    emailNotifications := false; maxNotifications := 50 |} |}.

Definition with_priceAlerts l (s : AlertState) : AlertState :=
  {| priceAlerts := l; technicalAlerts := technicalAlerts s;
     newsAlerts := newsAlerts s; notifications := notifications s;
     settings := settings s |}.
Definition with_technicalAlerts l (s : AlertState) : AlertState :=
  {| priceAlerts := priceAlerts s; technicalAlerts := l;
     newsAlerts := newsAlerts s; notifications := notifications s;
     settings := settings s |}.
Definition with_newsAlerts l (s : AlertState) : AlertState :=
  {| priceAlerts := priceAlerts s; technicalAlerts := technicalAlerts s;
     newsAlerts := l; notifications := notifications s;
     settings := settings s |}.
Definition with_notifications l (s : AlertState) : AlertState :=
  {| priceAlerts := priceAlerts s; technicalAlerts := technicalAlerts s;
     newsAlerts := newsAlerts s; notifications := l;
     settings := settings s |}.
Definition with_settings x (s : AlertState) : AlertState :=
  {| priceAlerts := priceAlerts s; technicalAlerts := technicalAlerts s;
     newsAlerts := newsAlerts s; notifications := notifications s;
     settings := x |}.

(** [[notification, ...prev.notifications.slice(0, max - 1)]] *)
Definition pushNotification (notification : AlertNotification.t)
    (prev : AlertState) : list AlertNotification.t :=
  notification
    :: slice (notifications prev) 0 (maxNotifications (settings prev) - 1).

(** The updaters the tick handler passes to [setAlerts]: the alert that
    fired and its notification. *)
Inductive Updater : Type :=
  | PriceAlertFired (alertId : string) (notification : AlertNotification.t)
  | TechnicalAlertFired (alertId : string) (notification : AlertNotification.t).

(** What an updater makes of [prev]; [now] is its [new Date()]. *)
Definition applyUpdater (now : Date) (prev : AlertState) (u : Updater)
  : AlertState :=
  match u with
  | PriceAlertFired alertId notification =>
      with_priceAlerts
        (map (fun a => if String.eqb (PriceAlert.id a) alertId
                       then PriceAlert.set_triggered now a else a)
             (priceAlerts prev))
        (with_notifications (pushNotification notification prev) prev)
  | TechnicalAlertFired alertId notification =>
      with_technicalAlerts
        (map (fun a => if String.eqb (TechnicalAlert.id a) alertId
                       then TechnicalAlert.set_triggered now a else a)
             (technicalAlerts prev))
        (with_notifications (pushNotification notification prev) prev)
  end.

(** [alerts.priceAlerts.forEach(alert => ...)] of the tick handler: the
    alerts as [checkPriceAlert] leaves them (it mutates the objects of the
    state in place), the updaters queued, in order, and the world. *)
Fixpoint checkPriceAlerts (alerts : list (PriceAlert.t N))
    (realTimePrice : PriceData.t N) (w : World)
  : list (PriceAlert.t N) * list Updater * World :=
  match alerts with
  | [] => ([], [], w)
  | alert :: rest =>
      if String.eqb (PriceAlert.symbol alert) (PriceData.symbol realTimePrice)
         && PriceAlert.isActive alert
      then
        let '(fired, alert, w) := checkPriceAlert alert realTimePrice w in
        if fired then
          let '(notification, w) :=
            createAlertNotification (PriceAlert.id alert)
              (PriceAlert.symbol alert ++ " Price Alert")%string
              (PriceAlert.message alert) type_price
              (PriceAlert.priority alert) w in
          let '(rest, queue, w) := checkPriceAlerts rest realTimePrice w in
          (alert :: rest,
           PriceAlertFired (PriceAlert.id alert) notification :: queue, w)
        else
          let '(rest, queue, w) := checkPriceAlerts rest realTimePrice w in
          (alert :: rest, queue, w)
      else
        let '(rest, queue, w) := checkPriceAlerts rest realTimePrice w in
        (alert :: rest, queue, w)
  end.

Fixpoint checkTechnicalAlerts (alerts : list (TechnicalAlert.t N))
    (symbol : string) (technicalData : TechnicalData.t N) (w : World)
  : list (TechnicalAlert.t N) * list Updater * World :=
  match alerts with
  | [] => ([], [], w)
  | alert :: rest =>
      if String.eqb (TechnicalAlert.symbol alert) symbol
         && TechnicalAlert.isActive alert
      then
        let '(fired, alert, w) := checkTechnicalAlert alert technicalData w in
        if fired then
          let '(notification, w) :=
            createAlertNotification (TechnicalAlert.id alert)
              (TechnicalAlert.symbol alert ++ " Technical Alert")%string
              (TechnicalAlert.message alert) type_technical
              (TechnicalAlert.priority alert) w in
          let '(rest, queue, w) :=
            checkTechnicalAlerts rest symbol technicalData w in
          (alert :: rest,
           TechnicalAlertFired (TechnicalAlert.id alert) notification :: queue,
           w)
        else
          let '(rest, queue, w) :=
            checkTechnicalAlerts rest symbol technicalData w in
          (alert :: rest, queue, w)
      else
        let '(rest, queue, w) :=
          checkTechnicalAlerts rest symbol technicalData w in
        (alert :: rest, queue, w)
  end.

(** [calculateSimpleRSI(prices)] *)
Definition calculateSimpleRSI (prices : list N) : N :=
  if (length prices <? 15)%nat then (#50)%js
  else
    let changes :=
      map (fun i => (nth i prices #0 - nth (i - 1) prices #0)%js)
          (seq 1 (length prices - 1)) in
    let gains := filter (fun change => (change >? #0)%js) changes in
    let losses :=
      map nabs (filter (fun change => (change <? #0)%js) changes) in
    let avgGain :=
      if (0 <? length gains)%nat
      then (fold_left nadd gains #0 / #(Z.of_nat (length gains)))%js
      else (#0)%js in
    let avgLoss :=
      if (0 <? length losses)%nat
      then (fold_left nadd losses #0 / #(Z.of_nat (length losses)))%js
      else (#0)%js in
    if (avgLoss =? #0)%js then (#100)%js
    else
      let rs := (avgGain / avgLoss)%js in
      (#100 - #100 / (#1 + rs))%js.

(** [priceHistoryRef.current]: prices per symbol. *)
Definition PriceHistory : Type := list (string * list N).

Fixpoint history_get (h : PriceHistory) (symbol : string) : list N :=
  match h with
  | [] => []
  | (s, l) :: h' => if String.eqb s symbol then l else history_get h' symbol
  end.

Fixpoint history_set (h : PriceHistory) (symbol : string) (l : list N)
  : PriceHistory :=
  match h with
  | [] => [(symbol, l)]
  | (s, l') :: h' =>
      if String.eqb s symbol then (s, l) :: h'
      else (s, l') :: history_set h' symbol l
  end.

(** What the tick handler works on while it runs: the alert objects of the
    rendered state (mutated in place by the checks), the price history,
    the updaters queued so far and the world. *)
Record Handler : Type := {
  h_priceAlerts : list (PriceAlert.t N);
  h_technicalAlerts : list (TechnicalAlert.t N);
  h_history : PriceHistory;
  h_queue : list Updater;
  h_world : World
}.

(** The body of the tick handler for one [realTimePrice]: the price history
    is extended (the last 100 prices are kept), then the price alerts and
    the technical alerts are checked.  The literal [0.8] is written
    [#8 / #10]: in binary64 the quotient is the double nearest to 0.8, which
    is what the literal denotes. *)
Definition onRealTimePrice (h : Handler) (realTimePrice : PriceData.t N)
  : Handler :=
  let symbol := PriceData.symbol realTimePrice in
  let prices :=
    history_get (h_history h) symbol ++ [PriceData.price realTimePrice] in
  let prices :=
    if (100 <? length prices)%nat
    then slice prices (-100) (Z.of_nat (length prices))
    else prices in
  let '(pas, priceQueue, w) :=
    checkPriceAlerts (h_priceAlerts h) realTimePrice (h_world h) in
  let technicalData :=
    {| TechnicalData.rsi := Some (calculateSimpleRSI prices);
       TechnicalData.macd_ := None;
       TechnicalData.volume := Some (PriceData.volume realTimePrice);
       TechnicalData.averageVolume :=
         Some (PriceData.volume realTimePrice * (#8 / #10))%js;
       TechnicalData.supportLevel := None;
       TechnicalData.resistanceLevel := None |} in
  let '(tas, technicalQueue, w) :=
    checkTechnicalAlerts (h_technicalAlerts h) symbol technicalData w in
  {| h_priceAlerts := pas; h_technicalAlerts := tas;
     h_history := history_set (h_history h) symbol prices;
     h_queue := h_queue h ++ priceQueue ++ technicalQueue;
     h_world := w |}.

(** The tick handler: [Object.values(realTimePrices).forEach(...)], after
    which React applies the queued updaters, in order, to the state. *)
Definition onRealTimePrices (alerts : AlertState) (history : PriceHistory)
    (realTimePrices : list (PriceData.t N)) (w : World)
  : AlertState * PriceHistory * World :=
  let h :=
    fold_left onRealTimePrice realTimePrices
      {| h_priceAlerts := priceAlerts alerts;
         h_technicalAlerts := technicalAlerts alerts;
         h_history := history; h_queue := []; h_world := w |} in
  let mutated :=
    with_technicalAlerts (h_technicalAlerts h)
      (with_priceAlerts (h_priceAlerts h) alerts) in
  (fold_left (applyUpdater (clock (h_world h))) (h_queue h) mutated,
   h_history h, h_world h).

Inductive AlertKind : Type := kind_price | kind_technical | kind_news.

(** [deleteAlert(id, type)] *)
Definition deleteAlert (id : string) (type : AlertKind) (prev : AlertState)
  : AlertState :=
  match type with
  | kind_price =>
      with_priceAlerts
        (filter (fun a => negb (String.eqb (PriceAlert.id a) id))
                (priceAlerts prev)) prev
  | kind_technical =>
      with_technicalAlerts
        (filter (fun a => negb (String.eqb (TechnicalAlert.id a) id))
                (technicalAlerts prev)) prev
  | kind_news =>
      with_newsAlerts
        (filter (fun a => negb (String.eqb (NewsAlert.id a) id))
                (newsAlerts prev)) prev
  end.

(** [toggleAlert(id, type)] *)
Definition toggleAlert (id : string) (type : AlertKind) (prev : AlertState)
  : AlertState :=
  match type with
  | kind_price =>
      with_priceAlerts
        (map (fun a => if String.eqb (PriceAlert.id a) id
                       then PriceAlert.toggle_active a else a)
             (priceAlerts prev)) prev
  | kind_technical =>
      with_technicalAlerts
        (map (fun a => if String.eqb (TechnicalAlert.id a) id
                       then TechnicalAlert.toggle_active a else a)
             (technicalAlerts prev)) prev
  | kind_news =>
      with_newsAlerts
        (map (fun a => if String.eqb (NewsAlert.id a) id
                       then NewsAlert.toggle_active a else a)
             (newsAlerts prev)) prev
  end.

(** [clearTriggeredAlerts()] *)
Definition clearTriggeredAlerts (prev : AlertState) : AlertState :=
  with_technicalAlerts
    (filter (fun a => negb (TechnicalAlert.isTriggered a))
            (technicalAlerts prev))
    (with_priceAlerts
       (filter (fun a => negb (PriceAlert.isTriggered a)) (priceAlerts prev))
       prev).

(** [markNotificationAsRead(notificationId)] *)
Definition markNotificationAsRead (notificationId : nat * nat)
    (prev : AlertState) : AlertState :=
  with_notifications
    (map (fun n =>
            if (fst (AlertNotification.id n) =? fst notificationId)%nat
               && (snd (AlertNotification.id n) =? snd notificationId)%nat
            then AlertNotification.set_read n else n)
         (notifications prev)) prev.

(** [clearAllNotifications()] *)
Definition clearAllNotifications (prev : AlertState) : AlertState :=
  with_notifications [] prev.

(** [testAlert()]; the emoji that decorates the title in the source is left
    out of the title here. *)
Definition testAlert (prev : AlertState) (w : World) : AlertState * World :=
  let w := testNotification w in
  let '(testNotification, w) :=
    createAlertNotification "test" "Test Alert"
      "This is a test alert to verify your notification settings."
      type_system low w in
  (with_notifications (testNotification :: notifications prev) prev, w).

(** [updateSettings(newSettings)] *)
Definition updateSettings (newSettings : PartialSettings)
    (prev : AlertState) (w : World) : AlertState * World :=
  let alerts := with_settings (mergeSettings (settings prev) newSettings) prev in
  match soundEnabled_ newSettings with
  | Some enabled => (alerts, setSoundEnabled enabled w)
  | None => (alerts, w)
  end.

End WithNumber.
End UseAlerts.

(* ================================================================= *)
(** ** The vocabulary of the specification *)

(** [values[i-period+1 .. i]], the [period] values that end at [i]. *)
Definition trailing_window {A} (values : list A) (i period : nat) : list A :=
  firstn period (skipn (i + 1 - period) values).

(** The arithmetic mean of a list, summed from the left as the code does. *)
Definition arithmetic_mean {N} `{JsNumber N} (l : list N) : N :=
  (Indicators.sum l / #(Z.of_nat (length l)))%js.

(** The binary64 number 0.1, as the literal [0.1] of the program. *)
Definition b64_tenth : float := Eval vm_compute in (#1 / #10)%js.

(** Re-evaluating one rule against a sequence of ticks (the same tick or
    different ones): the results in order, then the rule and the world as
    the last evaluation leaves them. *)
Fixpoint recheckPriceAlert {N} `{JsNumber N} (alert : PriceAlert.t N)
    (ticks : list (PriceData.t N)) (w : NotificationService.World)
  : list bool * PriceAlert.t N * NotificationService.World :=
  match ticks with
  | [] => ([], alert, w)
  | tick :: ticks' =>
      let '(fired, alert, w) := AlertTriggers.checkPriceAlert alert tick w in
      let '(rest, alert, w) := recheckPriceAlert alert ticks' w in
      (fired :: rest, alert, w)
  end.

Fixpoint recheckTechnicalAlert {N} `{JsNumber N} (alert : TechnicalAlert.t N)
    (snapshots : list (TechnicalData.t N)) (w : NotificationService.World)
  : list bool * TechnicalAlert.t N * NotificationService.World :=
  match snapshots with
  | [] => ([], alert, w)
  | snapshot :: snapshots' =>
      let '(fired, alert, w) :=
        AlertTriggers.checkTechnicalAlert alert snapshot w in
      let '(rest, alert, w) := recheckTechnicalAlert alert snapshots' w in
      (fired :: rest, alert, w)
  end.

(** The condition the specification gives for a volume spike. *)
Definition volume_spike_condition {N} `{JsNumber N}
    (volume averageVolume multiplierThreshold : N) : bool :=
  (volume / averageVolume >=? multiplierThreshold)%js.

(** A run of the dispatcher from [w] to [w'] for a rule whose per-rule
    browser flag is [rule_browser]: the service is as it was, effects are
    only added, a visual effect is added only if the rule's browser flag is
    true and the permission is granted, and a sound only if the service's
    sound flag is true and it has an audio context. *)
Definition gated (rule_browser : bool) (w w' : NotificationService.World)
  : Prop :=
  NotificationService.service w' = NotificationService.service w
  /\ NotificationService.clock w' = NotificationService.clock w
  /\ exists new,
       NotificationService.effects w' = NotificationService.effects w ++ new
       /\ Forall (fun e =>
             (NotificationService.is_visual e = true ->
                rule_browser = true
                /\ NotificationService.notificationPermission
                     (NotificationService.service w)
                   = NotificationService.perm_granted)
             /\ (NotificationService.is_sound e = true ->
                   NotificationService.soundEnabled
                     (NotificationService.service w) = true
                   /\ NotificationService.audioContext
                        (NotificationService.service w) = true))
            new.

(** The excess returns over the per-period risk-free rate. *)
Definition excess_returns {N} `{JsNumber N} (returns : list N)
    (riskFreeRate : N) : list N :=
  map (fun r => (r - riskFreeRate / #Quant.TRADING_DAYS_PER_YEAR)%js) returns.

(** A per-period ratio, annualized by [sqrt(252)]. *)
Definition annualized {N} `{JsNumber N} (ratio : N) : N :=
  (ratio * nsqrt #Quant.TRADING_DAYS_PER_YEAR)%js.

(** The downside deviation: the root of the mean square of the negative
    values. *)
Definition downside_deviation {N} `{JsNumber N} (values : list N) : N :=
  let negatives := filter (fun r => (r <? #0)%js) values in
  nsqrt (fold_left (fun sum r => sum + r * r) negatives #0
         / Quant.length_of negatives)%js.

(** A price rule is quiet for a tick when the tick handler's check of it
    returns false and leaves the rule and the world alone, in every world
    (a rule the handler skips, for its symbol or because it is inactive, is
    quiet). *)
Definition quiet {N} `{JsNumber N} (tick : PriceData.t N)
    (alert : PriceAlert.t N) : Prop :=
  forall w : NotificationService.World,
    String.eqb (PriceAlert.symbol alert) (PriceData.symbol tick)
    && PriceAlert.isActive alert = true ->
    AlertTriggers.checkPriceAlert alert tick w = (false, alert, w).

(** The kinds of technical rule that read the MACD or a support or
    resistance level of the snapshot. *)
Definition reads_level {N} (alert : TechnicalAlert.t N) : bool :=
  match TechnicalAlert.type alert with
  | macd_crossover | support_break | resistance_break => true
  | _ => false
  end.

(** The handler without the technical rules that read the MACD or a level. *)
Definition without_level_rules {N} `{JsNumber N}
    (h : UseAlerts.Handler (N:=N)) : UseAlerts.Handler (N:=N) :=
  {| UseAlerts.h_priceAlerts := UseAlerts.h_priceAlerts h;
     UseAlerts.h_technicalAlerts :=
       filter (fun a => negb (reads_level a)) (UseAlerts.h_technicalAlerts h);
     UseAlerts.h_history := UseAlerts.h_history h;
     UseAlerts.h_queue := UseAlerts.h_queue h;
     UseAlerts.h_world := UseAlerts.h_world h |}.

(** A series without variance: all its values are equal (the empty series
    is one). *)
Definition all_equal (l : list R) : Prop :=
  forall x y : R, In x l -> In y l -> x = y.

(** A series that never falls: each value is at least the one before it. *)
Definition never_falls (l : list R) : Prop :=
  forall (i : nat) (a b : R),
    nth_error l i = Some a -> nth_error l (S i) = Some b -> (a <= b)%R.

(** [level] is a local minimum of [prices] for [window]: the price at a
    position that has [window] prices on either side, none of them below
    it. *)
Definition local_minimum {N} `{JsNumber N} (prices : list N) (window : nat)
    (level : N) : Prop :=
  exists i : nat,
    (window <= i)%nat /\ (i + window < length prices)%nat
    /\ nth_error prices i = Some level
    /\ forall (j : nat) (p : N),
         (i - window <= j <= i + window)%nat -> j <> i ->
         nth_error prices j = Some p -> (p >=? level)%js = true.

(** A local maximum: none of the [window] prices on either side above it. *)
Definition local_maximum {N} `{JsNumber N} (prices : list N) (window : nat)
    (level : N) : Prop :=
  exists i : nat,
    (window <= i)%nat /\ (i + window < length prices)%nat
    /\ nth_error prices i = Some level
    /\ forall (j : nat) (p : N),
         (i - window <= j <= i + window)%nat -> j <> i ->
         nth_error prices j = Some p -> (p <=? level)%js = true.

(** *** Concrete rules, ticks and states *)

Module Scenario.
Import NotificationService UseAlerts.
Section WithNumber.
Context {N : Type} `{JsNumber N}.

(** A browser that granted the permission and has an audio context. *)
Definition world : World :=
  {| service := initial true perm_granted; effects := [];
     clock := 1000; entropy := 0 |}.

Definition priceAlert (id : string) (type : PriceAlertType) (value : N)
    (operator : Operator) (browser sound : bool) : PriceAlert.t N :=
  {| PriceAlert.id := id; PriceAlert.symbol := "AAPL";
     PriceAlert.type := type;
     PriceAlert.condition :=
       {| PriceAlert.value := value; PriceAlert.operator := operator |};
     PriceAlert.isActive := true; PriceAlert.isTriggered := false;
     PriceAlert.createdAt := 0; PriceAlert.triggeredAt := None;
     PriceAlert.notificationSettings :=
       Build_NotificationSettings browser sound;
     PriceAlert.message := "AAPL alert"; PriceAlert.priority := medium;
     PriceAlert.metadata := None |}.

(** A tick of AAPL. *)
Definition tick (price changePercent volume : N) : PriceData.t N :=
  {| PriceData.symbol := "AAPL"; PriceData.price := price;
     PriceData.change := (#0)%js; PriceData.changePercent := changePercent;
     PriceData.volume := volume; PriceData.high := price;
     PriceData.low := price; PriceData.timestamp := (#0)%js |}.

(** Scenario A's rule: AAPL above 150, shown in the browser, no sound. *)
Definition above150 : PriceAlert.t N :=
  priceAlert "a" price_above (#150)%js greater_than true false.

Definition tick151 : PriceData.t N := tick (#151)%js (#1)%js (#1000)%js.

(** A volume-spike rule with multiplier 2. *)
Definition spike2 : PriceAlert.t N :=
  priceAlert "v" volume_spike (#2)%js greater_than false false.

Definition state (rules : list (PriceAlert.t N))
    (notifications : list AlertNotification.t) (st : Settings)
  : AlertState :=
  {| priceAlerts := rules; technicalAlerts := []; newsAlerts := [];
     notifications := notifications; settings := st |}.

(** The browser notifications are switched off in the settings. *)
Definition browserOff : Settings :=
  {| browserNotifications := false; soundEnabled := true;
     emailNotifications := false; maxNotifications := 50 |}.

(** Scenario D's settings. *)
Definition atMost2 : Settings :=
  {| browserNotifications := true; soundEnabled := true;
     emailNotifications := false; maxNotifications := 2 |}.

Definition notification (k : nat) : AlertNotification.t :=
  {| AlertNotification.id := (0%nat, k); AlertNotification.alertId := "old";
     AlertNotification.title := "old"; AlertNotification.message := "old";
     AlertNotification.type := type_price;
     AlertNotification.priority := low;
     AlertNotification.timestamp := 0; AlertNotification.isRead := false |}.

(** Scenario D's three rules; each fires on [tick151]. *)
Definition threeRules : list (PriceAlert.t N) :=
  [ priceAlert "r1" price_above (#150)%js greater_than false false;
    priceAlert "r2" price_above (#140)%js greater_than false false;
    priceAlert "r3" price_above (#130)%js greater_than false false ].

(** An active, untriggered technical rule on AAPL. *)
Definition technicalAlert (id : string) (type : TechnicalAlertType)
    (volumeMultiplier : option N) : TechnicalAlert.t N :=
  {| TechnicalAlert.id := id; TechnicalAlert.symbol := "AAPL";
     TechnicalAlert.type := type;
     TechnicalAlert.parameters :=
       {| TechnicalAlert.rsiLevel := None;
          TechnicalAlert.supportLevel := None;
          TechnicalAlert.resistanceLevel := None;
          TechnicalAlert.volumeMultiplier := volumeMultiplier |};
     TechnicalAlert.isActive := true; TechnicalAlert.isTriggered := false;
     TechnicalAlert.createdAt := 0; TechnicalAlert.triggeredAt := None;
     TechnicalAlert.notificationSettings :=
       Build_NotificationSettings true true;
     TechnicalAlert.message := "AAPL technical alert";
     TechnicalAlert.priority := high |}.

(** The tick handler at its start, with technical rules only. *)
Definition handler (technical : list (TechnicalAlert.t N)) : Handler :=
  {| h_priceAlerts := []; h_technicalAlerts := technical;
     h_history := []; h_queue := []; h_world := world |}.

End WithNumber.
End Scenario.

(* ================================================================= *)
(** * Properties *)

(** ** Loops and slices *)

Lemma for_push_S {A} (n : nat) (body : nat -> list A -> A) :
  for_push (S n) body = for_push n body ++ [body n (for_push n body)].
Proof.
  unfold for_push. rewrite seq_S, fold_left_app. reflexivity.
Qed.

Lemma for_push_length {A} (n : nat) (body : nat -> list A -> A) :
  length (for_push n body) = n.
Proof.
  induction n as [|n IH]; [reflexivity|].
  rewrite for_push_S, length_app, IH. simpl. lia.
Qed.

(** The entry at [i] is what the body pushed at iteration [i], when the
    result held the first [i] entries. *)
Lemma for_push_nth_error {A} (n : nat) (body : nat -> list A -> A) (i : nat) :
  (i < n)%nat ->
  nth_error (for_push n body) i = Some (body i (for_push i body)).
Proof.
  induction n as [|n IH]; intros Hi; [lia|].
  rewrite for_push_S.
  destruct (Nat.eq_dec i n) as [->|Hne].
  - rewrite nth_error_app2 by (rewrite for_push_length; lia).
    rewrite for_push_length, Nat.sub_diag. reflexivity.
  - rewrite nth_error_app1 by (rewrite for_push_length; lia).
    apply IH. lia.
Qed.

(** A slice with both ends inside the array. *)
Lemma slice_inside {A} (l : list A) (s e : nat) :
  (s <= e)%nat -> (e <= length l)%nat ->
  slice l (Z.of_nat s) (Z.of_nat e) = firstn (e - s) (skipn s l).
Proof.
  intros Hse Hel. unfold slice, rel_index.
  destruct (Z.ltb_spec (Z.of_nat s) 0); [lia|].
  destruct (Z.ltb_spec (Z.of_nat e) 0); [lia|].
  rewrite !Z.min_l by lia.
  rewrite <- Nat2Z.inj_sub by lia. rewrite !Nat2Z.id. reflexivity.
Qed.

Lemma firstn_repeat {A} (x : A) (k n : nat) :
  (k <= n)%nat -> firstn k (repeat x n) = repeat x k.
Proof.
  revert n. induction k as [|k IH]; intros [|n] Hk; simpl; try lia; auto.
  f_equal. apply IH. lia.
Qed.

Lemma skipn_repeat {A} (x : A) (k n : nat) :
  skipn k (repeat x n) = repeat x (n - k).
Proof.
  revert n. induction k as [|k IH]; intros [|n]; simpl; auto.
Qed.

Lemma nth_error_repeat_lt {A} (x : A) (i n : nat) :
  (i < n)%nat -> nth_error (repeat x n) i = Some x.
Proof.
  revert n. induction i as [|i IH]; intros [|n] Hi; simpl; try lia; auto.
  apply IH. lia.
Qed.

(** ** Two runs in binary64 *)

Example sma_run_b64 :
  Indicators.calculateSMA (N:=float) [1; 2; 3; 4]%float 2
  = [None; Some 1.5; Some 2.5; Some 3.5]%float.
Proof. vm_compute. reflexivity. Qed.

Example ema_run_b64 :
  Indicators.calculateEMA (N:=float) [10; 10; 10; 10; 10]%float 3
  = [Some 10; Some 10; Some 10; Some 10; Some 10]%float.
Proof. vm_compute. reflexivity. Qed.

(** ** Exact arithmetic *)

Lemma Rltb_lt (x y : R) : Rltb x y = true <-> (x < y)%R.
Proof. unfold Rltb. destruct (Rlt_dec x y); split; intros; auto; discriminate. Qed.

Lemma Rleb_le (x y : R) : Rleb x y = true <-> (x <= y)%R.
Proof. unfold Rleb. destruct (Rle_dec x y); split; intros; auto; discriminate. Qed.

Lemma Reqb_eq (x y : R) : Reqb x y = true <-> x = y.
Proof. unfold Reqb. destruct (Req_dec_T x y); split; intros; auto; discriminate. Qed.

Lemma sum_repeat_R (c : R) (k : nat) (a : R) :
  fold_left Rplus (repeat c k) a = (a + INR k * c)%R.
Proof.
  revert a. induction k as [|k IH]; intros a.
  - simpl. lra.
  - change (repeat c (S k)) with (c :: repeat c k).
    cbn [fold_left]. rewrite IH, S_INR. lra.
Qed.

(** The mean of [k] copies of [c], as the indicators compute it. *)
Lemma mean_repeat_R (c : R) (k : nat) :
  (0 < k)%nat ->
  (Indicators.sum (N:=R) (repeat c k) / INR k)%R = c.
Proof.
  intros Hk. unfold Indicators.sum. cbn [nadd num_of_Z R_number].
  rewrite sum_repeat_R.
  assert (INR k <> 0%R) by (apply not_0_INR; lia).
  field. assumption.
Qed.

(* ================================================================= *)
(** ** SMA: windows and means *)

Lemma trailing_window_length {A} (values : list A) (i period : nat) :
  (i < length values)%nat -> (period <= i + 1)%nat ->
  length (trailing_window values i period) = period.
Proof.
  intros Hi Hp. unfold trailing_window.
  rewrite length_firstn, length_skipn. lia.
Qed.

Lemma sma_entry {N} `{JsNumber N} (values : list N) (period : Z) (i : nat) :
  (1 <= period)%Z -> (i < length values)%nat ->
  nth_error (Indicators.calculateSMA values period) i
  = Some (if (Z.of_nat i <? period - 1)%Z then None
          else Some (arithmetic_mean
                       (trailing_window values i (Z.to_nat period)))).
Proof.
  intros Hp Hi. unfold Indicators.calculateSMA.
  rewrite for_push_nth_error by assumption. f_equal.
  destruct (Z.ltb_spec (Z.of_nat i) (period - 1)) as [Hlt|Hge]; [reflexivity|].
  f_equal. unfold arithmetic_mean.
  rewrite trailing_window_length by lia.
  rewrite Z2Nat.id by lia.
  replace (Z.of_nat i - period + 1)%Z
    with (Z.of_nat (i + 1 - Z.to_nat period)) by lia.
  replace (Z.of_nat i + 1)%Z with (Z.of_nat (i + 1)) by lia.
  rewrite slice_inside by lia.
  unfold trailing_window.
  replace (i + 1 - (i + 1 - Z.to_nat period))%nat with (Z.to_nat period) by lia.
  reflexivity.
Qed.

Lemma sma_constant_R (c : R) (n : nat) (period : Z) (i : nat) :
  (1 <= period)%Z -> (period - 1 <= Z.of_nat i)%Z -> (i < n)%nat ->
  nth_error (Indicators.calculateSMA (N:=R) (repeat c n) period) i
  = Some (Some c).
Proof.
  intros Hp Hge Hi.
  rewrite sma_entry by (rewrite ?repeat_length; lia).
  destruct (Z.ltb_spec (Z.of_nat i) (period - 1)) as [Hlt|_]; [lia|].
  do 2 f_equal. unfold arithmetic_mean, trailing_window.
  rewrite skipn_repeat, firstn_repeat by lia.
  rewrite repeat_length. cbn [ndiv num_of_Z R_number].
  rewrite <- INR_IZR_INZ. apply mean_repeat_R. lia.
Qed.

(** C9, as amended.  For every number model (binary64 included), every list
    of values, every period >= 1 and every position [i] of the list:
    [SMA(values, period)] holds the no-value marker at [i] when
    [i < period - 1] and otherwise the arithmetic mean of
    [values[i-period+1..i]] (the sum taken from the left, divided by
    [period]).  Over exact (real) arithmetic, the SMA of a constant series is
    that constant at every defined position. *)
Theorem sma_windowed_mean :
  (forall (N : Type) (JN : JsNumber N) (values : list N) (period : Z) (i : nat),
     (1 <= period)%Z -> (i < length values)%nat ->
     nth_error (Indicators.calculateSMA values period) i
     = Some (if (Z.of_nat i <? period - 1)%Z then None
             else Some (arithmetic_mean
                          (trailing_window values i (Z.to_nat period)))))
  /\
  (forall (c : R) (n : nat) (period : Z) (i : nat),
     (1 <= period)%Z -> (period - 1 <= Z.of_nat i)%Z -> (i < n)%nat ->
     nth_error (Indicators.calculateSMA (N:=R) (repeat c n) period) i
     = Some (Some c)).
Proof.
  split.
  - intros N JN values period i. apply sma_entry.
  - apply sma_constant_R.
Qed.

Lemma sma_windowed_mean_witness :
  ((1 <= 3)%Z /\ (3 - 1 <= Z.of_nat 4)%Z /\ (4 < 5)%nat)
  /\ nth_error (Indicators.calculateSMA (N:=R) (repeat 7%R 5) 3) 4
     = Some (Some 7%R).
Proof.
  split.
  - simpl. lia.
  - apply (proj2 sma_windowed_mean); simpl; lia.
Defined.

(** C9, as stated, fails in binary64: the SMA of [0.1, 0.1, 0.1] with
    period 3 is 0.10000000000000002 at position 2, not 0.1. *)
Lemma sma_constant_b64_counterexample :
  nth_error
    (Indicators.calculateSMA (N:=float) [b64_tenth; b64_tenth; b64_tenth] 3) 2
  <> Some (Some b64_tenth).
Proof.
  intros Heq.
  apply (f_equal (fun o => match o with
                           | Some (Some v) => PrimFloat.eqb v b64_tenth
                           | _ => false
                           end)) in Heq.
  vm_compute in Heq. discriminate Heq.
Qed.

Example sma_constant_b64_value :
  Indicators.calculateSMA (N:=float) [b64_tenth; b64_tenth; b64_tenth] 3
  = [None; None; Some 0x1.999999999999bp-4%float].
Proof. vm_compute. reflexivity. Qed.

(* ================================================================= *)
(** ** EMA of a constant series *)

Lemma ema_constant_prefix (c : R) (n : nat) (period : Z) (i : nat) :
  (1 <= period)%Z -> (i <= n)%nat ->
  for_push i (fun i result =>
      if (i =? 0)%nat then nth_error (repeat c n) i
      else if (Z.of_nat i <? period - 1)%Z then
        Some (Indicators.sum (slice (repeat c n) 0 (Z.of_nat i + 1))
              / IZR (Z.of_nat i + 1))%R
      else
        match at_index result (i - 1), nth_error (repeat c n) i with
        | Some prevEMA, Some d =>
            Some (d * (2 / IZR (period + 1))
                  + prevEMA * (1 - 2 / IZR (period + 1)))%R
        | _, _ => None
        end)
  = repeat (Some c) i.
Proof.
  intros Hp. induction i as [|i IH]; intros Hi; [reflexivity|].
  rewrite for_push_S, IH by lia.
  replace (S i) with (i + 1)%nat by lia.
  rewrite repeat_app. f_equal. simpl (repeat _ 1). f_equal.
  destruct (Nat.eqb_spec i 0) as [->|Hi0].
  - apply nth_error_repeat_lt. lia.
  - destruct (Z.ltb_spec (Z.of_nat i) (period - 1)) as [Hlt|Hge].
    + f_equal.
      replace (Z.of_nat i + 1)%Z with (Z.of_nat (i + 1)) by lia.
      change 0%Z with (Z.of_nat 0).
      rewrite slice_inside by (rewrite ?repeat_length; lia).
      rewrite skipn_O, Nat.sub_0_r, firstn_repeat by lia.
      rewrite <- INR_IZR_INZ. apply mean_repeat_R. lia.
    + unfold at_index.
      rewrite !nth_error_repeat_lt by lia.
      f_equal. lra.
Qed.

(** C8, as amended.  Over exact (real) arithmetic, for every constant series
    and every period >= 1, EMA returns the same constant at every position;
    in binary64, EMA([10,10,10,10,10], period=3) is [10,10,10,10,10]
    exactly. *)
Theorem ema_constant :
  (forall (c : R) (n : nat) (period : Z),
     (1 <= period)%Z ->
     Indicators.calculateEMA (N:=R) (repeat c n) period = repeat (Some c) n)
  /\ Indicators.calculateEMA (N:=float) [10; 10; 10; 10; 10]%float 3
     = [Some 10; Some 10; Some 10; Some 10; Some 10]%float.
Proof.
  split.
  - intros c n period Hp. unfold Indicators.calculateEMA.
    rewrite repeat_length.
    apply ema_constant_prefix; [assumption | apply Nat.le_refl].
  - vm_compute. reflexivity.
Qed.

Lemma ema_constant_witness :
  (1 <= 3)%Z
  /\ Indicators.calculateEMA (N:=R) (repeat 10%R 5) 3 = repeat (Some 10%R) 5.
Proof.
  split.
  - lia.
  - apply (proj1 ema_constant). lia.
Defined.

(** C8, as stated, fails in binary64: with the constant 0.1 and period 4 the
    running mean at position 2 is 0.10000000000000002. *)
Lemma ema_constant_b64_counterexample :
  Indicators.calculateEMA (N:=float)
    [b64_tenth; b64_tenth; b64_tenth; b64_tenth] 4
  <> [Some b64_tenth; Some b64_tenth; Some b64_tenth; Some b64_tenth].
Proof.
  intros Heq.
  apply (f_equal (fun l => match nth_error l 2 with
                           | Some (Some v) => PrimFloat.eqb v b64_tenth
                           | _ => false
                           end)) in Heq.
  vm_compute in Heq. discriminate Heq.
Qed.

(* ================================================================= *)
(** ** The latch *)

Section Latch.
Context {N : Type} `{JsNumber N}.
Import NotificationService AlertTriggers.

Lemma checkPriceAlert_triggered (alert : PriceAlert.t N)
    (tick : PriceData.t N) (w : World) :
  PriceAlert.isTriggered alert = true ->
  checkPriceAlert alert tick w = (false, alert, w).
Proof.
  intros Ht. unfold checkPriceAlert. rewrite Ht, orb_true_r. reflexivity.
Qed.

Lemma checkTechnicalAlert_triggered (alert : TechnicalAlert.t N)
    (snapshot : TechnicalData.t N) (w : World) :
  TechnicalAlert.isTriggered alert = true ->
  checkTechnicalAlert alert snapshot w = (false, alert, w).
Proof.
  intros Ht. unfold checkTechnicalAlert. rewrite Ht, orb_true_r. reflexivity.
Qed.

Lemma recheckPriceAlert_triggered (alert : PriceAlert.t N)
    (ticks : list (PriceData.t N)) (w : World) :
  PriceAlert.isTriggered alert = true ->
  recheckPriceAlert alert ticks w = (repeat false (length ticks), alert, w).
Proof.
  intros Ht. induction ticks as [|tick ticks IH]; [reflexivity|].
  cbn [recheckPriceAlert]. rewrite checkPriceAlert_triggered by assumption.
  rewrite IH. reflexivity.
Qed.

Lemma recheckTechnicalAlert_triggered (alert : TechnicalAlert.t N)
    (snapshots : list (TechnicalData.t N)) (w : World) :
  TechnicalAlert.isTriggered alert = true ->
  recheckTechnicalAlert alert snapshots w
  = (repeat false (length snapshots), alert, w).
Proof.
  intros Ht. induction snapshots as [|s snapshots IH]; [reflexivity|].
  cbn [recheckTechnicalAlert].
  rewrite checkTechnicalAlert_triggered by assumption.
  rewrite IH. reflexivity.
Qed.

(** In the store: a pass of the tick handler over rules that are all
    triggered changes no rule, queues no updater and leaves the world as it
    was. *)
Lemma checkPriceAlerts_all_triggered (alerts : list (PriceAlert.t N))
    (tick : PriceData.t N) (w : World) :
  Forall (fun a => PriceAlert.isTriggered a = true) alerts ->
  UseAlerts.checkPriceAlerts alerts tick w = (alerts, [], w).
Proof.
  induction 1 as [|a alerts Ha _ IH]; [reflexivity|].
  cbn [UseAlerts.checkPriceAlerts].
  rewrite checkPriceAlert_triggered, IH by assumption.
  destruct (_ && _); reflexivity.
Qed.

(** The two operations that end the latch remove the rule. *)
Lemma clearTriggeredAlerts_removes (prev : UseAlerts.AlertState (N:=N)) :
  Forall (fun a : PriceAlert.t N => PriceAlert.isTriggered a = false)
         (UseAlerts.priceAlerts (UseAlerts.clearTriggeredAlerts prev))
  /\ Forall (fun a : TechnicalAlert.t N => TechnicalAlert.isTriggered a = false)
            (UseAlerts.technicalAlerts (UseAlerts.clearTriggeredAlerts prev)).
Proof.
  unfold UseAlerts.clearTriggeredAlerts. cbn.
  split; apply Forall_forall; intros a Ha;
    apply filter_In in Ha; destruct Ha as [_ Ha];
    apply negb_true_iff in Ha; exact Ha.
Qed.
End Latch.

(** C1.  A price rule or a technical rule whose triggered flag is true:
    evaluating it against any sequence of ticks (snapshots) returns false
    every time, leaves the rule as it is (its triggered flag true) and leaves
    the world as it is, so the dispatcher is not invoked. *)
Theorem triggered_latch :
  forall (N : Type) (JN : JsNumber N),
    (forall (alert : PriceAlert.t N) (ticks : list (PriceData.t N))
            (w : NotificationService.World),
        PriceAlert.isTriggered alert = true ->
        recheckPriceAlert alert ticks w
        = (repeat false (length ticks), alert, w))
    /\
    (forall (alert : TechnicalAlert.t N) (snapshots : list (TechnicalData.t N))
            (w : NotificationService.World),
        TechnicalAlert.isTriggered alert = true ->
        recheckTechnicalAlert alert snapshots w
        = (repeat false (length snapshots), alert, w)).
Proof.
  intros N JN. split.
  - apply recheckPriceAlert_triggered.
  - apply recheckTechnicalAlert_triggered.
Qed.

Lemma triggered_latch_witness :
  PriceAlert.isTriggered
    (PriceAlert.set_triggered 5 (Scenario.above150 (N:=float))) = true
  /\ recheckPriceAlert
       (PriceAlert.set_triggered 5 (Scenario.above150 (N:=float)))
       [Scenario.tick151; Scenario.tick151] Scenario.world
     = ([false; false],
        PriceAlert.set_triggered 5 (Scenario.above150 (N:=float)),
        Scenario.world).
Proof.
  split.
  - reflexivity.
  - apply (proj1 (triggered_latch float_number)). reflexivity.
Defined.

(* ================================================================= *)
(** ** Percent change *)

Section PercentChange.
Context {N : Type} `{JsNumber N}.
Import NotificationService AlertTriggers.

Lemma checkPriceAlert_guards_pass (alert : PriceAlert.t N)
    (tick : PriceData.t N) :
  PriceAlert.isActive alert = true ->
  PriceAlert.isTriggered alert = false ->
  PriceAlert.symbol alert = PriceData.symbol tick ->
  negb (PriceAlert.isActive alert) || PriceAlert.isTriggered alert = false
  /\ negb (String.eqb (PriceAlert.symbol alert) (PriceData.symbol tick))
     = false.
Proof.
  intros -> -> ->. rewrite String.eqb_refl. split; reflexivity.
Qed.
End PercentChange.

Lemma checkPriceAlert_percent_less {N} `{JsNumber N} (alert : PriceAlert.t N)
    (tick : PriceData.t N) (w : NotificationService.World) :
  PriceAlert.isActive alert = true ->
  PriceAlert.isTriggered alert = false ->
  PriceAlert.symbol alert = PriceData.symbol tick ->
  PriceAlert.type alert = percent_change ->
  PriceAlert.operator (PriceAlert.condition alert) = less_than ->
  fst (fst (AlertTriggers.checkPriceAlert alert tick w))
  = (nabs (PriceData.changePercent tick)
     <? PriceAlert.value (PriceAlert.condition alert))%js.
Proof.
  intros Ha Ht Hs Hty Hop.
  destruct (checkPriceAlert_guards_pass alert tick Ha Ht Hs) as [G1 G2].
  unfold AlertTriggers.checkPriceAlert.
  rewrite G1, G2, Hty, Hop.
  destruct (nabs _ <? _)%js; reflexivity.
Qed.

(** C10.  For an active, untriggered percent-change rule whose operator is
    [less_than] and a tick of the rule's symbol, the evaluation returns true
    if and only if the absolute percent change is strictly less than the
    threshold (in every number model; [<?] is the model's strict
    comparison, and over the reals it is [<]). *)
Theorem percent_change_less_than :
  forall (N : Type) (JN : JsNumber N) (alert : PriceAlert.t N)
         (tick : PriceData.t N) (w : NotificationService.World),
    PriceAlert.isActive alert = true ->
    PriceAlert.isTriggered alert = false ->
    PriceAlert.symbol alert = PriceData.symbol tick ->
    PriceAlert.type alert = percent_change ->
    PriceAlert.operator (PriceAlert.condition alert) = less_than ->
    fst (fst (AlertTriggers.checkPriceAlert alert tick w)) = true
    <-> (nabs (PriceData.changePercent tick)
         <? PriceAlert.value (PriceAlert.condition alert))%js = true.
Proof.
  intros N JN alert tick w Ha Ht Hs Hty Hop.
  rewrite (checkPriceAlert_percent_less alert tick w Ha Ht Hs Hty Hop).
  reflexivity.
Qed.

Lemma percent_change_less_than_witness :
  let alert :=
    Scenario.priceAlert (N:=float) "p" percent_change 5%float less_than
                        false false in
  let tick := Scenario.tick (N:=float) 100%float (-3)%float 1000%float in
  (PriceAlert.isActive alert = true
   /\ PriceAlert.isTriggered alert = false
   /\ PriceAlert.symbol alert = PriceData.symbol tick
   /\ PriceAlert.type alert = percent_change
   /\ PriceAlert.operator (PriceAlert.condition alert) = less_than)
  /\ (fst (fst (AlertTriggers.checkPriceAlert alert tick Scenario.world))
      = true
      <-> (nabs (PriceData.changePercent tick)
           <? PriceAlert.value (PriceAlert.condition alert))%js = true).
Proof.
  split.
  - repeat split; reflexivity.
  - apply percent_change_less_than; reflexivity.
Defined.

(** Over exact arithmetic: true if and only if [|changePercent| < value]. *)
Corollary percent_less_iff_R (alert : PriceAlert.t R)
    (tick : PriceData.t R) (w : NotificationService.World) :
  PriceAlert.isActive alert = true ->
  PriceAlert.isTriggered alert = false ->
  PriceAlert.symbol alert = PriceData.symbol tick ->
  PriceAlert.type alert = percent_change ->
  PriceAlert.operator (PriceAlert.condition alert) = less_than ->
  fst (fst (AlertTriggers.checkPriceAlert alert tick w)) = true
  <-> (Rabs (PriceData.changePercent tick)
       < PriceAlert.value (PriceAlert.condition alert))%R.
Proof.
  intros Ha Ht Hs Hty Hop.
  rewrite (checkPriceAlert_percent_less alert tick w Ha Ht Hs Hty Hop).
  apply Rltb_lt.
Qed.

Example percent_less_b64 :
  fst (fst (AlertTriggers.checkPriceAlert
              (Scenario.priceAlert (N:=float) "p" percent_change 5%float
                                   less_than false false)
              (Scenario.tick (N:=float) 100%float (-3)%float 1000%float)
              Scenario.world)) = true
  /\ fst (fst (AlertTriggers.checkPriceAlert
              (Scenario.priceAlert (N:=float) "p" percent_change 5%float
                                   less_than false false)
              (Scenario.tick (N:=float) 100%float (-7)%float 1000%float)
              Scenario.world)) = false.
Proof. split; vm_compute; reflexivity. Qed.

(* ================================================================= *)
(** ** What an evaluation does to the rule and to the world *)

Section Dispatch.
Import NotificationService AlertTriggers.

Lemma gated_refl (b : bool) (w : World) : gated b w w.
Proof.
  repeat split. exists []. rewrite app_nil_r. split; [reflexivity|constructor].
Qed.

Lemma gated_trans (b : bool) (w1 w2 w3 : World) :
  gated b w1 w2 -> gated b w2 w3 -> gated b w1 w3.
Proof.
  intros (S1 & C1 & n1 & E1 & F1) (S2 & C2 & n2 & E2 & F2).
  split; [congruence|]. split; [congruence|].
  exists (n1 ++ n2). split.
  - rewrite E2, E1, app_assoc. reflexivity.
  - apply Forall_app. split; [exact F1|].
    rewrite S1 in F2. exact F2.
Qed.

Lemma gated_showNotification (title : Title) (p : Priority) (w : World) :
  gated true w (showNotification title p w).
Proof.
  unfold showNotification.
  destruct (notificationPermission (service w)) eqn:Hp; cbn;
    try apply gated_refl.
  repeat split. exists [Visual title p]. split; [reflexivity|].
  constructor; [|constructor]. split; [auto|discriminate].
Qed.

Lemma gated_playAlertSound (b : bool) (t : SoundType) (w : World) :
  gated b w (playAlertSound t w).
Proof.
  unfold playAlertSound.
  destruct (soundEnabled (service w)) eqn:Hs,
           (audioContext (service w)) eqn:Ha; cbn;
    try apply gated_refl.
  repeat split. exists [PlayTone (frequencies t)]. split; [reflexivity|].
  constructor; [|constructor]. split; [discriminate|auto].
Qed.

Lemma gated_showPriceAlert (symbol : string) (above : bool) (w : World) :
  gated true w (showPriceAlert symbol above w).
Proof.
  unfold showPriceAlert.
  eapply gated_trans; [apply gated_showNotification|apply gated_playAlertSound].
Qed.

Lemma gated_showTechnicalAlert (symbol : string) (p : Priority) (w : World) :
  gated true w (showTechnicalAlert symbol p w).
Proof.
  unfold showTechnicalAlert.
  eapply gated_trans; [apply gated_showNotification|apply gated_playAlertSound].
Qed.

Context {N : Type} `{JsNumber N}.

Lemma triggerPriceAlert_spec (alert : PriceAlert.t N) (tick : PriceData.t N)
    (w : World) :
  let r := triggerPriceAlert alert tick w in
  PriceAlert.isTriggered (fst r) = true
  /\ PriceAlert.triggeredAt (fst r) = Some (clock w)
  /\ PriceAlert.id (fst r) = PriceAlert.id alert
  /\ gated (browser (PriceAlert.notificationSettings alert)) w (snd r).
Proof.
  cbv zeta.
  assert (G : gated (browser (PriceAlert.notificationSettings alert)) w
                    (snd (triggerPriceAlert alert tick w))).
  { unfold triggerPriceAlert.
    cbn [snd PriceAlert.set_metadata PriceAlert.type PriceAlert.symbol
         PriceAlert.notificationSettings PriceAlert.priority].
    match goal with
    | |- gated _ _ (if _ then _ ?w1 else ?w1) =>
        apply gated_trans with (w2 := w1)
    end.
    - destruct (browser (PriceAlert.notificationSettings alert));
        [|apply gated_refl].
      destruct (PriceAlert.type alert);
        first [apply gated_showPriceAlert | apply gated_showNotification].
    - destruct (sound (PriceAlert.notificationSettings alert));
        [apply gated_playAlertSound|apply gated_refl]. }
  split; [reflexivity|]. split; [|split; [reflexivity|exact G]].
  destruct G as (_ & C & _). unfold triggerPriceAlert in *. cbn in *.
  rewrite C. reflexivity.
Qed.

Lemma triggerTechnicalAlert_spec (alert : TechnicalAlert.t N)
    (snapshot : TechnicalData.t N) (w : World) :
  let r := triggerTechnicalAlert alert snapshot w in
  TechnicalAlert.isTriggered (fst r) = true
  /\ TechnicalAlert.triggeredAt (fst r) = Some (clock w)
  /\ TechnicalAlert.id (fst r) = TechnicalAlert.id alert
  /\ gated (browser (TechnicalAlert.notificationSettings alert)) w (snd r).
Proof.
  cbv zeta.
  assert (G : gated (browser (TechnicalAlert.notificationSettings alert)) w
                    (snd (triggerTechnicalAlert alert snapshot w))).
  { unfold triggerTechnicalAlert. cbn [snd].
    match goal with
    | |- gated _ _ (if _ then _ ?w1 else ?w1) =>
        apply gated_trans with (w2 := w1)
    end.
    - destruct (browser (TechnicalAlert.notificationSettings alert));
        [apply gated_showTechnicalAlert|apply gated_refl].
    - destruct (sound (TechnicalAlert.notificationSettings alert));
        [apply gated_playAlertSound|apply gated_refl]. }
  split; [reflexivity|]. split; [|split; [reflexivity|exact G]].
  destruct G as (_ & C & _). unfold triggerTechnicalAlert in *. cbn in *.
  rewrite C. reflexivity.
Qed.

(** An evaluation either returns false and touches nothing, or returns
    true after it ran the trigger itself, on a rule that was active and
    not triggered. *)
Lemma checkPriceAlert_cases (alert : PriceAlert.t N) (tick : PriceData.t N)
    (w : World) :
  checkPriceAlert alert tick w = (false, alert, w)
  \/ (PriceAlert.isActive alert = true
      /\ PriceAlert.isTriggered alert = false
      /\ checkPriceAlert alert tick w
         = (true, fst (triggerPriceAlert alert tick w),
            snd (triggerPriceAlert alert tick w))).
Proof.
  unfold checkPriceAlert.
  destruct (PriceAlert.isActive alert), (PriceAlert.isTriggered alert);
    cbn [negb orb]; auto.
  destruct (negb (String.eqb _ _)); auto.
  match goal with |- context [if ?c then _ else _] => destruct c end; auto.
Qed.

Lemma checkTechnicalAlert_cases (alert : TechnicalAlert.t N)
    (snapshot : TechnicalData.t N) (w : World) :
  checkTechnicalAlert alert snapshot w = (false, alert, w)
  \/ (TechnicalAlert.isActive alert = true
      /\ TechnicalAlert.isTriggered alert = false
      /\ checkTechnicalAlert alert snapshot w
         = (true, fst (triggerTechnicalAlert alert snapshot w),
            snd (triggerTechnicalAlert alert snapshot w))).
Proof.
  unfold checkTechnicalAlert.
  destruct (TechnicalAlert.isActive alert),
           (TechnicalAlert.isTriggered alert);
    cbn [negb orb]; auto.
  match goal with |- context [if ?c then _ else _] => destruct c end; auto.
Qed.
End Dispatch.




(* ================================================================= *)
(** ** Channel gating *)

(** What the dispatcher does honour.  Whatever an evaluation of a price rule
    or of a technical rule adds to the effects: a visual notification is
    added only if the rule's own browser flag is true and the permission is
    granted, and a sound only if the dispatcher's sound flag is true (and it
    has an audio context); the dispatcher's own state is not changed by a
    firing.
    [updateSettings] merges the new settings into the Settings record and
    sets the dispatcher's sound flag at once when [soundEnabled] is given;
    when it is not given (a change of the browser-notifications toggle, say)
    the dispatcher is left as it was. *)
Theorem channel_gating :
  forall (N : Type) (JN : JsNumber N),
    (forall (alert : PriceAlert.t N) (tick : PriceData.t N)
            (w : NotificationService.World) fired alert' w',
        AlertTriggers.checkPriceAlert alert tick w = (fired, alert', w') ->
        gated (browser (PriceAlert.notificationSettings alert)) w w')
    /\
    (forall (alert : TechnicalAlert.t N) (snapshot : TechnicalData.t N)
            (w : NotificationService.World) fired alert' w',
        AlertTriggers.checkTechnicalAlert alert snapshot w
        = (fired, alert', w') ->
        gated (browser (TechnicalAlert.notificationSettings alert)) w w')
    /\
    (forall (newSettings : UseAlerts.PartialSettings)
            (prev : UseAlerts.AlertState (N:=N))
            (w : NotificationService.World),
        let r := UseAlerts.updateSettings newSettings prev w in
        UseAlerts.settings (fst r)
        = UseAlerts.mergeSettings (UseAlerts.settings prev) newSettings
        /\ NotificationService.soundEnabled
             (NotificationService.service (snd r))
           = nullish (UseAlerts.soundEnabled_ newSettings)
                     (NotificationService.soundEnabled
                        (NotificationService.service w))
        /\ NotificationService.notificationPermission
             (NotificationService.service (snd r))
           = NotificationService.notificationPermission
               (NotificationService.service w)
        /\ NotificationService.effects (snd r) = NotificationService.effects w)
    /\
    (forall (newSettings : UseAlerts.PartialSettings)
            (prev : UseAlerts.AlertState (N:=N))
            (w : NotificationService.World),
        UseAlerts.soundEnabled_ newSettings = None ->
        snd (UseAlerts.updateSettings newSettings prev w) = w).
Proof.
  intros N JN. split; [|split; [|split]].
  - intros alert tick w fired alert' w' E.
    destruct (checkPriceAlert_cases alert tick w) as [C|(_ & _ & C)];
      rewrite C in E; inversion E; subst; clear E.
    + apply gated_refl.
    + exact (proj2 (proj2 (proj2 (triggerPriceAlert_spec alert tick w)))).
  - intros alert snapshot w fired alert' w' E.
    destruct (checkTechnicalAlert_cases alert snapshot w) as [C|(_ & _ & C)];
      rewrite C in E; inversion E; subst; clear E.
    + apply gated_refl.
    + exact (proj2 (proj2 (proj2 (triggerTechnicalAlert_spec alert snapshot w)))).
  - intros newSettings prev w. unfold UseAlerts.updateSettings.
    destruct (UseAlerts.soundEnabled_ newSettings); cbn; auto.
  - intros newSettings prev w E. unfold UseAlerts.updateSettings.
    rewrite E. reflexivity.
Qed.

Lemma channel_gating_witness :
  let newSettings :=
    {| UseAlerts.browserNotifications_ := Some false;
       UseAlerts.soundEnabled_ := None;
       UseAlerts.emailNotifications_ := None;
       UseAlerts.maxNotifications_ := None |} in
  UseAlerts.soundEnabled_ newSettings = None
  /\ snd (UseAlerts.updateSettings newSettings
            (UseAlerts.initialState (N:=float)) Scenario.world)
     = Scenario.world.
Proof.
  split.
  - reflexivity.
  - apply (proj2 (proj2 (proj2 (channel_gating float_number)))). reflexivity.
Defined.

(** C3: the code does not gate the visual channel by the global setting.
    The browser notifications are switched off with [updateSettings]: the
    Settings record holds [browserNotifications = false], and the dispatcher
    is left exactly as it was, for it has no switch for this channel.
    Scenario A's rule (its own browser flag true, its own sound flag false)
    then fires on a tick at 151, and the dispatcher shows a browser
    notification although the global flag is false; with it comes the tone
    of [showPriceAlert], although the rule's own sound flag is false. *)
Theorem global_browser_flag_ignored :
  let newSettings :=
    {| UseAlerts.browserNotifications_ := Some false;
       UseAlerts.soundEnabled_ := None;
       UseAlerts.emailNotifications_ := None;
       UseAlerts.maxNotifications_ := None |} in
  let before :=
    Scenario.state (N:=float) [Scenario.above150] []
      (UseAlerts.settings (UseAlerts.initialState (N:=float))) in
  let updated := UseAlerts.updateSettings newSettings before Scenario.world in
  let r := UseAlerts.onRealTimePrices (fst updated) [] [Scenario.tick151]
             (snd updated) in
  UseAlerts.browserNotifications (UseAlerts.settings before) = true
  /\ UseAlerts.browserNotifications (UseAlerts.settings (fst updated)) = false
  /\ snd updated = Scenario.world
  /\ browser (PriceAlert.notificationSettings (Scenario.above150 (N:=float)))
     = true
  /\ sound (PriceAlert.notificationSettings (Scenario.above150 (N:=float)))
     = false
  /\ NotificationService.effects Scenario.world = []
  /\ NotificationService.effects (snd r)
     = [NotificationService.Visual
          (NotificationService.PriceAlertTitle "AAPL" true) high;
        NotificationService.PlayTone [600; 800]%Z].
Proof. vm_compute. repeat split. Qed.

(* ================================================================= *)
(** ** Volume spike *)

(** Over exact arithmetic the ratio of the volume-spike case is the
    threshold itself, so the rule fires on every tick of its symbol, whatever
    the volume is. *)
Lemma volume_spike_always_fires_R (alert : PriceAlert.t R)
    (tick : PriceData.t R) (w : NotificationService.World) :
  PriceAlert.isActive alert = true ->
  PriceAlert.isTriggered alert = false ->
  PriceAlert.symbol alert = PriceData.symbol tick ->
  PriceAlert.type alert = volume_spike ->
  (0 < PriceData.volume tick)%R ->
  PriceAlert.value (PriceAlert.condition alert) <> 0%R ->
  fst (fst (AlertTriggers.checkPriceAlert alert tick w)) = true.
Proof.
  intros Ha Ht Hs Hty Hv Hval.
  destruct (checkPriceAlert_guards_pass alert tick Ha Ht Hs) as [G1 G2].
  unfold AlertTriggers.checkPriceAlert.
  rewrite G1, G2, Hty. cbn [nleb ndiv R_number].
  assert (E : Rleb (PriceAlert.value (PriceAlert.condition alert))
                (PriceData.volume tick
                 / (PriceData.volume tick
                    / PriceAlert.value (PriceAlert.condition alert)))
              = true).
  { apply Rleb_le. right. field. split; [assumption|lra]. }
  rewrite E. reflexivity.
Qed.

(** C2 at a failing input, in binary64.  A volume-spike rule with multiplier
    2 and a tick whose volume is 1000: the evaluation returns true, while
    the condition of the specification, with an average volume of 1000
    (ratio 1), is false. *)
Theorem volume_spike_ignores_average :
  fst (fst (AlertTriggers.checkPriceAlert (N:=float) Scenario.spike2
              (Scenario.tick 100 0 1000)%float Scenario.world)) = true
  /\ volume_spike_condition (N:=float) 1000%float 1000%float
       (PriceAlert.value (PriceAlert.condition Scenario.spike2)) = false.
Proof. split; vm_compute; reflexivity. Qed.

(* ================================================================= *)
(** ** The cap on notifications *)

Lemma slice_0_firstn {A} (l : list A) (e : Z) :
  (0 <= e)%Z -> slice l 0 e = firstn (Z.to_nat e) l.
Proof.
  intros He. unfold slice, rel_index.
  destruct (Z.ltb_spec 0 0); [lia|].
  destruct (Z.ltb_spec e 0); [lia|].
  rewrite (Z.min_l 0) by lia. cbn [Z.to_nat skipn]. rewrite Z.sub_0_r.
  destruct (Z.le_ge_cases e (Z.of_nat (length l))).
  - rewrite Z.min_l by lia. reflexivity.
  - rewrite Z.min_r by lia. rewrite Nat2Z.id.
    rewrite !firstn_all2 by lia. reflexivity.
Qed.

Lemma slice_0_length {A} (l : list A) (e : Z) :
  (0 <= e)%Z -> (Z.of_nat (length (slice l 0 e)) <= e)%Z.
Proof.
  intros He. rewrite slice_0_firstn by assumption.
  rewrite length_firstn. lia.
Qed.

Section Cap.
Context {N : Type} `{JsNumber N}.
Import UseAlerts.

(** The updaters of the tick handler: the new notification is first, the
    previous ones follow in their order, and the list holds at most
    [maxNotifications] entries (for a maximum of at least 1), the oldest
    being dropped. *)
Lemma applyUpdater_notifications (now : Date) (prev : AlertState (N:=N))
    (u : Updater) :
  (1 <= maxNotifications (settings prev))%Z ->
  let n := match u with
           | PriceAlertFired _ n => n
           | TechnicalAlertFired _ n => n
           end in
  notifications (applyUpdater now prev u)
  = n :: firstn (Z.to_nat (maxNotifications (settings prev) - 1))
                (notifications prev)
  /\ (Z.of_nat (length (notifications (applyUpdater now prev u)))
      <= maxNotifications (settings prev))%Z
  /\ settings (applyUpdater now prev u) = settings prev.
Proof.
  intros Hmax n.
  assert (E : notifications (applyUpdater now prev u)
              = n :: slice (notifications prev) 0
                       (maxNotifications (settings prev) - 1))
    by (destruct u; reflexivity).
  split; [|split].
  - rewrite E, slice_0_firstn by lia. reflexivity.
  - rewrite E. cbn [length].
    pose proof (@slice_0_length _ (notifications prev)
                  (maxNotifications (settings prev) - 1)).
    lia.
  - destruct u; reflexivity.
Qed.

(** [testAlert] adds its notification in front without dropping any. *)
Lemma testAlert_grows (prev : AlertState (N:=N)) (w : NotificationService.World) :
  length (notifications (fst (testAlert prev w)))
  = S (length (notifications prev))
  /\ settings (fst (testAlert prev w)) = settings prev.
Proof. split; reflexivity. Qed.
End Cap.

(** Scenario D, in binary64: with [maxNotifications = 2], three rules that
    fire on one tick leave two notifications, the newest first; the one of
    the first rule is dropped. *)
Example scenario_D :
  map AlertNotification.alertId
      (UseAlerts.notifications
         (fst (fst (UseAlerts.onRealTimePrices
                      (Scenario.state (N:=float) Scenario.threeRules []
                                      Scenario.atMost2)
                      [] [Scenario.tick151] Scenario.world))))
  = ["r3"; "r2"]%string.
Proof. vm_compute. reflexivity. Qed.

(** C5 at a failing input.  With [maxNotifications = 2] and two
    notifications in the list, [testAlert] leaves three. *)
Theorem testAlert_exceeds_cap :
  let prev := Scenario.state (N:=float) []
                [Scenario.notification 1; Scenario.notification 2]
                Scenario.atMost2 in
  let alerts := fst (UseAlerts.testAlert prev Scenario.world) in
  UseAlerts.maxNotifications (UseAlerts.settings alerts) = 2%Z
  /\ length (UseAlerts.notifications alerts) = 3%nat.
Proof. vm_compute. split; reflexivity. Qed.

(* ================================================================= *)
(** ** MACD *)

(** C4 at a failing input, in binary64.  For the closes [5, 5, 5] the MACD
    line is 0 at every index; its EMA, the signal line, is 0 at every index
    too, and [signalLine[signalIndex] || null] turns each 0 into the
    no-value marker: the signal and the histogram are no-value where the
    MACD line is defined. *)
Theorem macd_zero_signal_dropped :
  Indicators.calculateEMA (N:=float) [0; 0; 0]%float 9
  = [Some 0; Some 0; Some 0]%float
  /\ Indicators.calculateMACD (N:=float) [5; 5; 5]%float 12 26 9
     = let point := {| Indicators.macd := Some 0%float;
                       Indicators.signal := None;
                       Indicators.histogram := None |} in
       [point; point; point].
Proof. split; vm_compute; reflexivity. Qed.

(** Another run: the zero of the signal line at index 0 is dropped, the 2 at
    index 1 is kept. *)
Example macd_run_b64 :
  map (fun p => (Indicators.macd p, Indicators.signal p, Indicators.histogram p))
      (Indicators.calculateMACD (N:=float) [4; 8]%float 1 3 1)
  = [(Some 0, None, None); (Some 2, Some 2, Some 0)]%float.
Proof. vm_compute. reflexivity. Qed.

(* ================================================================= *)
(** ** Sharpe and Sortino ratios *)

Section Ratios.
Context {N : Type} `{JsNumber N}.
Import Quant.

(** The zero denominator: [Infinity] for a positive mean excess return,
    0 otherwise; every other input gives a number, so nothing is raised. *)
Lemma sharpe_zero_denominator (returns : list N) (riskFreeRate : N) :
  returns <> [] ->
  (calculateStandardDeviation (excess_returns returns riskFreeRate) =? #0)%js
  = true ->
  calculateSharpeRatio returns riskFreeRate
  = if (calculateMean (excess_returns returns riskFreeRate) >? #0)%js
    then Infinity else Finite (#0)%js.
Proof.
  intros Hne Hz. unfold calculateSharpeRatio.
  destruct returns as [|r returns]; [contradiction|].
  cbn [length Nat.eqb]. fold (excess_returns (r :: returns) riskFreeRate).
  rewrite Hz. reflexivity.
Qed.

Lemma sortino_zero_denominator (returns : list N) (riskFreeRate : N) :
  returns <> [] ->
  filter (fun r => (r <? #0)%js) (excess_returns returns riskFreeRate) = []
  \/ (downside_deviation (excess_returns returns riskFreeRate) =? #0)%js
     = true ->
  calculateSortinoRatio returns riskFreeRate
  = if (calculateMean (excess_returns returns riskFreeRate) >? #0)%js
    then Infinity else Finite (#0)%js.
Proof.
  intros Hne Hz. unfold calculateSortinoRatio.
  destruct returns as [|r returns]; [contradiction|].
  cbn [length Nat.eqb]. fold (excess_returns (r :: returns) riskFreeRate).
  destruct (filter _ (excess_returns (r :: returns) riskFreeRate))
    as [|x neg] eqn:Hneg; [reflexivity|].
  destruct Hz as [Hz|Hz]; [discriminate|].
  unfold downside_deviation in Hz. rewrite Hneg in Hz.
  cbn [length Nat.eqb]. rewrite Hz. reflexivity.
Qed.
End Ratios.

Lemma sqrt_252_pos : (0 < R_sqrt.sqrt (IZR Quant.TRADING_DAYS_PER_YEAR))%R.
Proof. apply sqrt_lt_R0. unfold Quant.TRADING_DAYS_PER_YEAR. lra. Qed.

(** Over exact arithmetic, with a nonzero denominator, the value returned is
    the per-period ratio: the two factors [sqrt(252)] cancel. *)
Lemma sharpe_value_R (returns : list R) (riskFreeRate : R) :
  returns <> [] ->
  Quant.calculateStandardDeviation (excess_returns returns riskFreeRate)
  <> 0%R ->
  Quant.calculateSharpeRatio returns riskFreeRate
  = Finite (Quant.calculateMean (excess_returns returns riskFreeRate)
            / Quant.calculateStandardDeviation
                (excess_returns returns riskFreeRate))%R.
Proof.
  intros Hne Hsd. unfold Quant.calculateSharpeRatio.
  destruct returns as [|r returns]; [contradiction|].
  cbn [length Nat.eqb]. fold (excess_returns (r :: returns) riskFreeRate).
  cbn [neqb nmul ndiv nsqrt num_of_Z R_number].
  destruct (Reqb _ 0) eqn:E; [apply Reqb_eq in E; exfalso; apply Hsd; exact E|].
  f_equal. pose proof sqrt_252_pos. field. split; [assumption|lra].
Qed.

Lemma sortino_value_R (returns : list R) (riskFreeRate : R) :
  filter (fun r => Rltb r 0) (excess_returns returns riskFreeRate) <> [] ->
  downside_deviation (excess_returns returns riskFreeRate) <> 0%R ->
  Quant.calculateSortinoRatio returns riskFreeRate
  = Finite (Quant.calculateMean (excess_returns returns riskFreeRate)
            / downside_deviation (excess_returns returns riskFreeRate))%R.
Proof.
  intros Hneg Hdd. unfold Quant.calculateSortinoRatio.
  destruct returns as [|r returns]; [contradiction Hneg; reflexivity|].
  cbn [length Nat.eqb]. fold (excess_returns (r :: returns) riskFreeRate).
  unfold downside_deviation in *.
  cbn [neqb nltb nmul ndiv nsqrt num_of_Z R_number] in *.
  destruct (filter _ (excess_returns (r :: returns) riskFreeRate))
    as [|x neg] eqn:Hf; [contradiction|].
  cbn [length Nat.eqb].
  destruct (Reqb _ 0) eqn:E; [apply Reqb_eq in E; exfalso; apply Hdd; exact E|].
  f_equal. pose proof sqrt_252_pos. field. split; [assumption|lra].
Qed.

(** C7 at failing inputs, in binary64 (risk-free rate 0).  For the returns
    [0, 0.5, 1] the mean excess return and its standard deviation are both
    0.5: the Sharpe ratio returned is 1, not 1 annualized by [sqrt(252)],
    which is 15.874507866387544.  For the returns [-1, 3] the mean is 1 and
    the downside deviation is 1: the Sortino ratio returned is 1 as well. *)
Theorem ratios_not_annualized :
  Quant.calculateSharpeRatio (N:=float) [0; 0.5; 1]%float 0%float
  = Finite 1%float
  /\ annualized
       (Quant.calculateMean (excess_returns [0; 0.5; 1] 0)
        / Quant.calculateStandardDeviation (excess_returns [0; 0.5; 1] 0))%float
     = 0x1.fbfbf7ebc755fp+3%float
  /\ Quant.calculateSortinoRatio (N:=float) [-1; 3]%float 0%float
     = Finite 1%float
  /\ annualized
       (Quant.calculateMean (excess_returns [-1; 3] 0)
        / downside_deviation (excess_returns [-1; 3] 0))%float
     = 0x1.fbfbf7ebc755fp+3%float.
Proof. repeat split; vm_compute; reflexivity. Qed.

(** The zero denominator in binary64: a constant series of positive excess
    returns gives [Infinity], of negative ones 0, and so does the empty
    series. *)
Example ratios_zero_denominator_b64 :
  Quant.calculateSharpeRatio (N:=float) [1; 1]%float 0%float = Infinity
  /\ Quant.calculateSharpeRatio (N:=float) [-1; -1]%float 0%float
     = Finite 0%float
  /\ Quant.calculateSharpeRatio (N:=float) [] 0%float = Finite 0%float
  /\ Quant.calculateSortinoRatio (N:=float) [1; 3]%float 0%float = Infinity
  /\ Quant.calculateSortinoRatio (N:=float) [] 0%float = Finite 0%float.
Proof. repeat split; vm_compute; reflexivity. Qed.

(** *** What the alignment computes *)

Section MACDAlignment.
Context {N : Type} `{JsNumber N}.
Import Indicators.

(** EMA holds a number at every position of its input. *)
Lemma calculateEMA_defined (data : list N) (period : Z) (i : nat) :
  (i < length data)%nat ->
  exists v, nth_error (calculateEMA data period) i = Some (Some v).
Proof.
  unfold calculateEMA.
  set (body := fun (i : nat) (result : list (option N)) => _).
  assert (P : forall k, (k <= length data)%nat ->
            forall j, (j < k)%nat ->
              exists v, nth_error (for_push k body) j = Some (Some v)).
  { induction k as [|k IH]; intros Hk j Hj; [lia|].
    rewrite for_push_S.
    destruct (Nat.eq_dec j k) as [->|Hne].
    - rewrite nth_error_app2 by (rewrite for_push_length; lia).
      rewrite for_push_length, Nat.sub_diag. cbn [nth_error].
      destruct (nth_error data k) as [d|] eqn:Hd;
        [|apply nth_error_None in Hd; lia].
      unfold body at 1.
      destruct (Nat.eqb_spec k 0) as [->|Hk0]; [rewrite Hd; eauto|].
      destruct (Z.of_nat k <? period - 1)%Z; [eauto|].
      destruct (IH ltac:(lia) (k - 1)%nat ltac:(lia)) as [v Hv].
      unfold at_index. rewrite Hv, Hd. eauto.
    - rewrite nth_error_app1 by (rewrite for_push_length; lia).
      apply IH; lia. }
  intros Hi. apply (P (length data) (Nat.le_refl _) i Hi).
Qed.

Lemma macdLineOf_defined (data : list N) (fastPeriod slowPeriod : Z) (i : nat) :
  (i < length data)%nat ->
  exists m, nth_error (macdLineOf data fastPeriod slowPeriod) i = Some (Some m).
Proof.
  intros Hi. unfold macdLineOf.
  rewrite for_push_nth_error by assumption.
  destruct (calculateEMA_defined data fastPeriod Hi) as [f Hf].
  destruct (calculateEMA_defined data slowPeriod Hi) as [s Hs].
  unfold at_index. rewrite Hf, Hs. eauto.
Qed.

Lemma all_defined_map_Some {A} (l : list (option A)) :
  (forall i, (i < length l)%nat -> exists v, nth_error l i = Some (Some v)) ->
  l = map Some (filter_not_null l).
Proof.
  induction l as [|x l IH]; intros Hall; [reflexivity|].
  destruct (Hall 0%nat ltac:(simpl; lia)) as [v Hv].
  simpl in Hv. injection Hv as ->. simpl. f_equal.
  apply IH. intros i Hi. apply (Hall (S i)). simpl. lia.
Qed.

Lemma alignSignalLine_all_defined (ms : list N) (signalLine : list (option N)) :
  alignSignalLine (map Some ms) signalLine
  = map (fun i => or_null (at_index signalLine i)) (seq 0 (length ms)).
Proof.
  unfold alignSignalLine.
  assert (G : forall acc k,
    fold_left
      (fun '(alignedSignalLine, signalIndex) (m : option N) =>
         match m with
         | Some _ =>
             (alignedSignalLine ++ [or_null (at_index signalLine signalIndex)],
              S signalIndex)
         | None => (alignedSignalLine ++ [None], signalIndex)
         end)
      (map Some ms) (acc, k)
    = (acc ++ map (fun i => or_null (at_index signalLine i))
                  (seq k (length ms)),
       (k + length ms)%nat)).
  { induction ms as [|m ms IH]; intros acc k.
    - simpl. rewrite app_nil_r, Nat.add_0_r. reflexivity.
    - cbn [map fold_left length seq]. rewrite IH.
      rewrite <- app_assoc. cbn [app]. f_equal. lia. }
  rewrite G. reflexivity.
Qed.

(** Every point of the MACD series: the MACD line is a number [m]; the
    signal is the EMA of the MACD values at the same index, passed through
    [|| null]; the histogram is [m] minus the signal when the signal is
    kept. *)
Lemma calculateMACD_entry (data : list N)
    (fastPeriod slowPeriod signalPeriod : Z) (i : nat) :
  (i < length data)%nat ->
  exists m,
    nth_error (macdLineOf data fastPeriod slowPeriod) i = Some (Some m)
    /\ let signal :=
         or_null (at_index
           (calculateEMA
              (filter_not_null (macdLineOf data fastPeriod slowPeriod))
              signalPeriod) i) in
       nth_error (calculateMACD data fastPeriod slowPeriod signalPeriod) i
       = Some {| macd := Some m;
                 signal := signal;
                 histogram := match signal with
                              | Some s => Some (m - s)%js
                              | None => None
                              end |}.
Proof.
  intros Hi.
  destruct (macdLineOf_defined data fastPeriod slowPeriod Hi) as [m Hm].
  exists m. split; [exact Hm|]. cbv zeta.
  unfold calculateMACD. rewrite for_push_nth_error by assumption.
  set (line := macdLineOf data fastPeriod slowPeriod) in *.
  assert (Hlen : length line = length data)
    by (unfold line, macdLineOf; apply for_push_length).
  assert (Hall : line = map Some (filter_not_null line)).
  { apply all_defined_map_Some. intros j Hj.
    apply macdLineOf_defined. lia. }
  assert (Hlen' : length (filter_not_null line) = length data).
  { rewrite <- Hlen. rewrite Hall at 2. rewrite length_map. reflexivity. }
  assert (Ha : at_index (alignSignalLine line
                 (calculateEMA (filter_not_null line) signalPeriod)) i
               = or_null (at_index
                   (calculateEMA (filter_not_null line) signalPeriod) i)).
  { rewrite Hall at 1. rewrite alignSignalLine_all_defined.
    unfold at_index at 1.
    rewrite nth_error_map, nth_error_nth' with (d := 0%nat)
      by (rewrite length_seq; lia).
    rewrite seq_nth by lia. reflexivity. }
  assert (Hm' : at_index line i = Some m)
    by (unfold at_index; rewrite Hm; reflexivity).
  rewrite Ha, !Hm'. reflexivity.
Qed.
End MACDAlignment.

(* ================================================================= *)
(** * Further properties of the store *)

Section StoreOperations.
Context {N : Type} `{JsNumber N}.
Import UseAlerts.

Lemma map_involutive {A} (f : A -> A) (l : list A) :
  (forall x, f (f x) = x) -> map f (map f l) = l.
Proof.
  intros Hf. rewrite map_map. rewrite <- (map_id l) at 2.
  apply map_ext. exact Hf.
Qed.

Lemma toggle_price_twice (id : string) (a : PriceAlert.t N) :
  (fun a => if String.eqb (PriceAlert.id a) id
            then PriceAlert.toggle_active a else a)
    ((fun a => if String.eqb (PriceAlert.id a) id
               then PriceAlert.toggle_active a else a) a) = a.
Proof.
  cbv beta. destruct (String.eqb (PriceAlert.id a) id) eqn:E.
  - cbn. rewrite E. destruct a; unfold PriceAlert.toggle_active; cbn.
    rewrite negb_involutive. reflexivity.
  - rewrite E. reflexivity.
Qed.

Lemma toggle_technical_twice (id : string) (a : TechnicalAlert.t N) :
  (fun a => if String.eqb (TechnicalAlert.id a) id
            then TechnicalAlert.toggle_active a else a)
    ((fun a => if String.eqb (TechnicalAlert.id a) id
               then TechnicalAlert.toggle_active a else a) a) = a.
Proof.
  cbv beta. destruct (String.eqb (TechnicalAlert.id a) id) eqn:E.
  - cbn. rewrite E. destruct a; unfold TechnicalAlert.toggle_active; cbn.
    rewrite negb_involutive. reflexivity.
  - rewrite E. reflexivity.
Qed.

Lemma toggle_news_twice (id : string) (a : NewsAlert.t) :
  (fun a => if String.eqb (NewsAlert.id a) id
            then NewsAlert.toggle_active a else a)
    ((fun a => if String.eqb (NewsAlert.id a) id
               then NewsAlert.toggle_active a else a) a) = a.
Proof.
  cbv beta. destruct (String.eqb (NewsAlert.id a) id) eqn:E.
  - cbn. rewrite E. destruct a; unfold NewsAlert.toggle_active; cbn.
    rewrite negb_involutive. reflexivity.
  - rewrite E. reflexivity.
Qed.

Lemma filter_filter_same {A} (f : A -> bool) (l : list A) :
  filter f (filter f l) = filter f l.
Proof.
  induction l as [|x l IH]; [reflexivity|].
  cbn. destruct (f x) eqn:E; cbn; rewrite ?E, IH; reflexivity.
Qed.

Lemma filter_all_true {A} (f : A -> bool) (l : list A) :
  Forall (fun x => f x = true) l -> filter f l = l.
Proof.
  induction 1 as [|x l Hx _ IH]; [reflexivity|].
  cbn. rewrite Hx, IH. reflexivity.
Qed.
End StoreOperations.

(** X1.  Toggling the same rule twice, for any id and any of the three kinds
    of rule, gives back the state it started from (every rule, the
    notifications and the settings). *)
Theorem toggleAlert_twice :
  forall (N : Type) (JN : JsNumber N) (id : string)
         (type : UseAlerts.AlertKind) (prev : UseAlerts.AlertState (N:=N)),
    UseAlerts.toggleAlert id type (UseAlerts.toggleAlert id type prev) = prev.
Proof.
  intros N JN id type prev.
  destruct prev, type;
    unfold UseAlerts.toggleAlert, UseAlerts.with_priceAlerts,
           UseAlerts.with_technicalAlerts, UseAlerts.with_newsAlerts;
    cbn; f_equal.
  - apply map_involutive. apply toggle_price_twice.
  - apply map_involutive. apply toggle_technical_twice.
  - apply map_involutive. apply toggle_news_twice.
Qed.

(** X2.  [deleteAlert] for price rules: afterwards no price rule carries the
    deleted id; the rules with another id are kept in their order; deleting
    an id that no price rule carries leaves the state as it was; and the
    technical rules, the news rules, the notifications and the settings are
    never touched. *)
Theorem deleteAlert_price :
  forall (N : Type) (JN : JsNumber N) (id : string)
         (prev : UseAlerts.AlertState (N:=N)),
    let next := UseAlerts.deleteAlert id UseAlerts.kind_price prev in
    Forall (fun a => PriceAlert.id a <> id) (UseAlerts.priceAlerts next)
    /\ UseAlerts.priceAlerts next
       = filter (fun a => negb (String.eqb (PriceAlert.id a) id))
                (UseAlerts.priceAlerts prev)
    /\ (Forall (fun a => PriceAlert.id a <> id) (UseAlerts.priceAlerts prev) ->
        next = prev)
    /\ UseAlerts.technicalAlerts next = UseAlerts.technicalAlerts prev
    /\ UseAlerts.newsAlerts next = UseAlerts.newsAlerts prev
    /\ UseAlerts.notifications next = UseAlerts.notifications prev
    /\ UseAlerts.settings next = UseAlerts.settings prev.
Proof.
  intros N JN id prev next. subst next. cbn.
  split; [|split; [reflexivity|split; [|repeat split]]].
  - apply Forall_forall. intros a Ha. apply filter_In in Ha.
    destruct Ha as [_ Ha]. apply negb_true_iff in Ha.
    apply String.eqb_neq. exact Ha.
  - intros Hall. destruct prev; unfold UseAlerts.with_priceAlerts; cbn in *.
    f_equal. apply filter_all_true. eapply Forall_impl; [|exact Hall].
    intros a Ha. apply negb_true_iff. apply String.eqb_neq. exact Ha.
Qed.

Lemma deleteAlert_price_witness :
  Forall (fun a => PriceAlert.id a <> "zz"%string)
         (UseAlerts.priceAlerts
            (Scenario.state (N:=float) [Scenario.above150] []
                            Scenario.atMost2))
  /\ UseAlerts.deleteAlert "zz" UseAlerts.kind_price
       (Scenario.state (N:=float) [Scenario.above150] [] Scenario.atMost2)
     = Scenario.state [Scenario.above150] [] Scenario.atMost2.
Proof.
  assert (Hall : Forall (fun a => PriceAlert.id a <> "zz"%string)
            (UseAlerts.priceAlerts
               (Scenario.state (N:=float) [Scenario.above150] []
                               Scenario.atMost2))).
  { repeat constructor. cbn. discriminate. }
  split; [exact Hall|].
  apply (proj1 (proj2 (proj2 (@deleteAlert_price float float_number "zz"
            (Scenario.state [Scenario.above150] [] Scenario.atMost2))))).
  exact Hall.
Defined.

(** X3.  [clearTriggeredAlerts] keeps exactly the price rules and technical
    rules that are not triggered, in their order, leaves the news rules, the
    notifications and the settings alone, and clearing again changes
    nothing. *)
Theorem clearTriggeredAlerts_idempotent :
  forall (N : Type) (JN : JsNumber N) (prev : UseAlerts.AlertState (N:=N)),
    let next := UseAlerts.clearTriggeredAlerts prev in
    UseAlerts.priceAlerts next
    = filter (fun a => negb (PriceAlert.isTriggered a))
             (UseAlerts.priceAlerts prev)
    /\ UseAlerts.technicalAlerts next
       = filter (fun a => negb (TechnicalAlert.isTriggered a))
                (UseAlerts.technicalAlerts prev)
    /\ UseAlerts.newsAlerts next = UseAlerts.newsAlerts prev
    /\ UseAlerts.notifications next = UseAlerts.notifications prev
    /\ UseAlerts.settings next = UseAlerts.settings prev
    /\ UseAlerts.clearTriggeredAlerts next = next.
Proof.
  intros N JN prev next. subst next. repeat split.
  unfold UseAlerts.clearTriggeredAlerts. cbn.
  unfold UseAlerts.with_technicalAlerts, UseAlerts.with_priceAlerts. cbn.
  rewrite !filter_filter_same. reflexivity.
Qed.

(** X4.  [markNotificationAsRead]: afterwards every notification with the
    given id is read; a notification with another id is as it was; the list
    keeps its length and order; no notification that was read becomes
    unread; and marking again changes nothing. *)
Theorem markNotificationAsRead_marks :
  forall (N : Type) (JN : JsNumber N) (nid : nat * nat)
         (prev : UseAlerts.AlertState (N:=N)),
    let next := UseAlerts.markNotificationAsRead nid prev in
    length (UseAlerts.notifications next)
    = length (UseAlerts.notifications prev)
    /\ (forall k n, nth_error (UseAlerts.notifications prev) k = Some n ->
          nth_error (UseAlerts.notifications next) k
          = Some (if (fst (AlertNotification.id n) =? fst nid)%nat
                     && (snd (AlertNotification.id n) =? snd nid)%nat
                  then AlertNotification.set_read n else n))
    /\ Forall (fun n => AlertNotification.id n = nid ->
                        AlertNotification.isRead n = true)
              (UseAlerts.notifications next)
    /\ UseAlerts.markNotificationAsRead nid next = next.
Proof.
  intros N JN nid prev next. subst next.
  unfold UseAlerts.markNotificationAsRead. cbn.
  split; [apply length_map|]. split; [|split].
  - intros k n Hk. rewrite nth_error_map, Hk. reflexivity.
  - apply Forall_forall. intros n Hn Hid. apply in_map_iff in Hn.
    destruct Hn as (m & Hm & _).
    destruct ((fst (AlertNotification.id m) =? fst nid)%nat
              && (snd (AlertNotification.id m) =? snd nid)%nat) eqn:E.
    + subst n. reflexivity.
    + subst n. rewrite Hid in E. rewrite !Nat.eqb_refl in E. discriminate.
  - unfold UseAlerts.with_notifications. cbn. f_equal.
    rewrite map_map. apply map_ext. intros n.
    destruct ((fst (AlertNotification.id n) =? fst nid)%nat
              && (snd (AlertNotification.id n) =? snd nid)%nat) eqn:E.
    + cbn. rewrite E. reflexivity.
    + rewrite E. reflexivity.
Qed.

Lemma markNotificationAsRead_witness :
  nth_error
    (UseAlerts.notifications
       (Scenario.state (N:=float) [] [Scenario.notification 1]
                       Scenario.atMost2)) 0
  = Some (Scenario.notification 1)
  /\ nth_error
       (UseAlerts.notifications
          (UseAlerts.markNotificationAsRead (0%nat, 1%nat)
             (Scenario.state (N:=float) [] [Scenario.notification 1]
                             Scenario.atMost2))) 0
     = Some (AlertNotification.set_read (Scenario.notification 1)).
Proof.
  split; [reflexivity|].
  apply (proj1 (proj2 (@markNotificationAsRead_marks float float_number
            (0%nat, 1%nat)
            (Scenario.state [] [Scenario.notification 1] Scenario.atMost2)))
          0%nat (Scenario.notification 1)).
  reflexivity.
Defined.

(* ================================================================= *)
(** ** Replaying ticks *)

Section Replay.
Context {N : Type} `{JsNumber N}.
Import NotificationService AlertTriggers UseAlerts.

Lemma checkPriceAlert_fired_indep (a : PriceAlert.t N) (t : PriceData.t N)
    (w w2 : World) :
  fst (fst (checkPriceAlert a t w)) = fst (fst (checkPriceAlert a t w2)).
Proof.
  unfold checkPriceAlert.
  destruct (negb (PriceAlert.isActive a) || PriceAlert.isTriggered a);
    [reflexivity|].
  destruct (negb (String.eqb _ _)); [reflexivity|].
  match goal with |- context [if ?c then _ else _] => destruct c end;
    reflexivity.
Qed.

Lemma triggered_quiet (t : PriceData.t N) (a : PriceAlert.t N) :
  PriceAlert.isTriggered a = true -> quiet t a.
Proof. intros Ht w _. apply checkPriceAlert_triggered. exact Ht. Qed.

(** What one check leaves: the same rule, now known to be quiet for the
    tick, or a triggered rule with the same symbol and activity. *)
Lemma checkPriceAlert_leaves (a : PriceAlert.t N) (t : PriceData.t N)
    (w : World) b a' w' :
  checkPriceAlert a t w = (b, a', w') ->
  (b = false /\ a' = a /\ w' = w /\ quiet t a)
  \/ (b = true /\ PriceAlert.isTriggered a' = true).
Proof.
  intros E.
  destruct (checkPriceAlert_cases a t w) as [C|(_ & _ & C)];
    rewrite C in E; injection E as Eb Ea Ew; subst b a' w'.
  - left. repeat split. intros w2 _.
    destruct (checkPriceAlert_cases a t w2) as [C2|(_ & _ & C2)]; [exact C2|].
    pose proof (checkPriceAlert_fired_indep a t w w2) as I.
    rewrite C, C2 in I. discriminate I.
  - right. split; [reflexivity|]. apply triggerPriceAlert_spec.
Qed.

Lemma checkPriceAlerts_leaves (alerts : list (PriceAlert.t N))
    (t : PriceData.t N) (w : World) pas q w' :
  checkPriceAlerts alerts t w = (pas, q, w') ->
  Forall2 (fun a a' => (a' = a /\ quiet t a)
                       \/ PriceAlert.isTriggered a' = true) alerts pas.
Proof.
  revert w pas q w'. induction alerts as [|a alerts IH]; intros w pas q w' E.
  - cbn in E. inversion E. constructor.
  - cbn [checkPriceAlerts] in E.
    destruct (String.eqb (PriceAlert.symbol a) (PriceData.symbol t)
              && PriceAlert.isActive a) eqn:G.
    + destruct (checkPriceAlert a t w) as [[b a'] w1] eqn:C.
      destruct (@checkPriceAlert_leaves _ _ _ _ _ _ C)
        as [(Eb & Ea & Ew & Q)|(Eb & T)];
        rewrite Eb in E.
      * rewrite Ea, Ew in E.
        destruct (checkPriceAlerts alerts t w) as [[rest q0] w2] eqn:R.
        inversion E; subst. constructor; [left; auto|eapply IH; eauto].
      * destruct (createAlertNotification _ _ _ _ _ w1) as [n w2].
        destruct (checkPriceAlerts alerts t w2) as [[rest q0] w3] eqn:R.
        inversion E; subst. constructor; [right; exact T|eapply IH; eauto].
    + destruct (checkPriceAlerts alerts t w) as [[rest q0] w2] eqn:R.
      inversion E; subst. constructor; [|eapply IH; eauto].
      left. split; [reflexivity|]. intros w0 G0. rewrite G0 in G. discriminate.
Qed.

Lemma quiet_kept (t0 : PriceData.t N) (l l' : list (PriceAlert.t N))
    (R : PriceAlert.t N -> PriceAlert.t N -> Prop) :
  (forall a a', R a a' -> a' = a \/ PriceAlert.isTriggered a' = true) ->
  Forall2 R l l' -> Forall (quiet t0) l -> Forall (quiet t0) l'.
Proof.
  intros HR F. induction F as [|a a' l l' Ha _ IH]; intros Q; [constructor|].
  inversion Q; subst. constructor; [|apply IH; assumption].
  destruct (HR _ _ Ha) as [->|T]; [assumption|apply triggered_quiet; exact T].
Qed.

Lemma quiet_no_op (t : PriceData.t N) (l : list (PriceAlert.t N)) (w : World) :
  Forall (quiet t) l -> checkPriceAlerts l t w = (l, [], w).
Proof.
  induction 1 as [|a l Qa _ IH]; [reflexivity|].
  cbn [checkPriceAlerts].
  destruct (String.eqb (PriceAlert.symbol a) (PriceData.symbol t)
            && PriceAlert.isActive a) eqn:G.
  - rewrite (Qa w G), IH. reflexivity.
  - rewrite IH. reflexivity.
Qed.

Lemma applyUpdater_quiet (t : PriceData.t N) (now : Date)
    (prev : AlertState (N:=N)) (u : Updater) :
  Forall (quiet t) (priceAlerts prev) ->
  Forall (quiet t) (priceAlerts (applyUpdater now prev u)).
Proof.
  intros Q. destruct u; cbn; [|exact Q].
  apply Forall_forall. intros a Ha. apply in_map_iff in Ha.
  destruct Ha as (x & <- & Hx).
  destruct (String.eqb (PriceAlert.id x) alertId).
  - apply triggered_quiet. reflexivity.
  - rewrite Forall_forall in Q. apply Q. exact Hx.
Qed.

Lemma applyUpdater_no_technical (now : Date) (prev : AlertState (N:=N))
    (u : Updater) :
  technicalAlerts prev = [] -> technicalAlerts (applyUpdater now prev u) = [].
Proof. intros E. destruct u; cbn; rewrite E; reflexivity. Qed.

(** The handler's pass over a batch of ticks, for a store without technical
    rules: afterwards every price rule is quiet for every tick of the
    batch. *)
Lemma handler_pass_quiet (ticks : list (PriceData.t N)) (h : Handler (N:=N))
    (seen : list (PriceData.t N)) :
  h_technicalAlerts h = [] ->
  (forall t, In t seen -> Forall (quiet t) (h_priceAlerts h)) ->
  let h' := fold_left onRealTimePrice ticks h in
  h_technicalAlerts h' = []
  /\ (forall t, In t (ticks ++ seen) -> Forall (quiet t) (h_priceAlerts h')).
Proof.
  revert h seen. induction ticks as [|tick ticks IH]; intros h seen Ht Hq.
  - cbn. split; assumption.
  - cbn [fold_left].
    destruct (checkPriceAlerts (h_priceAlerts h) tick (h_world h))
      as [[pas q] w1] eqn:C.
    pose proof (@checkPriceAlerts_leaves _ _ _ _ _ _ C) as L.
    assert (S : h_technicalAlerts (onRealTimePrice h tick) = []
                /\ h_priceAlerts (onRealTimePrice h tick) = pas).
    { unfold onRealTimePrice. rewrite C, Ht. cbn. split; reflexivity. }
    destruct S as [S1 S2].
    specialize (IH (onRealTimePrice h tick) (tick :: seen) S1).
    destruct IH as [I1 I2].
    + intros t [<-|Hin]; rewrite S2.
      * clear -L. induction L as [|a a' l l' Ha _ IHL]; constructor; auto.
        destruct Ha as [[-> Q]|T]; [exact Q|apply triggered_quiet; exact T].
      * eapply quiet_kept; [|exact L|apply Hq; exact Hin].
        intros a a' [[-> _]|T]; auto.
    + split; [exact I1|]. intros t Hin. apply I2.
      apply in_app_or in Hin. apply in_or_app.
      destruct Hin as [[<-|Hin]|Hin]; [right; left; reflexivity|left; exact Hin|
                                      right; right; exact Hin].
Qed.

Lemma fold_applyUpdater_keeps (now : Date) (q : list Updater)
    (st : AlertState (N:=N)) (P : list (PriceAlert.t N) -> Prop) :
  (forall prev u, P (priceAlerts prev) -> P (priceAlerts (applyUpdater now prev u))) ->
  technicalAlerts st = [] -> P (priceAlerts st) ->
  technicalAlerts (fold_left (applyUpdater now) q st) = []
  /\ P (priceAlerts (fold_left (applyUpdater now) q st)).
Proof.
  intros HP. revert st. induction q as [|u q IH]; intros st Ht Hp.
  - split; assumption.
  - cbn [fold_left]. apply IH; [apply applyUpdater_no_technical; exact Ht|].
    apply HP. exact Hp.
Qed.

(** A pass over ticks for which every price rule is quiet, in a store
    without technical rules, changes only the price history. *)
Lemma handler_pass_no_op (ticks : list (PriceData.t N)) (h : Handler (N:=N)) :
  h_technicalAlerts h = [] ->
  (forall t, In t ticks -> Forall (quiet t) (h_priceAlerts h)) ->
  let h' := fold_left onRealTimePrice ticks h in
  h_priceAlerts h' = h_priceAlerts h
  /\ h_technicalAlerts h' = []
  /\ h_queue h' = h_queue h
  /\ h_world h' = h_world h.
Proof.
  revert h. induction ticks as [|tick ticks IH]; intros h Ht Hq.
  - cbn. auto.
  - cbn [fold_left].
    assert (S : h_priceAlerts (onRealTimePrice h tick) = h_priceAlerts h
                /\ h_technicalAlerts (onRealTimePrice h tick) = []
                /\ h_queue (onRealTimePrice h tick) = h_queue h
                /\ h_world (onRealTimePrice h tick) = h_world h).
    { unfold onRealTimePrice.
      rewrite (quiet_no_op (h_world h) (Hq tick (or_introl eq_refl))), Ht.
      cbn. rewrite app_nil_r. auto. }
    destruct S as (S1 & S2 & S3 & S4).
    destruct (IH (onRealTimePrice h tick) S2) as (I1 & I2 & I3 & I4).
    + intros t Hin. rewrite S1. apply Hq. right. exact Hin.
    + cbv zeta. rewrite I1, I3, I4, S1, S3, S4. auto.
Qed.
End Replay.

(** X5.  Replaying ticks (Scenario C, for any store without technical
    rules and any batch of ticks): after the tick handler has processed a
    batch, processing the same batch again, whatever the price history and
    the world, leaves every rule, the notifications and the settings as they
    are and performs no effect.  The rules that fired are latched, and the
    rules that did not fire do not fire on the same tick. *)
Theorem replay_changes_nothing :
  forall (N : Type) (JN : JsNumber N) (alerts : UseAlerts.AlertState (N:=N))
         (history history' : UseAlerts.PriceHistory)
         (ticks : list (PriceData.t N)) (w w' : NotificationService.World),
    UseAlerts.technicalAlerts alerts = [] ->
    let after := fst (fst (UseAlerts.onRealTimePrices alerts history ticks w)) in
    fst (fst (UseAlerts.onRealTimePrices after history' ticks w')) = after
    /\ snd (UseAlerts.onRealTimePrices after history' ticks w') = w'.
Proof.
  intros N JN alerts history history' ticks w w' Ht after.
  assert (A : UseAlerts.technicalAlerts after = []
              /\ forall t, In t ticks ->
                   Forall (quiet t) (UseAlerts.priceAlerts after)).
  { subst after. unfold UseAlerts.onRealTimePrices. cbn [fst].
    match goal with
    | |- context [fold_left UseAlerts.onRealTimePrice ticks ?h0] =>
        destruct (@handler_pass_quiet N JN ticks h0 []) as [P1 P2];
        [exact Ht|intros t []|]; set (h := fold_left _ ticks h0) in *
    end.
    pose proof (@fold_applyUpdater_keeps N
      (NotificationService.clock (UseAlerts.h_world h)) (UseAlerts.h_queue h)
      (UseAlerts.with_technicalAlerts (UseAlerts.h_technicalAlerts h)
         (UseAlerts.with_priceAlerts (UseAlerts.h_priceAlerts h) alerts))
      (fun l => forall t, In t ticks -> Forall (quiet t) l)) as K.
    apply K.
    - intros prev u Hp t Hin. apply applyUpdater_quiet. apply Hp. exact Hin.
    - exact P1.
    - intros t Hin. apply P2. rewrite app_nil_r. exact Hin. }
  destruct A as [A1 A2]. clearbody after.
  unfold UseAlerts.onRealTimePrices.
  match goal with
  | |- context [fold_left UseAlerts.onRealTimePrice ticks ?h0] =>
      destruct (@handler_pass_no_op N JN ticks h0 A1 A2) as (Q1 & Q2 & Q3 & Q4);
      set (h := fold_left _ ticks h0) in *
  end.
  cbn [fst snd]. cbn in Q1, Q3, Q4. rewrite Q1, Q2, Q3, Q4. cbn.
  split; [|reflexivity].
  clear - A1.
  destruct after; unfold UseAlerts.with_technicalAlerts,
    UseAlerts.with_priceAlerts; cbn in *.
  congruence.
Qed.

Lemma replay_changes_nothing_witness :
  UseAlerts.technicalAlerts
    (Scenario.state (N:=float) Scenario.threeRules [] Scenario.atMost2) = []
  /\ (let after :=
        fst (fst (UseAlerts.onRealTimePrices
                    (Scenario.state (N:=float) Scenario.threeRules []
                                    Scenario.atMost2)
                    [] [Scenario.tick151] Scenario.world)) in
      fst (fst (UseAlerts.onRealTimePrices after [] [Scenario.tick151]
                  Scenario.world)) = after
      /\ snd (UseAlerts.onRealTimePrices after [] [Scenario.tick151]
                Scenario.world) = Scenario.world).
Proof.
  split; [reflexivity|].
  apply (@replay_changes_nothing float float_number). reflexivity.
Defined.

(* ================================================================= *)
(** ** Ticks that concern no rule *)

Section Unconcerned.
Context {N : Type} `{JsNumber N}.
Import NotificationService AlertTriggers UseAlerts.

Lemma checkPriceAlerts_skips (alerts : list (PriceAlert.t N))
    (t : PriceData.t N) (w : World) :
  Forall (fun a => PriceAlert.symbol a <> PriceData.symbol t
                   \/ PriceAlert.isActive a = false) alerts ->
  checkPriceAlerts alerts t w = (alerts, [], w).
Proof.
  induction 1 as [|a l Ha _ IH]; [reflexivity|].
  cbn [checkPriceAlerts].
  assert (G : String.eqb (PriceAlert.symbol a) (PriceData.symbol t)
              && PriceAlert.isActive a = false).
  { destruct Ha as [Hs| ->]; [|apply andb_false_r].
    apply String.eqb_neq in Hs. rewrite Hs. reflexivity. }
  rewrite G, IH. reflexivity.
Qed.

Lemma checkTechnicalAlerts_skips (alerts : list (TechnicalAlert.t N))
    (symbol : string) (td : TechnicalData.t N) (w : World) :
  Forall (fun a => TechnicalAlert.symbol a <> symbol
                   \/ TechnicalAlert.isActive a = false) alerts ->
  checkTechnicalAlerts alerts symbol td w = (alerts, [], w).
Proof.
  induction 1 as [|a l Ha _ IH]; [reflexivity|].
  cbn [checkTechnicalAlerts].
  assert (G : String.eqb (TechnicalAlert.symbol a) symbol
              && TechnicalAlert.isActive a = false).
  { destruct Ha as [Hs| ->]; [|apply andb_false_r].
    apply String.eqb_neq in Hs. rewrite Hs. reflexivity. }
  rewrite G, IH. reflexivity.
Qed.

Lemma handler_pass_skips (ticks : list (PriceData.t N)) (h : Handler (N:=N)) :
  (forall t, In t ticks ->
     Forall (fun a => PriceAlert.symbol a <> PriceData.symbol t
                      \/ PriceAlert.isActive a = false) (h_priceAlerts h)
     /\ Forall (fun a => TechnicalAlert.symbol a <> PriceData.symbol t
                         \/ TechnicalAlert.isActive a = false)
               (h_technicalAlerts h)) ->
  let h' := fold_left onRealTimePrice ticks h in
  h_priceAlerts h' = h_priceAlerts h
  /\ h_technicalAlerts h' = h_technicalAlerts h
  /\ h_queue h' = h_queue h
  /\ h_world h' = h_world h.
Proof.
  revert h. induction ticks as [|tick ticks IH]; intros h Hq.
  - cbn. auto.
  - cbn [fold_left].
    destruct (Hq tick (or_introl eq_refl)) as [Hp Ht].
    assert (S : h_priceAlerts (onRealTimePrice h tick) = h_priceAlerts h
                /\ h_technicalAlerts (onRealTimePrice h tick)
                   = h_technicalAlerts h
                /\ h_queue (onRealTimePrice h tick) = h_queue h
                /\ h_world (onRealTimePrice h tick) = h_world h).
    { unfold onRealTimePrice.
      rewrite checkPriceAlerts_skips by exact Hp.
      rewrite checkTechnicalAlerts_skips by exact Ht.
      cbn. rewrite app_nil_r. auto. }
    destruct S as (S1 & S2 & S3 & S4).
    destruct (IH (onRealTimePrice h tick)) as (I1 & I2 & I3 & I4).
    + intros t Hin. rewrite S1, S2. apply Hq. right. exact Hin.
    + cbv zeta. rewrite I1, I2, I3, I4, S1, S2, S3, S4. auto.
Qed.
End Unconcerned.

(** X6.  A batch of ticks that concerns no rule: when, for every tick of the
    batch, each price rule and each technical rule is for another symbol or
    is inactive, the tick handler leaves every rule, the notifications and
    the settings as they are and performs no effect. *)
Theorem unconcerned_ticks_change_nothing :
  forall (N : Type) (JN : JsNumber N) (alerts : UseAlerts.AlertState (N:=N))
         (history : UseAlerts.PriceHistory) (ticks : list (PriceData.t N))
         (w : NotificationService.World),
    (forall t, In t ticks ->
       Forall (fun a => PriceAlert.symbol a <> PriceData.symbol t
                        \/ PriceAlert.isActive a = false)
              (UseAlerts.priceAlerts alerts)
       /\ Forall (fun a => TechnicalAlert.symbol a <> PriceData.symbol t
                           \/ TechnicalAlert.isActive a = false)
                 (UseAlerts.technicalAlerts alerts)) ->
    fst (fst (UseAlerts.onRealTimePrices alerts history ticks w)) = alerts
    /\ snd (UseAlerts.onRealTimePrices alerts history ticks w) = w.
Proof.
  intros N JN alerts history ticks w Hq.
  unfold UseAlerts.onRealTimePrices.
  match goal with
  | |- context [fold_left UseAlerts.onRealTimePrice ticks ?h0] =>
      destruct (@handler_pass_skips N JN ticks h0 Hq) as (Q1 & Q2 & Q3 & Q4);
      set (h := fold_left _ ticks h0) in *
  end.
  cbn [fst snd]. cbn in Q1, Q2, Q3, Q4. rewrite Q1, Q2, Q3, Q4. cbn.
  split; [|reflexivity].
  destruct alerts; reflexivity.
Qed.

Lemma unconcerned_ticks_witness :
  let alerts := Scenario.state (N:=float) [Scenario.above150] []
                               Scenario.atMost2 in
  let msft : PriceData.t float :=
    {| PriceData.symbol := "MSFT"; PriceData.price := 400%float;
       PriceData.change := 0%float; PriceData.changePercent := 0%float;
       PriceData.volume := 1%float; PriceData.high := 400%float;
       PriceData.low := 400%float; PriceData.timestamp := 0%float |} in
  fst (fst (UseAlerts.onRealTimePrices alerts [] [msft] Scenario.world))
  = alerts
  /\ snd (UseAlerts.onRealTimePrices alerts [] [msft] Scenario.world)
     = Scenario.world.
Proof.
  cbv zeta. apply unconcerned_ticks_change_nothing.
  intros t [<-|[]]. split.
  - constructor; [left; cbn; discriminate | constructor].
  - constructor.
Defined.

(* ================================================================= *)
(** ** The price history *)

Section History.
Context {N : Type} `{JsNumber N}.
Import UseAlerts.

Lemma history_get_set_same (h : PriceHistory (N:=N)) (s : string) (l : list N) :
  history_get (history_set h s l) s = l.
Proof.
  induction h as [|[s0 l0] h IH]; cbn.
  - rewrite String.eqb_refl. reflexivity.
  - destruct (String.eqb s0 s) eqn:E; cbn; rewrite E; [reflexivity|exact IH].
Qed.

Lemma history_get_set_other (h : PriceHistory (N:=N)) (s s' : string)
    (l : list N) :
  s' <> s -> history_get (history_set h s l) s' = history_get h s'.
Proof.
  intros Hne. induction h as [|[s0 l0] h IH]; cbn.
  - apply not_eq_sym in Hne. apply String.eqb_neq in Hne. rewrite Hne.
    reflexivity.
  - destruct (String.eqb s0 s) eqn:E; cbn.
    + apply String.eqb_eq in E. subst s0.
      apply not_eq_sym in Hne. apply String.eqb_neq in Hne. rewrite Hne.
      reflexivity.
    + rewrite IH. reflexivity.
Qed.

Lemma slice_last_100 {A} (l : list A) :
  (100 < length l)%nat ->
  slice l (-100) (Z.of_nat (length l)) = skipn (length l - 100) l.
Proof.
  intros Hl. unfold slice, rel_index.
  destruct (Z.ltb_spec (-100) 0); [|lia].
  destruct (Z.ltb_spec (Z.of_nat (length l)) 0); [lia|].
  rewrite Z.max_l by lia. rewrite Z.min_l by lia.
  replace (Z.to_nat (Z.of_nat (length l) + -100)) with (length l - 100)%nat
    by lia.
  apply firstn_all2. rewrite length_skipn. lia.
Qed.

Lemma onRealTimePrice_history (h : Handler (N:=N)) (tick : PriceData.t N) :
  h_history (onRealTimePrice h tick)
  = history_set (h_history h) (PriceData.symbol tick)
      (let prices :=
         history_get (h_history h) (PriceData.symbol tick)
         ++ [PriceData.price tick] in
       if (100 <? length prices)%nat
       then slice prices (-100) (Z.of_nat (length prices)) else prices).
Proof.
  unfold onRealTimePrice.
  destruct (checkPriceAlerts _ _ _) as [[? ?] ?].
  destruct (checkTechnicalAlerts _ _ _ _) as [[? ?] ?].
  reflexivity.
Qed.
End History.

(** X7.  The price history the tick handler keeps: after a tick, the history
    of the tick's symbol ends with the tick's price, holds at most 100
    prices, and is what remains of the former history followed by the new
    price when the oldest prices are dropped; the histories of the other
    symbols are as they were. *)
Theorem price_history_capped :
  forall (N : Type) (JN : JsNumber N) (h : UseAlerts.Handler (N:=N))
         (tick : PriceData.t N),
    let before :=
      UseAlerts.history_get (UseAlerts.h_history h) (PriceData.symbol tick) in
    let after :=
      UseAlerts.history_get
        (UseAlerts.h_history (UseAlerts.onRealTimePrice h tick))
        (PriceData.symbol tick) in
    (length after <= 100)%nat
    /\ (exists kept, after = kept ++ [PriceData.price tick])
    /\ (exists dropped, before ++ [PriceData.price tick] = dropped ++ after)
    /\ (forall s, s <> PriceData.symbol tick ->
          UseAlerts.history_get
            (UseAlerts.h_history (UseAlerts.onRealTimePrice h tick)) s
          = UseAlerts.history_get (UseAlerts.h_history h) s).
Proof.
  intros N JN h tick before after. subst after.
  rewrite onRealTimePrice_history, history_get_set_same.
  fold before. cbv zeta.
  set (prices := before ++ [PriceData.price tick]).
  assert (Hlen : length prices = S (length before))
    by (unfold prices; rewrite length_app; cbn; lia).
  assert (Hother : forall s, s <> PriceData.symbol tick ->
            UseAlerts.history_get
              (UseAlerts.history_set (UseAlerts.h_history h)
                 (PriceData.symbol tick)
                 (if (100 <? length prices)%nat
                  then slice prices (-100) (Z.of_nat (length prices))
                  else prices)) s
            = UseAlerts.history_get (UseAlerts.h_history h) s)
    by (intros s Hs; apply history_get_set_other; exact Hs).
  destruct (Nat.ltb_spec 100 (length prices)) as [Hl|Hl].
  - rewrite slice_last_100 in * by exact Hl.
    split; [rewrite length_skipn; lia|]. split; [|split; [|exact Hother]].
    + unfold prices. rewrite skipn_app.
      replace (length (before ++ [PriceData.price tick]) - 100
               - length before)%nat with 0%nat
        by (fold prices; lia).
      cbn [skipn]. eauto.
    + exists (firstn (length prices - 100) prices).
      symmetry. apply firstn_skipn.
  - split; [lia|]. split; [|split; [|exact Hother]].
    + unfold prices. eauto.
    + exists []. reflexivity.
Qed.

(* ================================================================= *)
(** ** Technical rules in the tick handler *)

Section TechnicalInHandler.
Context {N : Type} `{JsNumber N}.
Import NotificationService AlertTriggers UseAlerts.

(** The kinds of technical rule that read a MACD or a support or
    resistance level. *)
Lemma checkTechnicalAlert_level_kinds (alert : TechnicalAlert.t N)
    (td : TechnicalData.t N) (w : World) :
  (#0 >? #0)%js = false ->
  TechnicalData.macd_ td = None ->
  TechnicalData.supportLevel td = None ->
  TechnicalData.resistanceLevel td = None ->
  TechnicalAlert.type alert = macd_crossover
  \/ TechnicalAlert.type alert = support_break
  \/ TechnicalAlert.type alert = resistance_break ->
  checkTechnicalAlert alert td w = (false, alert, w).
Proof.
  intros Hz Hm Hs Hr Hk. unfold checkTechnicalAlert.
  destruct (negb (TechnicalAlert.isActive alert)
            || TechnicalAlert.isTriggered alert); [reflexivity|].
  destruct Hk as [-> | [-> | ->]]; rewrite ?Hm, ?Hs, ?Hr; cbn [nullish];
    rewrite ?Hz; reflexivity.
Qed.

Lemma checkTechnicalAlerts_level_kinds (alerts : list (TechnicalAlert.t N))
    (symbol : string) (td : TechnicalData.t N) (w : World) :
  (#0 >? #0)%js = false ->
  TechnicalData.macd_ td = None ->
  TechnicalData.supportLevel td = None ->
  TechnicalData.resistanceLevel td = None ->
  Forall (fun a => TechnicalAlert.type a = macd_crossover
                   \/ TechnicalAlert.type a = support_break
                   \/ TechnicalAlert.type a = resistance_break) alerts ->
  checkTechnicalAlerts alerts symbol td w = (alerts, [], w).
Proof.
  intros Hz Hm Hs Hr. induction 1 as [|a l Ha _ IH]; [reflexivity|].
  cbn [checkTechnicalAlerts].
  rewrite (@checkTechnicalAlert_level_kinds a td w Hz Hm Hs Hr Ha), IH.
  destruct (_ && _); reflexivity.
Qed.

Lemma reads_level_kinds (alert : TechnicalAlert.t N) :
  reads_level alert = true ->
  TechnicalAlert.type alert = macd_crossover
  \/ TechnicalAlert.type alert = support_break
  \/ TechnicalAlert.type alert = resistance_break.
Proof.
  unfold reads_level. destruct (TechnicalAlert.type alert); auto; discriminate.
Qed.

(** In a store of any rules, the rules that read a level are left as they
    are, and the pass over the store queues what it queues, and leaves the
    world as it leaves it, without them. *)
Lemma checkTechnicalAlerts_without_level_kinds
    (alerts : list (TechnicalAlert.t N)) (symbol : string)
    (td : TechnicalData.t N) (w : World) :
  (#0 >? #0)%js = false ->
  TechnicalData.macd_ td = None ->
  TechnicalData.supportLevel td = None ->
  TechnicalData.resistanceLevel td = None ->
  snd (fst (checkTechnicalAlerts alerts symbol td w))
  = snd (fst (checkTechnicalAlerts
                (filter (fun a => negb (reads_level a)) alerts) symbol td w))
  /\ snd (checkTechnicalAlerts alerts symbol td w)
     = snd (checkTechnicalAlerts
              (filter (fun a => negb (reads_level a)) alerts) symbol td w)
  /\ forall (k : nat) (a : TechnicalAlert.t N),
       nth_error alerts k = Some a -> reads_level a = true ->
       nth_error (fst (fst (checkTechnicalAlerts alerts symbol td w))) k
       = Some a.
Proof.
  intros Hz Hm Hs Hr. revert w.
  induction alerts as [|a l IH]; intros w.
  - cbn. repeat split. intros [|k] a E; discriminate.
  - destruct (reads_level a) eqn:K.
    + cbn [filter]. rewrite K. cbn [negb checkTechnicalAlerts].
      rewrite (@checkTechnicalAlert_level_kinds a td w Hz Hm Hs Hr
                 (reads_level_kinds a K)).
      assert (E : (if String.eqb (TechnicalAlert.symbol a) symbol
                      && TechnicalAlert.isActive a
                   then
                     let '(rest, queue, w0) :=
                       checkTechnicalAlerts l symbol td w in
                     (a :: rest, queue, w0)
                   else
                     let '(rest, queue, w0) :=
                       checkTechnicalAlerts l symbol td w in
                     (a :: rest, queue, w0))
                  = (a :: fst (fst (checkTechnicalAlerts l symbol td w)),
                     snd (fst (checkTechnicalAlerts l symbol td w)),
                     snd (checkTechnicalAlerts l symbol td w))).
      { destruct (checkTechnicalAlerts l symbol td w) as [[rest q] w0].
        destruct (_ && _); reflexivity. }
      cbv beta iota. rewrite E. cbn [fst snd].
      destruct (IH w) as (I1 & I2 & I3).
      split; [exact I1|]. split; [exact I2|].
      intros [|k] a0 E0 K0; cbn [nth_error] in *; [exact E0|].
      apply I3; assumption.
    + cbn [filter]. rewrite K. cbn [negb checkTechnicalAlerts].
      destruct (String.eqb (TechnicalAlert.symbol a) symbol
                && TechnicalAlert.isActive a).
      * destruct (checkTechnicalAlert a td w) as [[fired a'] w1] eqn:C.
        assert (Ka : reads_level a' = false).
        { destruct (checkTechnicalAlert_cases a td w) as [F|(_ & _ & F)];
            rewrite F in C; inversion C; subst; [exact K|].
            unfold reads_level in *. exact K. }
        destruct fired.
        -- destruct (createAlertNotification _ _ _ _ _ w1) as [n w2].
           destruct (IH w2) as (I1 & I2 & I3).
           destruct (checkTechnicalAlerts l symbol td w2) as [[rest q] w3].
           destruct (checkTechnicalAlerts
                       (filter (fun a => negb (reads_level a)) l) symbol td w2)
             as [[rest' q'] w3'].
           cbn [fst snd] in *. subst q' w3'.
           split; [reflexivity|]. split; [reflexivity|].
           intros [|k] a0 E0 K0; cbn [nth_error] in *.
           ++ injection E0 as <-. congruence.
           ++ apply I3; assumption.
        -- destruct (IH w1) as (I1 & I2 & I3).
           destruct (checkTechnicalAlerts l symbol td w1) as [[rest q] w3].
           destruct (checkTechnicalAlerts
                       (filter (fun a => negb (reads_level a)) l) symbol td w1)
             as [[rest' q'] w3'].
           cbn [fst snd] in *. subst q' w3'.
           split; [reflexivity|]. split; [reflexivity|].
           intros [|k] a0 E0 K0; cbn [nth_error] in *.
           ++ injection E0 as <-. congruence.
           ++ apply I3; assumption.
      * destruct (IH w) as (I1 & I2 & I3).
        destruct (checkTechnicalAlerts l symbol td w) as [[rest q] w3].
        destruct (checkTechnicalAlerts
                    (filter (fun a => negb (reads_level a)) l) symbol td w)
          as [[rest' q'] w3'].
        cbn [fst snd] in *. subst q' w3'.
        split; [reflexivity|]. split; [reflexivity|].
        intros [|k] a0 E0 K0; cbn [nth_error] in *.
        -- injection E0 as <-. congruence.
        -- apply I3; assumption.
Qed.

(** The rule at a position of the store that the pass does check: it is
    left as its evaluation, in the world the pass has reached, leaves it;
    and when the evaluation returns true, an update for its id is queued. *)
Lemma checkTechnicalAlerts_nth (alerts : list (TechnicalAlert.t N))
    (symbol : string) (td : TechnicalData.t N) (w : World)
    (k : nat) (a : TechnicalAlert.t N) :
  nth_error alerts k = Some a ->
  String.eqb (TechnicalAlert.symbol a) symbol && TechnicalAlert.isActive a
  = true ->
  exists wk,
    nth_error (fst (fst (checkTechnicalAlerts alerts symbol td w))) k
    = Some (snd (fst (checkTechnicalAlert a td wk)))
    /\ (fst (fst (checkTechnicalAlert a td wk)) = true ->
        exists n,
          In (TechnicalAlertFired
                (TechnicalAlert.id (snd (fst (checkTechnicalAlert a td wk)))) n)
             (snd (fst (checkTechnicalAlerts alerts symbol td w)))).
Proof.
  revert k w. induction alerts as [|a0 l IH]; intros k w Hk Hc.
  - destruct k; discriminate.
  - destruct k as [|k]; cbn [nth_error] in Hk.
    + injection Hk as ->. exists w. cbn [checkTechnicalAlerts]. rewrite Hc.
      destruct (checkTechnicalAlert a td w) as [[fired a'] w1].
      destruct fired.
      * destruct (createAlertNotification _ _ _ _ _ w1) as [n w2].
        destruct (checkTechnicalAlerts l symbol td w2) as [[rest q] w3].
        cbn [fst snd nth_error]. split; [reflexivity|].
        intros _. exists n. left. reflexivity.
      * destruct (checkTechnicalAlerts l symbol td w1) as [[rest q] w3].
        cbn [fst snd nth_error]. split; [reflexivity|discriminate].
    + cbn [checkTechnicalAlerts].
      destruct (String.eqb (TechnicalAlert.symbol a0) symbol
                && TechnicalAlert.isActive a0).
      * destruct (checkTechnicalAlert a0 td w) as [[fired a'] w1].
        destruct fired.
        -- destruct (createAlertNotification _ _ _ _ _ w1) as [n w2].
           destruct (IH k w2 Hk Hc) as (wk & E & Q).
           destruct (checkTechnicalAlerts l symbol td w2) as [[rest q] w3].
           cbn [fst snd nth_error] in *. exists wk. split; [exact E|].
           intros F. destruct (Q F) as [n' Hn]. exists n'. right. exact Hn.
        -- destruct (IH k w1 Hk Hc) as (wk & E & Q).
           destruct (checkTechnicalAlerts l symbol td w1) as [[rest q] w3].
           cbn [fst snd nth_error] in *. exists wk. split; [exact E|exact Q].
      * destruct (IH k w Hk Hc) as (wk & E & Q).
        destruct (checkTechnicalAlerts l symbol td w) as [[rest q] w3].
        cbn [fst snd nth_error] in *. exists wk. split; [exact E|exact Q].
Qed.
End TechnicalInHandler.

(** X8.  The tick handler never fires a MACD-crossover, support-break or
    resistance-break rule, whatever other rules the store holds: the
    snapshot it builds carries no MACD and no support or resistance level.
    One step of the handler leaves every rule of these three kinds as it
    is, and it queues the same updates, performs the same effects and keeps
    the same price rules and price history as it does on the store without
    these rules.  (The number model must have [0 > 0] false, as the reals
    and binary64 do.) *)
Theorem handler_level_kinds_never_fire :
  forall (N : Type) (JN : JsNumber N) (h : UseAlerts.Handler (N:=N))
         (tick : PriceData.t N),
    (#0 >? #0)%js = false ->
    let h' := UseAlerts.onRealTimePrice h tick in
    let without := UseAlerts.onRealTimePrice (without_level_rules h) tick in
    (forall (k : nat) (a : TechnicalAlert.t N),
       nth_error (UseAlerts.h_technicalAlerts h) k = Some a ->
       TechnicalAlert.type a = macd_crossover
       \/ TechnicalAlert.type a = support_break
       \/ TechnicalAlert.type a = resistance_break ->
       nth_error (UseAlerts.h_technicalAlerts h') k = Some a)
    /\ UseAlerts.h_queue h' = UseAlerts.h_queue without
    /\ UseAlerts.h_world h' = UseAlerts.h_world without
    /\ UseAlerts.h_priceAlerts h' = UseAlerts.h_priceAlerts without
    /\ UseAlerts.h_history h' = UseAlerts.h_history without.
Proof.
  intros N JN h tick Hz h' without. subst h' without.
  unfold UseAlerts.onRealTimePrice, without_level_rules.
  cbn [UseAlerts.h_priceAlerts UseAlerts.h_technicalAlerts
       UseAlerts.h_history UseAlerts.h_queue UseAlerts.h_world].
  destruct (UseAlerts.checkPriceAlerts _ _ _) as [[pas q] w1].
  match goal with
  | |- context [UseAlerts.checkTechnicalAlerts
                  (UseAlerts.h_technicalAlerts h) ?sym ?td w1] =>
      destruct (@checkTechnicalAlerts_without_level_kinds N JN
                  (UseAlerts.h_technicalAlerts h) sym td w1 Hz
                  eq_refl eq_refl eq_refl) as (I1 & I2 & I3);
      destruct (UseAlerts.checkTechnicalAlerts
                  (UseAlerts.h_technicalAlerts h) sym td w1)
        as [[tas tq] w2];
      destruct (UseAlerts.checkTechnicalAlerts
                  (filter (fun a => negb (reads_level a))
                          (UseAlerts.h_technicalAlerts h)) sym td w1)
        as [[tas' tq'] w2']
  end.
  cbn [fst snd UseAlerts.h_priceAlerts UseAlerts.h_technicalAlerts
       UseAlerts.h_history UseAlerts.h_queue UseAlerts.h_world] in *.
  subst tq' w2'. repeat split.
  intros k a Hk Hty. apply I3; [exact Hk|].
  unfold reads_level. destruct Hty as [-> | [-> | ->]]; reflexivity.
Qed.

Lemma handler_level_kinds_witness :
  let h : UseAlerts.Handler (N:=float) :=
    Scenario.handler
      [ Scenario.technicalAlert "v" volume_breakout (Some 1%float);
        Scenario.technicalAlert "s" support_break None ] in
  ((#0 >? #0)%js = false
   /\ nth_error (UseAlerts.h_technicalAlerts h) 1
      = Some (Scenario.technicalAlert "s" support_break None)
   /\ TechnicalAlert.type
        (Scenario.technicalAlert (N:=float) "s" support_break None)
      = support_break)
  /\ nth_error
       (UseAlerts.h_technicalAlerts
          (UseAlerts.onRealTimePrice h Scenario.tick151)) 1
     = Some (Scenario.technicalAlert "s" support_break None).
Proof.
  cbv zeta. split; [repeat split|].
  apply (proj1 (@handler_level_kinds_never_fire float float_number
                  (Scenario.handler
                     [ Scenario.technicalAlert "v" volume_breakout
                         (Some 1%float);
                       Scenario.technicalAlert "s" support_break None ])
                  Scenario.tick151 eq_refl) 1%nat
               (Scenario.technicalAlert "s" support_break None) eq_refl).
  right. left. reflexivity.
Defined.

Lemma price_history_capped_witness :
  "MSFT"%string <> PriceData.symbol (Scenario.tick151 (N:=float))
  /\ UseAlerts.history_get
       (UseAlerts.h_history
          (UseAlerts.onRealTimePrice
             {| UseAlerts.h_priceAlerts := [];
                UseAlerts.h_technicalAlerts := [];
                UseAlerts.h_history := [("MSFT"%string, [400%float])];
                UseAlerts.h_queue := [];
                UseAlerts.h_world := Scenario.world |}
             Scenario.tick151)) "MSFT"
     = [400%float].
Proof.
  split; [discriminate|].
  apply (proj2 (proj2 (proj2 (@price_history_capped float float_number
    {| UseAlerts.h_priceAlerts := [];
       UseAlerts.h_technicalAlerts := [];
       UseAlerts.h_history := [("MSFT"%string, [400%float])];
       UseAlerts.h_queue := [];
       UseAlerts.h_world := Scenario.world |}
    Scenario.tick151)))).
  discriminate.
Defined.

Lemma truthy_R (x : R) : truthy x = true <-> x <> 0%R.
Proof.
  unfold truthy. cbn [neqb num_of_Z R_number].
  assert (Reqb x x = true) as -> by (apply Reqb_eq; reflexivity).
  cbn [andb]. rewrite negb_true_iff. split.
  - intros E Hx. apply Reqb_eq in Hx. congruence.
  - intros Hx. destruct (Reqb x 0) eqn:E; [|reflexivity].
    apply Reqb_eq in E. contradiction.
Qed.

(** The volume-breakout check on the snapshot the tick handler builds, over
    exact arithmetic: the ratio of the volume to 0.8 times the volume is
    1.25 for every volume but zero. *)
Lemma checkTechnicalAlert_volume_breakout_R :
  forall (alert : TechnicalAlert.t R) (volume rsi : R)
         (w : NotificationService.World),
    TechnicalAlert.isActive alert = true ->
    TechnicalAlert.isTriggered alert = false ->
    TechnicalAlert.type alert = volume_breakout ->
    let snapshot :=
      {| TechnicalData.rsi := Some rsi;
         TechnicalData.macd_ := None;
         TechnicalData.volume := Some volume;
         TechnicalData.averageVolume := Some (volume * (#8 / #10))%js;
         TechnicalData.supportLevel := None;
         TechnicalData.resistanceLevel := None |} in
    fst (fst (AlertTriggers.checkTechnicalAlert alert snapshot w)) = true
    <-> (volume <> 0
         /\ nullish (TechnicalAlert.volumeMultiplier
                       (TechnicalAlert.parameters alert)) 2 <= 5 / 4)%R.
Proof.
  intros alert volume rsi w Ha Ht Hty snapshot. subst snapshot.
  unfold AlertTriggers.checkTechnicalAlert.
  rewrite Ha, Ht, Hty. cbn [negb orb TechnicalData.volume
    TechnicalData.averageVolume].
  destruct (Req_dec_T volume 0) as [Hz|Hnz].
  - assert (truthy volume = false) as ->.
    { destruct (truthy volume) eqn:E; [|reflexivity].
      apply truthy_R in E. contradiction. }
    cbn. split; [discriminate|intros [Hv _]; contradiction].
  - assert (truthy volume = true) as -> by (apply truthy_R; exact Hnz).
    assert (truthy (volume * (#8 / #10))%js = true) as ->.
    { apply truthy_R. cbn [nmul ndiv num_of_Z R_number]. nra. }
    cbn [andb nleb ndiv nmul num_of_Z R_number].
    replace (volume / (volume * (8 / 10)))%R with (5 / 4)%R
      by (field; exact Hnz).
    destruct (Rleb _ (5 / 4)) eqn:E.
    + cbn. split; [intros _|reflexivity]. split; [exact Hnz|].
      apply Rleb_le in E. exact E.
    + cbn. split; [discriminate|]. intros [_ Hm].
      apply Rleb_le in Hm. cbn [num_of_Z R_number] in E. congruence.
Qed.

(** X9.  Volume-breakout rules in the tick handler.  The handler's snapshot
    takes 0.8 times the tick's volume as the average volume.  Over exact
    arithmetic the ratio the rule sees is therefore always 1.25: for a
    volume-breakout rule of the tick's symbol, active and untriggered, at
    any position of any store, one step of the handler triggers the rule
    and queues its update exactly when the tick's volume is not zero and
    the rule's multiplier (2 when the rule gives none) is at most 1.25, and
    leaves the rule as it is otherwise.  In binary64 the ratio is not 1.25
    for every volume: with the multiplier 1.25 the handler triggers the rule
    at volume 1000, and does not at volume 3. *)
Theorem handler_volume_breakout :
  (forall (h : UseAlerts.Handler (N:=R)) (tick : PriceData.t R) (k : nat)
          (alert : TechnicalAlert.t R),
     nth_error (UseAlerts.h_technicalAlerts h) k = Some alert ->
     TechnicalAlert.symbol alert = PriceData.symbol tick ->
     TechnicalAlert.isActive alert = true ->
     TechnicalAlert.isTriggered alert = false ->
     TechnicalAlert.type alert = volume_breakout ->
     let h' := UseAlerts.onRealTimePrice h tick in
     let fires :=
       (PriceData.volume tick <> 0
        /\ nullish (TechnicalAlert.volumeMultiplier
                      (TechnicalAlert.parameters alert)) 2 <= 5 / 4)%R in
     exists alert',
       nth_error (UseAlerts.h_technicalAlerts h') k = Some alert'
       /\ (fires ->
           TechnicalAlert.isTriggered alert' = true
           /\ exists n,
                In (UseAlerts.TechnicalAlertFired (TechnicalAlert.id alert) n)
                   (UseAlerts.h_queue h'))
       /\ (~ fires -> alert' = alert))
  /\ map (@TechnicalAlert.isTriggered float)
         (UseAlerts.h_technicalAlerts
            (UseAlerts.onRealTimePrice
               (Scenario.handler
                  [Scenario.technicalAlert "v" volume_breakout
                     (Some (#5 / #4)%js)])
               (Scenario.tick #151 #1 #1000)%js))
     = [true]
  /\ map (@TechnicalAlert.isTriggered float)
         (UseAlerts.h_technicalAlerts
            (UseAlerts.onRealTimePrice
               (Scenario.handler
                  [Scenario.technicalAlert "v" volume_breakout
                     (Some (#5 / #4)%js)])
               (Scenario.tick #151 #1 #3)%js))
     = [false].
Proof.
  split; [|split; vm_compute; reflexivity].
  intros h tick k alert Hk Hsym Ha Ht Hty h' fires. subst h' fires.
  unfold UseAlerts.onRealTimePrice.
  destruct (UseAlerts.checkPriceAlerts _ _ _) as [[pas q] w1].
  match goal with
  | |- context [UseAlerts.checkTechnicalAlerts
                  (UseAlerts.h_technicalAlerts h) ?sym ?td w1] =>
      destruct (@checkTechnicalAlerts_nth R R_number
                  (UseAlerts.h_technicalAlerts h) sym td w1 k alert Hk)
        as (wk & E & Q);
      [rewrite Hsym, String.eqb_refl, Ha; reflexivity|];
      match td with
      | context [UseAlerts.calculateSimpleRSI ?prices] =>
          pose proof (@checkTechnicalAlert_volume_breakout_R alert
                        (PriceData.volume tick)
                        (UseAlerts.calculateSimpleRSI prices) wk Ha Ht Hty)
            as V
      end;
      cbv zeta in V;
      destruct (checkTechnicalAlert_cases alert td wk) as [C|(_ & _ & C)];
      pose proof (triggerTechnicalAlert_spec alert td wk) as T;
      destruct (UseAlerts.checkTechnicalAlerts
                  (UseAlerts.h_technicalAlerts h) sym td w1)
        as [[tas tq] w2]
  end;
  cbv zeta in T; destruct T as (T1 & _ & T3 & _);
  rewrite C in *;
  cbn [fst snd UseAlerts.h_technicalAlerts UseAlerts.h_queue] in *;
  (eexists; split; [exact E|]).
  - split.
    + intros F. apply V in F. discriminate.
    + reflexivity.
  - split.
    + intros _. split; [exact T1|].
      destruct (Q eq_refl) as [n Hn]. exists n.
      apply in_or_app. right. apply in_or_app. right.
      rewrite <- T3. exact Hn.
    + intros NF. exfalso. apply NF. apply V. reflexivity.
Qed.

Lemma handler_volume_breakout_witness :
  let alert : TechnicalAlert.t R :=
    Scenario.technicalAlert "v" volume_breakout None in
  let h : UseAlerts.Handler (N:=R) := Scenario.handler [alert] in
  let tick : PriceData.t R := Scenario.tick 151%R 1%R 1000%R in
  (nth_error (UseAlerts.h_technicalAlerts h) 0 = Some alert
   /\ TechnicalAlert.symbol alert = PriceData.symbol tick
   /\ TechnicalAlert.isActive alert = true
   /\ TechnicalAlert.isTriggered alert = false
   /\ TechnicalAlert.type alert = volume_breakout
   /\ ~ (PriceData.volume tick <> 0
         /\ nullish (TechnicalAlert.volumeMultiplier
                       (TechnicalAlert.parameters alert)) 2 <= 5 / 4)%R)
  /\ nth_error (UseAlerts.h_technicalAlerts (UseAlerts.onRealTimePrice h tick))
       0
     = Some alert.
Proof.
  cbv zeta.
  assert (NF : ~ (PriceData.volume (Scenario.tick 151%R 1%R 1000%R) <> 0
                  /\ nullish (TechnicalAlert.volumeMultiplier
                                (TechnicalAlert.parameters
                                   (Scenario.technicalAlert (N:=R) "v"
                                      volume_breakout None))) 2
                     <= 5 / 4)%R).
  { cbn. intros [_ Hm]. lra. }
  split; [repeat split; exact NF|].
  destruct (proj1 handler_volume_breakout
              (Scenario.handler
                 [Scenario.technicalAlert (N:=R) "v" volume_breakout None])
              (Scenario.tick 151%R 1%R 1000%R) 0%nat
              (Scenario.technicalAlert "v" volume_breakout None)
              eq_refl eq_refl eq_refl eq_refl eq_refl)
    as (alert' & E & _ & U).
  rewrite E, (U NF). reflexivity.
Defined.

(* ================================================================= *)
(** ** Muted channels *)

Section Muted.
Context {N : Type} `{JsNumber N}.
Import NotificationService AlertTriggers.

Lemma checkPriceAlert_gated (alert : PriceAlert.t N) (tick : PriceData.t N)
    (w : World) fired alert' w' :
  checkPriceAlert alert tick w = (fired, alert', w') ->
  gated (browser (PriceAlert.notificationSettings alert)) w w'.
Proof.
  intros E.
  destruct (checkPriceAlert_cases alert tick w) as [C|(_ & _ & C)];
    rewrite C in E; injection E as _ _ Ew; subst w'.
  - apply gated_refl.
  - exact (proj2 (proj2 (proj2 (triggerPriceAlert_spec alert tick w)))).
Qed.

Lemma checkTechnicalAlert_gated (alert : TechnicalAlert.t N)
    (snapshot : TechnicalData.t N) (w : World) fired alert' w' :
  checkTechnicalAlert alert snapshot w = (fired, alert', w') ->
  gated (browser (TechnicalAlert.notificationSettings alert)) w w'.
Proof.
  intros E.
  destruct (checkTechnicalAlert_cases alert snapshot w) as [C|(_ & _ & C)];
    rewrite C in E; injection E as _ _ Ew; subst w'.
  - apply gated_refl.
  - exact (proj2 (proj2 (proj2 (triggerTechnicalAlert_spec alert snapshot w)))).
Qed.

Lemma gated_silent (b : bool) (w w' : World) :
  gated b w w' ->
  soundEnabled (service w) = false ->
  exists new, effects w' = effects w ++ new
              /\ Forall (fun e => is_sound e = false) new.
Proof.
  intros (_ & _ & new & E & F) Hs. exists new. split; [exact E|].
  eapply Forall_impl; [|exact F]. intros e [_ He].
  destruct (is_sound e); [|reflexivity].
  destruct (He eq_refl) as [He' _]. congruence.
Qed.

Lemma gated_invisible (b : bool) (w w' : World) :
  gated b w w' ->
  notificationPermission (service w) <> perm_granted ->
  exists new, effects w' = effects w ++ new
              /\ Forall (fun e => is_visual e = false) new.
Proof.
  intros (_ & _ & new & E & F) Hp. exists new. split; [exact E|].
  eapply Forall_impl; [|exact F]. intros e [He _].
  destruct (is_visual e); [|reflexivity].
  destruct (He eq_refl) as [_ He']. contradiction.
Qed.
End Muted.

(** X10.  Muted channels.  Once [updateSettings] has been given
    [soundEnabled: false], no evaluation of a price rule or of a technical
    rule adds a tone to the effects, whatever the rule's own flags and
    priority; and while the notification permission is not granted, no
    evaluation adds a browser notification (the sound is not affected by the
    permission, nor the notification by the sound switch). *)
Theorem muted_channels :
  forall (N : Type) (JN : JsNumber N),
    (forall (newSettings : UseAlerts.PartialSettings)
            (prev : UseAlerts.AlertState (N:=N))
            (w : NotificationService.World)
            (alert : PriceAlert.t N) (tick : PriceData.t N) fired alert' w',
        UseAlerts.soundEnabled_ newSettings = Some false ->
        AlertTriggers.checkPriceAlert alert tick
          (snd (UseAlerts.updateSettings newSettings prev w))
        = (fired, alert', w') ->
        exists new,
          NotificationService.effects w'
          = NotificationService.effects w ++ new
          /\ Forall (fun e => NotificationService.is_sound e = false) new)
    /\
    (forall (newSettings : UseAlerts.PartialSettings)
            (prev : UseAlerts.AlertState (N:=N))
            (w : NotificationService.World)
            (alert : TechnicalAlert.t N) (snapshot : TechnicalData.t N)
            fired alert' w',
        UseAlerts.soundEnabled_ newSettings = Some false ->
        AlertTriggers.checkTechnicalAlert alert snapshot
          (snd (UseAlerts.updateSettings newSettings prev w))
        = (fired, alert', w') ->
        exists new,
          NotificationService.effects w'
          = NotificationService.effects w ++ new
          /\ Forall (fun e => NotificationService.is_sound e = false) new)
    /\
    (forall (alert : PriceAlert.t N) (tick : PriceData.t N)
            (w : NotificationService.World) fired alert' w',
        NotificationService.notificationPermission
          (NotificationService.service w)
        <> NotificationService.perm_granted ->
        AlertTriggers.checkPriceAlert alert tick w = (fired, alert', w') ->
        exists new,
          NotificationService.effects w'
          = NotificationService.effects w ++ new
          /\ Forall (fun e => NotificationService.is_visual e = false) new)
    /\
    (forall (alert : TechnicalAlert.t N) (snapshot : TechnicalData.t N)
            (w : NotificationService.World) fired alert' w',
        NotificationService.notificationPermission
          (NotificationService.service w)
        <> NotificationService.perm_granted ->
        AlertTriggers.checkTechnicalAlert alert snapshot w
        = (fired, alert', w') ->
        exists new,
          NotificationService.effects w'
          = NotificationService.effects w ++ new
          /\ Forall (fun e => NotificationService.is_visual e = false) new).
Proof.
  intros N JN. split; [|split; [|split]].
  - intros p prev w alert tick fired alert' w' Hs E.
    unfold UseAlerts.updateSettings in E. rewrite Hs in E. cbn [snd] in E.
    apply checkPriceAlert_gated in E.
    apply (gated_silent E). reflexivity.
  - intros p prev w alert snapshot fired alert' w' Hs E.
    unfold UseAlerts.updateSettings in E. rewrite Hs in E. cbn [snd] in E.
    apply checkTechnicalAlert_gated in E.
    apply (gated_silent E). reflexivity.
  - intros alert tick w fired alert' w' Hp E.
    apply checkPriceAlert_gated in E. apply (gated_invisible E Hp).
  - intros alert snapshot w fired alert' w' Hp E.
    apply checkTechnicalAlert_gated in E. apply (gated_invisible E Hp).
Qed.

Lemma muted_channels_witness :
  let w : NotificationService.World :=
    {| NotificationService.service :=
         NotificationService.initial true NotificationService.perm_denied;
       NotificationService.effects := [];
       NotificationService.clock := 1000;
       NotificationService.entropy := 0 |} in
  NotificationService.notificationPermission (NotificationService.service w)
  <> NotificationService.perm_granted
  /\ exists new,
       NotificationService.effects
         (snd (AlertTriggers.checkPriceAlert (N:=float) Scenario.above150
                 Scenario.tick151 w))
       = NotificationService.effects w ++ new
       /\ Forall (fun e => NotificationService.is_visual e = false) new.
Proof.
  cbv zeta. split; [discriminate|].
  destruct (AlertTriggers.checkPriceAlert (N:=float) Scenario.above150
              Scenario.tick151 _) as [[fired alert'] w'] eqn:E.
  cbn [snd].
  eapply (proj1 (proj2 (proj2 (@muted_channels float float_number))));
    [|exact E].
  discriminate.
Defined.

(* ================================================================= *)
(** * Further properties of the indicators *)

Lemma adjacent_map_length {A B} (f : A -> A -> B) (l : list A) :
  length (adjacent_map f l) = (length l - 1)%nat.
Proof.
  induction l as [|x [|y l] IH]; [reflexivity|reflexivity|].
  change (adjacent_map f (x :: y :: l))
    with (f x y :: adjacent_map f (y :: l)).
  cbn [length] in *. rewrite IH. lia.
Qed.

Section IndicatorShapes.
Context {N : Type} `{JsNumber N}.
Import Indicators.

(** The smoothing loop of [calculateRSI]: it starts from [result] and the
    seeds of the two averages, and each iteration pushes the RSI of the
    current averages.  [P] is any property of the two averages that the
    seeds have and that the smoothing step keeps. *)
Lemma rsi_loop (P : N -> N -> Prop) (period : nat) (gains losses : list N)
    (bound : Z) (l : list nat) (result : list (option N)) (avgGain avgLoss : N) :
  P avgGain avgLoss ->
  (forall i g lo, P g lo ->
     P ((g * #(Z.of_nat period - 1) + nth i gains #0) / #(Z.of_nat period))%js
       ((lo * #(Z.of_nat period - 1) + nth i losses #0) / #(Z.of_nat period))%js) ->
  exists vs,
    fst (fst (fold_left
      (fun '(result, avgGain, avgLoss) i =>
         let result := result ++ [Some (rsiOf avgGain avgLoss)] in
         if (Z.of_nat i <? bound)%Z then
           (result,
            ((avgGain * #(Z.of_nat period - 1) + nth i gains #0)
             / #(Z.of_nat period))%js,
            ((avgLoss * #(Z.of_nat period - 1) + nth i losses #0)
             / #(Z.of_nat period))%js)
         else (result, avgGain, avgLoss))
      l (result, avgGain, avgLoss)))
    = result ++ map Some vs
    /\ length vs = length l
    /\ Forall (fun v => exists g lo, P g lo /\ v = rsiOf g lo) vs.
Proof.
  intros HP Hstep.
  match goal with
  | |- context [fold_left ?f _ _] => set (step := f)
  end.
  revert result avgGain avgLoss HP.
  induction l as [|i l IH]; intros result g lo HP.
  - exists []. cbn. rewrite app_nil_r. auto.
  - cbn [fold_left].
    destruct (Z.of_nat i <? bound)%Z eqn:Hb.
    + assert (S1 : step (result, g, lo) i
                   = (result ++ [Some (rsiOf g lo)],
                      ((g * #(Z.of_nat period - 1) + nth i gains #0)
                       / #(Z.of_nat period))%js,
                      ((lo * #(Z.of_nat period - 1) + nth i losses #0)
                       / #(Z.of_nat period))%js))
        by (unfold step; rewrite Hb; reflexivity).
      rewrite S1.
      destruct (IH (result ++ [Some (rsiOf g lo)]) _ _ (Hstep i g lo HP))
        as (vs & E & L & F).
      exists (rsiOf g lo :: vs). rewrite E, <- app_assoc. cbn.
      repeat split; [lia|]. constructor; eauto.
    + assert (S1 : step (result, g, lo) i
                   = (result ++ [Some (rsiOf g lo)], g, lo))
        by (unfold step; rewrite Hb; reflexivity).
      rewrite S1.
      destruct (IH (result ++ [Some (rsiOf g lo)]) g lo HP)
        as (vs & E & L & F).
      exists (rsiOf g lo :: vs). rewrite E, <- app_assoc. cbn.
      repeat split; [lia|]. constructor; eauto.
Qed.

(** [calculateRSI], when the series is long enough: [period + 1] no-value
    markers, then one RSI for each position that is left. *)
Lemma calculateRSI_shape (P : N -> N -> Prop) (data : list N) (period : nat) :
  (period + 1 <= length data)%nat ->
  let changes := adjacent_map (fun previous current => (current - previous)%js) data in
  let gains :=
    map (fun change => if (change >? #0)%js then change else (#0)%js) changes in
  let losses :=
    map (fun change => if (change <? #0)%js then nabs change else (#0)%js)
        changes in
  P (sum (slice gains 0 (Z.of_nat period)) / #(Z.of_nat period))%js
    (sum (slice losses 0 (Z.of_nat period)) / #(Z.of_nat period))%js ->
  (forall i g lo, P g lo ->
     P ((g * #(Z.of_nat period - 1) + nth i gains #0) / #(Z.of_nat period))%js
       ((lo * #(Z.of_nat period - 1) + nth i losses #0) / #(Z.of_nat period))%js) ->
  exists vs,
    calculateRSI data period = repeat None (period + 1) ++ map Some vs
    /\ length vs = (length data - (period + 1))%nat
    /\ Forall (fun v => exists g lo, P g lo /\ v = rsiOf g lo) vs.
Proof.
  intros Hlen changes gains losses Hseed Hstep.
  unfold calculateRSI.
  destruct (Nat.ltb_spec (length data) (period + 1)) as [Hs|_]; [lia|].
  fold changes. fold gains. fold losses.
  set (result := for_push (period + 1) (fun _ _ => @None N)).
  assert (Hres : result = repeat None (period + 1)).
  { unfold result. clear. induction (period + 1)%nat as [|n IH];
      [reflexivity|].
    rewrite for_push_S, IH. replace (S n) with (n + 1)%nat by lia.
    rewrite repeat_app. reflexivity. }
  destruct (@rsi_loop P period gains losses (Z.of_nat (length changes) - 1)
              (seq period (length changes - period)) result _ _ Hseed Hstep)
    as (vs & E & L & F).
  exists vs. split; [|split; [|exact F]].
  - rewrite <- Hres, <- E.
    destruct (fold_left _ _ _) as [[r g] lo]. reflexivity.
  - rewrite L, length_seq. unfold changes. rewrite adjacent_map_length. lia.
Qed.

Lemma calculateRSI_length (data : list N) (period : nat) :
  length (calculateRSI data period) = length data.
Proof.
  destruct (Nat.ltb_spec (length data) (period + 1)) as [Hs|Hl].
  - unfold calculateRSI.
    destruct (Nat.ltb_spec (length data) (period + 1)); [|lia].
    apply length_map.
  - destruct (@calculateRSI_shape (fun _ _ => True) data period Hl I
                (fun _ _ _ _ => I)) as (vs & E & L & _).
    rewrite E, length_app, repeat_length, length_map, L. lia.
Qed.

Lemma calculateVWAP_length (data : list (ChartDataPoint.t N)) :
  length (calculateVWAP data) = length data.
Proof.
  unfold calculateVWAP.
  assert (G : forall l result cpv cv,
    length (fst (fst (fold_left
      (fun '(result, cumulativePriceVolume, cumulativeVolume) d =>
         let typicalPrice :=
           ((ChartDataPoint.high d + ChartDataPoint.low d
             + ChartDataPoint.close d) / #3)%js in
         let priceVolume := (typicalPrice * ChartDataPoint.volume d)%js in
         let cumulativePriceVolume := (cumulativePriceVolume + priceVolume)%js in
         let cumulativeVolume := (cumulativeVolume + ChartDataPoint.volume d)%js in
         if (cumulativeVolume =? #0)%js
         then (result ++ [None], cumulativePriceVolume, cumulativeVolume)
         else (result ++ [Some (cumulativePriceVolume / cumulativeVolume)%js],
               cumulativePriceVolume, cumulativeVolume))
      l (result, cpv, cv))))
    = (length result + length l)%nat).
  { induction l as [|d l IH]; intros result cpv cv; [cbn; lia|].
    cbn [fold_left]. cbv zeta.
    destruct (_ =? _)%js; rewrite IH, length_app; cbn; lia. }
  rewrite G. reflexivity.
Qed.
End IndicatorShapes.

(** X11.  The indicators return one entry for each input value: SMA, EMA,
    WMA, Bollinger bands and MACD whatever the period (zero and negative
    periods included), RSI for every period that is a natural number (zero
    included), and VWAP. *)
Theorem indicators_keep_length :
  forall (N : Type) (JN : JsNumber N) (data : list N)
         (bars : list (ChartDataPoint.t N)) (period slow signal : Z)
         (stdDev : N) (rsiPeriod : nat),
    length (Indicators.calculateSMA data period) = length data
    /\ length (Indicators.calculateEMA data period) = length data
    /\ length (Indicators.calculateWMA data period) = length data
    /\ length (Indicators.calculateBollingerBands data period stdDev)
       = length data
    /\ length (Indicators.calculateMACD data period slow signal) = length data
    /\ length (Indicators.calculateRSI data rsiPeriod) = length data
    /\ length (Indicators.calculateVWAP bars) = length bars.
Proof.
  intros. repeat split;
    try (unfold Indicators.calculateSMA, Indicators.calculateEMA,
           Indicators.calculateWMA, Indicators.calculateBollingerBands,
           Indicators.calculateMACD; apply for_push_length).
  - apply calculateRSI_length.
  - apply calculateVWAP_length.
Qed.

(** X12.  EMA never yields the no-value marker: for every series and every
    period, each entry of [calculateEMA] is a number.  So the ATR series is
    one no-value marker followed by numbers only; it has one entry for each
    bar, except that for no bars at all it still holds the one marker. *)
Theorem ema_never_null :
  forall (N : Type) (JN : JsNumber N) (JM : JsMath N) (data : list N)
         (bars : list (ChartDataPoint.t N)) (period : Z),
    Forall (fun o => o <> None) (Indicators.calculateEMA data period)
    /\ (exists atr,
          Indicators.calculateATRIndicator bars period = None :: atr
          /\ Forall (fun o => o <> None) atr)
    /\ length (Indicators.calculateATRIndicator bars period)
       = Nat.max 1 (length bars).
Proof.
  intros N JN JM data bars period.
  assert (E : forall l : list N,
            Forall (fun o => o <> None) (Indicators.calculateEMA l period)).
  { intros l. apply Forall_forall. intros o Ho.
    apply In_nth_error in Ho. destruct Ho as [i Hi].
    assert (Hlt : (i < length l)%nat).
    { assert (L : length (Indicators.calculateEMA l period) = length l)
        by (unfold Indicators.calculateEMA; apply for_push_length).
      rewrite <- L. apply nth_error_Some. congruence. }
    destruct (calculateEMA_defined l period Hlt) as [v Hv].
    rewrite Hv in Hi. injection Hi as <-. discriminate. }
  split; [apply E|]. split.
  - eexists. split; [reflexivity|apply E].
  - unfold Indicators.calculateATRIndicator. cbn [length].
    assert (L : forall l : list N,
              length (Indicators.calculateEMA l period) = length l)
      by (intros l; unfold Indicators.calculateEMA; apply for_push_length).
    rewrite L, adjacent_map_length. lia.
Qed.

(* ================================================================= *)
(** ** Averages stay within the range of the data (exact arithmetic) *)

Lemma in_firstn_in {A} (x : A) (n : nat) (l : list A) :
  In x (firstn n l) -> In x l.
Proof.
  intros Hx. rewrite <- (firstn_skipn n l). apply in_or_app. left. exact Hx.
Qed.

Lemma in_skipn_in {A} (x : A) (n : nat) (l : list A) :
  In x (skipn n l) -> In x l.
Proof.
  intros Hx. rewrite <- (firstn_skipn n l). apply in_or_app. right. exact Hx.
Qed.

(** Whatever its arguments, a slice holds elements of the array only. *)
Lemma in_slice_in {A} (x : A) (l : list A) (s e : Z) :
  In x (slice l s e) -> In x l.
Proof.
  unfold slice. intros Hx. apply in_firstn_in in Hx.
  apply in_skipn_in in Hx. exact Hx.
Qed.

Lemma for_push_Forall {A} (P : A -> Prop) (n : nat)
    (body : nat -> list A -> A) :
  (forall i result, (i < n)%nat -> length result = i -> Forall P result ->
     P (body i result)) ->
  Forall P (for_push n body).
Proof.
  intros Hbody.
  assert (G : forall k, (k <= n)%nat -> Forall P (for_push k body)).
  { induction k as [|k IH]; intros Hk; [constructor|].
    rewrite for_push_S. apply Forall_app. split; [apply IH; lia|].
    constructor; [|constructor].
    apply Hbody; [lia|apply for_push_length|apply IH; lia]. }
  apply G. lia.
Qed.

Lemma sum_bounds_R (lo hi : R) (l : list R) (a : R) :
  Forall (fun x => lo <= x <= hi)%R l ->
  (a + lo * INR (length l) <= fold_left Rplus l a
   <= a + hi * INR (length l))%R.
Proof.
  intros F. revert a. induction F as [|x l Hx _ IH]; intros a.
  - cbn. lra.
  - cbn [fold_left]. specialize (IH (a + x)%R).
    change (length (x :: l)) with (S (length l)). rewrite S_INR. lra.
Qed.

(** The mean of a nonempty list of values in [[lo, hi]] is in [[lo, hi]]. *)
Lemma mean_bounds_R (lo hi : R) (l : list R) :
  l <> [] -> Forall (fun x => lo <= x <= hi)%R l ->
  (lo <= Indicators.sum (N:=R) l / INR (length l) <= hi)%R.
Proof.
  intros Hne F. unfold Indicators.sum. cbn [nadd num_of_Z R_number].
  pose proof (sum_bounds_R 0 F) as B.
  assert (Hpos : (0 < INR (length l))%R).
  { apply lt_0_INR. destruct l; [contradiction|cbn; lia]. }
  split.
  - apply Rmult_le_reg_r with (INR (length l)); [exact Hpos|].
    unfold Rdiv. rewrite Rmult_assoc, Rinv_l by lra. lra.
  - apply Rmult_le_reg_r with (INR (length l)); [exact Hpos|].
    unfold Rdiv. rewrite Rmult_assoc, Rinv_l by lra. lra.
Qed.

Lemma convex_bounds_R (lo hi d prev k : R) :
  (lo <= d <= hi)%R -> (lo <= prev <= hi)%R -> (0 <= k <= 1)%R ->
  (lo <= d * k + prev * (1 - k) <= hi)%R.
Proof.
  intros Hd Hp Hk.
  pose proof (Rmult_le_pos (d - lo) k).
  pose proof (Rmult_le_pos (prev - lo) (1 - k)).
  pose proof (Rmult_le_pos (hi - d) k).
  pose proof (Rmult_le_pos (hi - prev) (1 - k)).
  lra.
Qed.

Lemma ema_multiplier_R (period : Z) :
  (1 <= period)%Z -> (0 <= 2 / IZR (period + 1) <= 1)%R.
Proof.
  intros Hp.
  assert (2 <= IZR (period + 1))%R by (apply (IZR_le 2); lia).
  split.
  - apply Rle_mult_inv_pos; lra.
  - apply Rmult_le_reg_r with (IZR (period + 1)); [lra|].
    unfold Rdiv. rewrite Rmult_assoc, Rinv_l by lra. lra.
Qed.

Lemma ema_bounds_R (lo hi : R) (data : list R) (period : Z) :
  (1 <= period)%Z ->
  Forall (fun x => lo <= x <= hi)%R data ->
  Forall (fun o => exists v, o = Some v /\ (lo <= v <= hi)%R)
         (Indicators.calculateEMA (N:=R) data period).
Proof.
  intros Hp F. unfold Indicators.calculateEMA.
  apply for_push_Forall. intros i result Hi Hlen Hres.
  destruct (nth_error data i) as [d|] eqn:Hd;
    [|apply nth_error_None in Hd; lia].
  assert (Bd : (lo <= d <= hi)%R).
  { rewrite Forall_forall in F. apply F. eapply nth_error_In. exact Hd. }
  destruct (Nat.eqb_spec i 0) as [->|Hi0]; [eauto|].
  destruct (Z.ltb_spec (Z.of_nat i) (period - 1)) as [Hlt|Hge].
  - eexists. split; [reflexivity|].
    replace (Z.of_nat i + 1)%Z with (Z.of_nat (i + 1)) by lia.
    change 0%Z with (Z.of_nat 0).
    rewrite slice_inside by lia.
    rewrite skipn_O, Nat.sub_0_r. cbn [ndiv num_of_Z R_number].
    rewrite <- INR_IZR_INZ.
    assert (L : length (firstn (i + 1) data) = (i + 1)%nat)
      by (rewrite length_firstn; lia).
    replace (INR (i + 1)) with (INR (length (firstn (i + 1) data)))
      by (rewrite L; reflexivity).
    apply mean_bounds_R.
    + intros E. rewrite E in L. cbn in L. lia.
    + apply Forall_forall. intros x Hx. rewrite Forall_forall in F.
      apply F. eapply in_firstn_in. exact Hx.
  - assert (Hprev : exists v, nth_error result (i - 1) = Some (Some v)
                              /\ (lo <= v <= hi)%R).
    { destruct (nth_error result (i - 1)) as [o|] eqn:Ho;
        [|apply nth_error_None in Ho; lia].
      rewrite Forall_forall in Hres.
      destruct (Hres o (nth_error_In _ _ Ho)) as (v & -> & Bv). eauto. }
    destruct Hprev as (v & Hv & Bv).
    unfold at_index. rewrite Hv.
    eexists. split; [reflexivity|].
    cbn [nadd nsub nmul ndiv num_of_Z R_number].
    apply convex_bounds_R; [exact Bd|exact Bv|apply ema_multiplier_R; exact Hp].
Qed.

Lemma ema_period_1_prefix (data : list R) (i : nat) :
  (i <= length data)%nat ->
  for_push i (fun i result =>
      if (i =? 0)%nat then nth_error data i
      else if (Z.of_nat i <? 1 - 1)%Z then
        Some (Indicators.sum (slice data 0 (Z.of_nat i + 1))
              / IZR (Z.of_nat i + 1))%R
      else
        match at_index result (i - 1), nth_error data i with
        | Some prevEMA, Some d =>
            Some (d * (2 / IZR (1 + 1)) + prevEMA * (1 - 2 / IZR (1 + 1)))%R
        | _, _ => None
        end)
  = map Some (firstn i data).
Proof.
  induction i as [|i IH]; intros Hi; [reflexivity|].
  rewrite for_push_S, IH by lia.
  destruct (nth_error data i) as [d|] eqn:Hd;
    [|apply nth_error_None in Hd; lia].
  assert (F : firstn (S i) data = firstn i data ++ [d]).
  { clear -Hd. revert data Hd. induction i as [|i IH]; intros [|x l] Hd;
      cbn in *; try discriminate.
    - injection Hd as ->. reflexivity.
    - f_equal. apply IH. exact Hd. }
  rewrite F, map_app. f_equal. cbn [map]. f_equal.
  destruct (Nat.eqb_spec i 0) as [->|Hi0]; [reflexivity|].
  destruct (Z.ltb_spec (Z.of_nat i) (1 - 1)) as [Hlt|_]; [lia|].
  assert (Hprev : exists v, at_index (map Some (firstn i data)) (i - 1) = Some v).
  { unfold at_index. rewrite nth_error_map.
    destruct (nth_error (firstn i data) (i - 1)) as [v|] eqn:Hv;
      [cbn; eauto|].
    apply nth_error_None in Hv. rewrite length_firstn in Hv. lia. }
  destruct Hprev as [v ->]. f_equal.
  replace (IZR (1 + 1)) with 2%R by reflexivity. field.
Qed.

(** X13.  Over exact arithmetic and for every period >= 1, EMA stays within
    the range of its input: when every value lies in [[lo, hi]], so does
    every entry of the EMA.  With period 1 the EMA is the series itself. *)
Theorem ema_within_range :
  (forall (lo hi : R) (data : list R) (period : Z),
     (1 <= period)%Z ->
     Forall (fun x => lo <= x <= hi)%R data ->
     Forall (fun o => exists v, o = Some v /\ (lo <= v <= hi)%R)
            (Indicators.calculateEMA (N:=R) data period))
  /\ (forall data : list R,
        Indicators.calculateEMA (N:=R) data 1 = map Some data).
Proof.
  split; [apply ema_bounds_R|].
  intros data. unfold Indicators.calculateEMA.
  cbn [nadd nsub nmul ndiv num_of_Z R_number].
  rewrite ema_period_1_prefix by lia.
  rewrite firstn_all. reflexivity.
Qed.

Lemma ema_within_range_witness :
  ((1 <= 3)%Z /\ Forall (fun x => 1 <= x <= 4)%R [1; 4; 2]%R)
  /\ Forall (fun o => exists v, o = Some v /\ (1 <= v <= 4)%R)
            (Indicators.calculateEMA (N:=R) [1; 4; 2]%R 3).
Proof.
  assert (F : Forall (fun x => 1 <= x <= 4)%R [1; 4; 2]%R)
    by (repeat constructor; lra).
  split; [split; [lia|exact F]|].
  apply (proj1 ema_within_range); [lia|exact F].
Defined.

(* ================================================================= *)
(** ** WMA and Bollinger bands (exact arithmetic) *)

Lemma wma_loop_R (lo hi : R) (subset : list R) (ws wsum : R) (j : nat) :
  Forall (fun x => lo <= x <= hi)%R subset ->
  (lo * wsum <= ws <= hi * wsum)%R -> (0 <= wsum)%R ->
  let '(ws', wsum', _) :=
    fold_left
      (fun '(weightedSum, weightSum, j) x =>
         let weight := IZR (Z.of_nat j + 1) in
         ((weightedSum + x * weight)%R, (weightSum + weight)%R, S j))
      subset (ws, wsum, j) in
  (lo * wsum' <= ws' <= hi * wsum')%R
  /\ (wsum + INR (length subset) <= wsum')%R.
Proof.
  intros F. revert ws wsum j.
  induction F as [|x l Hx _ IH]; intros ws wsum j Hb Hw.
  - cbn. lra.
  - cbn [fold_left].
    assert (Hweight : (1 <= IZR (Z.of_nat j + 1))%R)
      by (apply (IZR_le 1); lia).
    specialize (IH (ws + x * IZR (Z.of_nat j + 1))%R
                   (wsum + IZR (Z.of_nat j + 1))%R (S j)).
    destruct (fold_left _ l _) as [[ws' wsum'] j'].
    change (length (x :: l)) with (S (length l)). rewrite S_INR.
    assert (0 <= (x - lo) * IZR (Z.of_nat j + 1))%R
      by (apply Rmult_le_pos; lra).
    assert (0 <= (hi - x) * IZR (Z.of_nat j + 1))%R
      by (apply Rmult_le_pos; lra).
    destruct IH as [I1 I2]; [split; nra|lra|]. split; [exact I1|lra].
Qed.

Lemma wma_entry_R (lo hi : R) (data : list R) (period : Z) (i : nat) :
  (1 <= period)%Z -> (period - 1 <= Z.of_nat i)%Z -> (i < length data)%nat ->
  Forall (fun x => lo <= x <= hi)%R data ->
  exists v, nth_error (Indicators.calculateWMA (N:=R) data period) i
            = Some (Some v) /\ (lo <= v <= hi)%R.
Proof.
  intros Hp Hge Hi F. unfold Indicators.calculateWMA.
  rewrite for_push_nth_error by exact Hi.
  destruct (Z.ltb_spec (Z.of_nat i) (period - 1)) as [Hlt|_]; [lia|].
  replace (Z.of_nat i - period + 1)%Z
    with (Z.of_nat (i + 1 - Z.to_nat period)) by lia.
  replace (Z.of_nat i + 1)%Z with (Z.of_nat (i + 1)) by lia.
  rewrite slice_inside by lia.
  set (subset := firstn _ _).
  assert (Hlen : length subset = Z.to_nat period).
  { unfold subset. rewrite length_firstn, length_skipn. lia. }
  assert (Fs : Forall (fun x => lo <= x <= hi)%R subset).
  { apply Forall_forall. intros x Hx. rewrite Forall_forall in F. apply F.
    unfold subset in Hx. apply in_firstn_in in Hx. apply in_skipn_in in Hx.
    exact Hx. }
  cbn [nadd nmul ndiv num_of_Z R_number].
  pose proof (@wma_loop_R lo hi subset 0 0 0 Fs ltac:(lra) ltac:(lra)) as W.
  destruct (fold_left _ subset _) as [[ws wsum] j].
  destruct W as [[W1 W2] W3].
  assert (Hpos : (0 < wsum)%R).
  { assert (1 <= INR (length subset))%R.
    { rewrite Hlen. apply (le_INR 1). lia. }
    lra. }
  eexists. split; [reflexivity|]. split.
  - apply Rmult_le_reg_r with wsum; [exact Hpos|].
    unfold Rdiv. rewrite Rmult_assoc, Rinv_l by lra. lra.
  - apply Rmult_le_reg_r with wsum; [exact Hpos|].
    unfold Rdiv. rewrite Rmult_assoc, Rinv_l by lra. lra.
Qed.

(** X14.  WMA: the positions before [period - 1] hold the no-value marker
    (in every number model); over exact arithmetic and for a period >= 1,
    every later entry is a number within the range of the data, so the WMA
    of a constant series is that constant. *)
Theorem wma_within_range :
  (forall (N : Type) (JN : JsNumber N) (data : list N) (period : Z) (i : nat),
     (Z.of_nat i < period - 1)%Z -> (i < length data)%nat ->
     nth_error (Indicators.calculateWMA data period) i = Some None)
  /\ (forall (lo hi : R) (data : list R) (period : Z) (i : nat),
        (1 <= period)%Z -> (period - 1 <= Z.of_nat i)%Z ->
        (i < length data)%nat ->
        Forall (fun x => lo <= x <= hi)%R data ->
        exists v, nth_error (Indicators.calculateWMA (N:=R) data period) i
                  = Some (Some v) /\ (lo <= v <= hi)%R)
  /\ (forall (c : R) (n : nat) (period : Z) (i : nat),
        (1 <= period)%Z -> (period - 1 <= Z.of_nat i)%Z -> (i < n)%nat ->
        nth_error (Indicators.calculateWMA (N:=R) (repeat c n) period) i
        = Some (Some c)).
Proof.
  split; [|split].
  - intros N JN data period i Hlt Hi. unfold Indicators.calculateWMA.
    rewrite for_push_nth_error by exact Hi.
    destruct (Z.ltb_spec (Z.of_nat i) (period - 1)); [reflexivity|lia].
  - apply wma_entry_R.
  - intros c n period i Hp Hge Hi.
    destruct (@wma_entry_R c c (repeat c n) period i Hp Hge) as (v & E & B).
    + rewrite repeat_length. exact Hi.
    + apply Forall_forall. intros x Hx. apply repeat_spec in Hx. lra.
    + rewrite E. do 2 f_equal. lra.
Qed.

Lemma wma_within_range_witness :
  ((1 <= 2)%Z /\ (2 - 1 <= Z.of_nat 1)%Z /\ (1 < 3)%nat)
  /\ nth_error (Indicators.calculateWMA (N:=R) (repeat 7%R 3) 2) 1
     = Some (Some 7%R).
Proof.
  split; [cbn; lia|].
  apply (proj2 (proj2 wma_within_range)); cbn; lia.
Defined.

Lemma fold_squares_nonneg (m : R) (l : list R) (a : R) :
  (0 <= a)%R ->
  (0 <= fold_left (fun acc val => acc + (val - m) * (val - m)) l a)%R.
Proof.
  revert a. induction l as [|x l IH]; intros a Ha; [exact Ha|].
  cbn [fold_left]. apply IH.
  pose proof (Rle_0_sqr (x - m)) as Hs. unfold Rsqr in Hs. lra.
Qed.

Lemma fold_squares_constant (c : R) (k : nat) :
  fold_left (fun acc val => acc + (val - c) * (val - c))%R (repeat c k) 0%R
  = 0%R.
Proof.
  induction k as [|k IH]; [reflexivity|].
  cbn [repeat fold_left]. replace (0 + (c - c) * (c - c))%R with 0%R by ring.
  exact IH.
Qed.

(** X15.  Bollinger bands over exact arithmetic, for a period >= 1: at every
    position from [period - 1] on, the middle band is the SMA and the upper
    and lower bands lie at the same distance, a non-negative deviation times
    [stdDev], above and below it; so for [stdDev >= 0] they are ordered.
    For a constant series the three bands coincide with the constant. *)
Theorem bollinger_bands_symmetric :
  (forall (data : list R) (period : Z) (stdDev : R) (i : nat),
     (1 <= period)%Z -> (period - 1 <= Z.of_nat i)%Z ->
     (i < length data)%nat ->
     exists m sd,
       nth_error (Indicators.calculateSMA (N:=R) data period) i
       = Some (Some m)
       /\ (0 <= sd)%R
       /\ nth_error (Indicators.calculateBollingerBands (N:=R) data period
                       stdDev) i
          = Some {| Indicators.upper := Some (m + sd * stdDev)%R;
                    Indicators.middle := Some m;
                    Indicators.lower := Some (m - sd * stdDev)%R |})
  /\ (forall (c : R) (n : nat) (period : Z) (stdDev : R) (i : nat),
        (1 <= period)%Z -> (period - 1 <= Z.of_nat i)%Z -> (i < n)%nat ->
        nth_error (Indicators.calculateBollingerBands (N:=R) (repeat c n)
                     period stdDev) i
        = Some {| Indicators.upper := Some c;
                  Indicators.middle := Some c;
                  Indicators.lower := Some c |}).
Proof.
  split.
  - intros data period stdDev i Hp Hge Hi.
    pose proof (@sma_entry R R_number data period i Hp Hi) as S.
    destruct (Z.ltb_spec (Z.of_nat i) (period - 1)) as [Hlt|_]; [lia|].
    eexists. eexists. split; [exact S|].
    unfold Indicators.calculateBollingerBands.
    rewrite for_push_nth_error by exact Hi.
    destruct (Z.ltb_spec (Z.of_nat i) (period - 1)) as [Hlt|_]; [lia|].
    unfold at_index. rewrite S.
    cbn [nadd nsub nmul ndiv nsqrt num_of_Z R_number].
    split; [|reflexivity]. apply sqrt_pos.
  - intros c n period stdDev i Hp Hge Hi.
    unfold Indicators.calculateBollingerBands.
    rewrite repeat_length, for_push_nth_error by exact Hi.
    destruct (Z.ltb_spec (Z.of_nat i) (period - 1)) as [Hlt|_]; [lia|].
    unfold at_index. rewrite (sma_constant_R c Hp Hge Hi).
    replace (Z.of_nat i - period + 1)%Z
      with (Z.of_nat (i + 1 - Z.to_nat period)) by lia.
    replace (Z.of_nat i + 1)%Z with (Z.of_nat (i + 1)) by lia.
    rewrite slice_inside by (rewrite ?repeat_length; lia).
    rewrite skipn_repeat, firstn_repeat by lia.
    cbn [nadd nsub nmul ndiv nsqrt num_of_Z R_number].
    rewrite fold_squares_constant.
    replace (0 / IZR period)%R with 0%R by (unfold Rdiv; ring).
    rewrite sqrt_0. do 2 f_equal; f_equal; ring.
Qed.

Lemma bollinger_bands_witness :
  ((1 <= 2)%Z /\ (2 - 1 <= Z.of_nat 1)%Z /\ (1 < 3)%nat)
  /\ nth_error (Indicators.calculateBollingerBands (N:=R) (repeat 7%R 3)
                  2 2%R) 1
     = Some {| Indicators.upper := Some 7%R;
               Indicators.middle := Some 7%R;
               Indicators.lower := Some 7%R |}.
Proof.
  split; [cbn; lia|].
  apply (proj2 bollinger_bands_symmetric); cbn; lia.
Defined.

(* ================================================================= *)
(** ** The three RSI computations (exact arithmetic) *)

Lemma Reqb_neq (x y : R) : Reqb x y = false <-> x <> y.
Proof. unfold Reqb. destruct (Req_dec_T x y); split; intros; auto; try discriminate; contradiction. Qed.

Lemma Rltb_nlt (x y : R) : Rltb x y = false <-> (y <= x)%R.
Proof. unfold Rltb. destruct (Rlt_dec x y); split; intros; auto; try discriminate; lra. Qed.

(** [100 - 100 / (1 + avgGain / avgLoss)], and 100 for no loss at all, is a
    percentage when the two averages are not negative. *)
Lemma rsiOf_bounds_R (g lo : R) :
  (0 <= g)%R -> (0 <= lo)%R -> (0 <= Indicators.rsiOf g lo <= 100)%R.
Proof.
  intros Hg Hl. unfold Indicators.rsiOf.
  cbn [neqb nadd nsub ndiv num_of_Z R_number].
  destruct (Reqb lo 0) eqn:E; [lra|].
  apply Reqb_neq in E.
  assert (Hrs : (0 <= g / lo)%R) by (apply Rle_mult_inv_pos; lra).
  assert (Hq : (0 <= 100 / (1 + g / lo))%R) by (apply Rle_mult_inv_pos; lra).
  assert (Hq' : (100 / (1 + g / lo) <= 100)%R).
  { apply Rmult_le_reg_r with (1 + g / lo)%R; [lra|].
    unfold Rdiv at 1. rewrite Rmult_assoc, Rinv_l by lra. lra. }
  lra.
Qed.

Lemma rsiOf_no_loss_R (g : R) : Indicators.rsiOf g 0%R = 100%R.
Proof.
  unfold Indicators.rsiOf. cbn [neqb num_of_Z R_number].
  assert (Reqb 0 0 = true) as -> by (apply Reqb_eq; reflexivity).
  reflexivity.
Qed.

Lemma sum_nonneg_R (l : list R) (a : R) :
  Forall (fun x => 0 <= x)%R l -> (0 <= a)%R -> (0 <= fold_left Rplus l a)%R.
Proof.
  intros F. revert a. induction F as [|x l Hx _ IH]; intros a Ha; [exact Ha|].
  cbn [fold_left]. apply IH. lra.
Qed.

Lemma sum_zero_R (l : list R) :
  Forall (fun x => x = 0)%R l -> fold_left Rplus l 0%R = 0%R.
Proof.
  induction 1 as [|x l Hx _ IH]; [reflexivity|].
  cbn [fold_left]. subst x. rewrite Rplus_0_l. exact IH.
Qed.

Lemma Forall_slice {A} (P : A -> Prop) (l : list A) (s e : Z) :
  Forall P l -> Forall P (slice l s e).
Proof.
  intros F. apply Forall_forall. intros x Hx. rewrite Forall_forall in F.
  apply F. eapply in_slice_in. exact Hx.
Qed.

Lemma Forall_nth_default {A} (P : A -> Prop) (l : list A) (i : nat) (d : A) :
  Forall P l -> P d -> P (nth i l d).
Proof.
  intros F Hd. destruct (Nat.lt_ge_cases i (length l)) as [Hi|Hi].
  - rewrite Forall_forall in F. apply F. apply nth_In. exact Hi.
  - rewrite nth_overflow by exact Hi. exact Hd.
Qed.

Lemma wilder_step_nonneg_R (period : nat) (avg x : R) :
  (1 <= period)%nat -> (0 <= avg)%R -> (0 <= x)%R ->
  (0 <= (avg * IZR (Z.of_nat period - 1) + x) / IZR (Z.of_nat period))%R.
Proof.
  intros Hp Ha Hx.
  assert (0 <= IZR (Z.of_nat period - 1))%R by (apply (IZR_le 0); lia).
  assert (1 <= IZR (Z.of_nat period))%R by (apply (IZR_le 1); lia).
  apply Rle_mult_inv_pos; [|lra].
  assert (0 <= avg * IZR (Z.of_nat period - 1))%R
    by (apply Rmult_le_pos; assumption).
  lra.
Qed.

Lemma wilder_step_zero_R (period : nat) :
  ((0 * IZR (Z.of_nat period - 1) + 0) / IZR (Z.of_nat period))%R = 0%R.
Proof. unfold Rdiv. ring. Qed.

Lemma never_falls_tail (x : R) (l : list R) :
  never_falls (x :: l) -> never_falls l.
Proof. intros H i a b Ha Hb. exact (H (S i) a b Ha Hb). Qed.

(** The changes of a series that never falls are not negative. *)
Lemma never_falls_changes (data : list R) :
  never_falls data ->
  Forall (fun c => 0 <= c)%R
         (adjacent_map (fun previous current => current - previous)%R data).
Proof.
  induction data as [|x [|y l] IH]; intros Hn; [constructor|constructor|].
  change (adjacent_map (fun previous current => current - previous)%R
            (x :: y :: l))
    with ((y - x)%R
          :: adjacent_map (fun previous current => current - previous)%R
               (y :: l)).
  constructor.
  - pose proof (Hn 0%nat x y eq_refl eq_refl). lra.
  - apply IH. eapply never_falls_tail. exact Hn.
Qed.

Lemma never_falls_nth (prices : list R) (i : nat) :
  never_falls prices -> (1 <= i)%nat -> (i < length prices)%nat ->
  (0 <= nth i prices 0 - nth (i - 1) prices 0)%R.
Proof.
  intros Hn H1 Hi.
  destruct (nth_error prices i) as [b|] eqn:Hb;
    [|apply nth_error_None in Hb; lia].
  destruct (nth_error prices (i - 1)) as [a|] eqn:Ha;
    [|apply nth_error_None in Ha; lia].
  rewrite (nth_error_nth _ _ _ Hb), (nth_error_nth _ _ _ Ha).
  replace i with (S (i - 1)) in Hb by lia.
  pose proof (Hn _ _ _ Ha Hb). lra.
Qed.

(** X16.  The RSI series over exact arithmetic, for a period >= 1 and a
    series of at least [period + 1] values: [period + 1] no-value markers,
    then one percentage, a number in [[0, 100]], for every position that is
    left; and every one of them is 100 when the series never falls. *)
Theorem rsi_series_percentages :
  forall (data : list R) (period : nat),
    (1 <= period)%nat -> (period + 1 <= length data)%nat ->
    exists vs,
      Indicators.calculateRSI data period
      = repeat None (period + 1) ++ map Some vs
      /\ length vs = (length data - (period + 1))%nat
      /\ Forall (fun v => 0 <= v <= 100)%R vs
      /\ (never_falls data -> Forall (fun v => v = 100%R) vs).
Proof.
  intros data period Hp Hlen.
  set (changes := adjacent_map (fun previous current => (current - previous)%js) data).
  set (gains :=
         map (fun change => if (change >? #0)%js then change else (#0)%js) changes).
  set (losses :=
         map (fun change => if (change <? #0)%js then nabs change else (#0)%js)
             changes).
  assert (Fg : Forall (fun x => 0 <= x)%R gains).
  { unfold gains. apply Forall_forall. intros x Hx. apply in_map_iff in Hx.
    destruct Hx as (c & <- & _). cbn [nltb num_of_Z R_number].
    destruct (Rltb 0 c) eqn:E; [apply Rltb_lt in E; lra|lra]. }
  assert (Fl : Forall (fun x => 0 <= x)%R losses).
  { unfold losses. apply Forall_forall. intros x Hx. apply in_map_iff in Hx.
    destruct Hx as (c & <- & _). cbn [nltb nabs num_of_Z R_number].
    destruct (Rltb c 0); [apply Rabs_pos|lra]. }
  assert (Hper : (1 <= IZR (Z.of_nat period))%R) by (apply (IZR_le 1); lia).
  destruct (@calculateRSI_shape R R_number
              (fun g lo => (0 <= g)%R /\ (0 <= lo)%R
                           /\ (never_falls data -> lo = 0%R))
              data period Hlen) as (vs & E & L & F).
  - fold changes. fold gains. fold losses.
    cbn [nadd ndiv num_of_Z R_number]. unfold Indicators.sum.
    cbn [nadd num_of_Z R_number]. repeat split.
    + apply Rle_mult_inv_pos; [|lra].
      apply sum_nonneg_R; [apply Forall_slice; exact Fg|lra].
    + apply Rle_mult_inv_pos; [|lra].
      apply sum_nonneg_R; [apply Forall_slice; exact Fl|lra].
    + intros Hn. rewrite sum_zero_R; [unfold Rdiv; ring|].
      apply Forall_slice. unfold losses. apply Forall_forall. intros x Hx.
      apply in_map_iff in Hx. destruct Hx as (c & <- & Hc).
      pose proof (never_falls_changes Hn) as Fc. rewrite Forall_forall in Fc.
      specialize (Fc c Hc). cbn [nltb num_of_Z R_number].
      destruct (Rltb c 0) eqn:Ec; [apply Rltb_lt in Ec; lra|reflexivity].
  - fold changes. fold gains. fold losses.
    cbn [nadd nmul ndiv num_of_Z R_number].
    intros i g lo (Hg & Hl & Hz). repeat split.
    + apply wilder_step_nonneg_R; [exact Hp|exact Hg|].
      apply Forall_nth_default; [exact Fg|lra].
    + apply wilder_step_nonneg_R; [exact Hp|exact Hl|].
      apply Forall_nth_default; [exact Fl|lra].
    + intros Hn. rewrite (Hz Hn).
      assert (Z0 : nth i losses 0%R = 0%R).
      { apply Forall_nth_default; [|reflexivity].
        unfold losses. apply Forall_forall. intros x Hx.
        apply in_map_iff in Hx. destruct Hx as (c & <- & Hc).
        pose proof (never_falls_changes Hn) as Fc. rewrite Forall_forall in Fc.
        specialize (Fc c Hc). cbn [nltb num_of_Z R_number].
        destruct (Rltb c 0) eqn:Ec; [apply Rltb_lt in Ec; lra|reflexivity]. }
      rewrite Z0. apply wilder_step_zero_R.
  - exists vs. split; [exact E|]. split; [exact L|]. split.
    + eapply Forall_impl; [|exact F]. cbv beta.
      intros v (g & lo & (Hg & Hl & _) & ->). apply rsiOf_bounds_R; assumption.
    + intros Hn. eapply Forall_impl; [|exact F]. cbv beta.
      intros v (g & lo & (_ & _ & Hz) & ->). rewrite (Hz Hn).
      apply rsiOf_no_loss_R.
Qed.

Lemma rsi_series_percentages_witness :
  ((1 <= 1)%nat /\ (1 + 1 <= length [1; 2; 4]%R)%nat)
  /\ exists vs,
       Indicators.calculateRSI [1; 2; 4]%R 1
       = repeat None (1 + 1) ++ map Some vs
       /\ length vs = (length [1; 2; 4]%R - (1 + 1))%nat
       /\ Forall (fun v => 0 <= v <= 100)%R vs
       /\ (never_falls [1; 2; 4]%R -> Forall (fun v => v = 100%R) vs).
Proof.
  split; [cbn; lia|].
  apply rsi_series_percentages; cbn; lia.
Defined.

Lemma fold_left_invariant {A B} (P : A -> Prop) (f : A -> B -> A)
    (l : list B) (a : A) :
  P a -> (forall a b, In b l -> P a -> P (f a b)) -> P (fold_left f l a).
Proof.
  revert a. induction l as [|b l IH]; intros a Ha Hf; [exact Ha|].
  cbn [fold_left]. apply IH.
  - apply Hf; [left; reflexivity|exact Ha].
  - intros a' b' Hb. apply Hf. right. exact Hb.
Qed.

(** X17.  The scalar RSI of the alert triggers: 50 when the history has
    fewer than [period + 1] prices (in every number model); over exact
    arithmetic and for a period >= 1 it is a percentage, a number in
    [[0, 100]], and it is 100 when the prices never fall. *)
Theorem rsi_scalar_percentage :
  (forall (N : Type) (JN : JsNumber N) (prices : list N) (period : nat),
     (length prices < period + 1)%nat ->
     AlertTriggers.calculateRSI prices period = (#50)%js)
  /\ (forall (prices : list R) (period : nat),
        (1 <= period)%nat ->
        (0 <= AlertTriggers.calculateRSI prices period <= 100)%R)
  /\ (forall (prices : list R) (period : nat),
        (1 <= period)%nat -> (period + 1 <= length prices)%nat ->
        never_falls prices ->
        AlertTriggers.calculateRSI prices period = 100%R).
Proof.
  assert (G : forall (prices : list R) (period : nat),
    (1 <= period)%nat -> (period + 1 <= length prices)%nat ->
    exists g lo,
      AlertTriggers.calculateRSI prices period = Indicators.rsiOf g lo
      /\ (0 <= g)%R /\ (0 <= lo)%R /\ (never_falls prices -> lo = 0%R)).
  { intros prices period Hp Hlen. unfold AlertTriggers.calculateRSI.
    destruct (Nat.ltb_spec (length prices) (period + 1)) as [Hs|_]; [lia|].
    set (P := fun s : R * R =>
                (0 <= fst s)%R /\ (0 <= snd s)%R
                /\ (never_falls prices -> snd s = 0%R)).
    assert (Hper : (1 <= IZR (Z.of_nat period))%R) by (apply (IZR_le 1); lia).
    match goal with
    | |- context [fold_left ?f (seq 1 period) ?a] =>
        assert (I1 : P (fold_left f (seq 1 period) a))
    end.
    { apply fold_left_invariant.
      - unfold P. cbn. repeat split; lra.
      - intros [g lo] i Hi (Hg & Hl & Hz). apply in_seq in Hi.
        unfold P in *. cbn [fst snd] in *.
        cbn [nadd nsub nabs nltb num_of_Z R_number].
        set (change := (nth i prices 0 - nth (i - 1) prices 0)%R).
        pose proof (Rabs_pos change) as Habs.
        destruct (Rltb 0 change) eqn:E; cbn [fst snd].
        + apply Rltb_lt in E. repeat split; try lra. exact Hz.
        + apply Rltb_nlt in E. repeat split; try lra.
          intros Hn. rewrite (Hz Hn).
          assert (0 <= change)%R
            by (unfold change; apply never_falls_nth; [exact Hn|lia|lia]).
          replace change with 0%R by lra. rewrite Rabs_R0. lra. }
    destruct (fold_left _ (seq 1 period) _) as [gains losses].
    destruct I1 as (Hg & Hl & Hz). cbn [fst snd] in Hg, Hl, Hz.
    match goal with
    | |- context [fold_left ?f ?l ?a] => assert (I2 : P (fold_left f l a))
    end.
    { apply fold_left_invariant.
      - unfold P. cbn [fst snd nadd ndiv num_of_Z R_number]. repeat split.
        + apply Rle_mult_inv_pos; lra.
        + apply Rle_mult_inv_pos; lra.
        + intros Hn. rewrite (Hz Hn). unfold Rdiv. ring.
      - intros [g lo] i Hi (Hg' & Hl' & Hz'). apply in_seq in Hi.
        unfold P in *. cbn [fst snd] in *.
        cbn [nadd nsub nmul ndiv nabs nltb num_of_Z R_number].
        set (change := (nth i prices 0 - nth (i - 1) prices 0)%R).
        pose proof (Rabs_pos change) as Habs.
        repeat split.
        + apply wilder_step_nonneg_R; [exact Hp|exact Hg'|].
          destruct (Rltb 0 change) eqn:E; [apply Rltb_lt in E; lra|lra].
        + apply wilder_step_nonneg_R; [exact Hp|exact Hl'|].
          destruct (Rltb change 0); [exact Habs|lra].
        + intros Hn. rewrite (Hz' Hn).
          assert (0 <= change)%R
            by (unfold change; apply never_falls_nth; [exact Hn|lia|lia]).
          destruct (Rltb change 0) eqn:E; [apply Rltb_lt in E; lra|].
          apply wilder_step_zero_R. }
    destruct (fold_left _ _ _) as [avgGain avgLoss].
    destruct I2 as (Hg2 & Hl2 & Hz2). cbn [fst snd] in Hg2, Hl2, Hz2.
    exists avgGain, avgLoss. auto. }
  split; [|split].
  - intros N JN prices period Hs. unfold AlertTriggers.calculateRSI.
    destruct (Nat.ltb_spec (length prices) (period + 1)); [reflexivity|lia].
  - intros prices period Hp.
    destruct (Nat.lt_ge_cases (length prices) (period + 1)) as [Hs|Hl].
    + unfold AlertTriggers.calculateRSI.
      destruct (Nat.ltb_spec (length prices) (period + 1)); [|lia].
      cbn [num_of_Z R_number]. lra.
    + destruct (G prices period Hp Hl) as (g & lo & -> & Hg & Hlo & _).
      apply rsiOf_bounds_R; assumption.
  - intros prices period Hp Hl Hn.
    destruct (G prices period Hp Hl) as (g & lo & -> & _ & _ & Hz).
    rewrite (Hz Hn). apply rsiOf_no_loss_R.
Qed.

Lemma rsi_scalar_percentage_witness :
  ((1 <= 2)%nat /\ (2 + 1 <= length [1; 2; 2; 5]%R)%nat
   /\ never_falls [1; 2; 2; 5]%R)
  /\ AlertTriggers.calculateRSI [1; 2; 2; 5]%R 2 = 100%R.
Proof.
  assert (Hn : never_falls [1; 2; 2; 5]%R).
  { intros [|[|[|[|i]]]] a b Ha Hb; cbn in Ha, Hb;
      try discriminate; try (destruct i; discriminate);
      injection Ha as <-; injection Hb as <-; lra. }
  split; [split; [lia|split; [cbn; lia|exact Hn]]|].
  apply (proj2 (proj2 rsi_scalar_percentage)); [lia|cbn; lia|exact Hn].
Defined.

Lemma average_nonneg_R (l : list R) :
  Forall (fun x => 0 <= x)%R l ->
  (0 <= (if (0 <? length l)%nat
         then fold_left Rplus l 0 / IZR (Z.of_nat (length l))
         else 0))%R.
Proof.
  intros F. destruct (Nat.ltb_spec 0 (length l)) as [Hl|_]; [|lra].
  assert (1 <= IZR (Z.of_nat (length l)))%R by (apply (IZR_le 1); lia).
  apply Rle_mult_inv_pos; [|lra]. apply sum_nonneg_R; [exact F|lra].
Qed.

(** X18.  The RSI that the tick handler computes from the price history: 50
    while the history has fewer than 15 prices (in every number model); over
    exact arithmetic it is a percentage, a number in [[0, 100]], and it is
    100 for a history of 15 prices or more that never falls. *)
Theorem simple_rsi_percentage :
  (forall (N : Type) (JN : JsNumber N) (prices : list N),
     (length prices < 15)%nat ->
     UseAlerts.calculateSimpleRSI prices = (#50)%js)
  /\ (forall prices : list R,
        (0 <= UseAlerts.calculateSimpleRSI prices <= 100)%R)
  /\ (forall prices : list R,
        (15 <= length prices)%nat -> never_falls prices ->
        UseAlerts.calculateSimpleRSI prices = 100%R).
Proof.
  split; [|split].
  - intros N JN prices Hs. unfold UseAlerts.calculateSimpleRSI.
    destruct (Nat.ltb_spec (length prices) 15); [reflexivity|lia].
  - intros prices. unfold UseAlerts.calculateSimpleRSI.
    destruct (Nat.ltb_spec (length prices) 15) as [_|_];
      [cbn [num_of_Z R_number]; lra|].
    set (changes := map _ (seq 1 (length prices - 1))).
    set (gains := filter (fun change => (change >? #0)%js) changes).
    set (losses := map nabs (filter (fun change => (change <? #0)%js) changes)).
    cbn [nadd num_of_Z R_number].
    set (avgGain := if (0 <? length gains)%nat then _ else _).
    set (avgLoss := if (0 <? length losses)%nat then _ else _).
    change (0 <= Indicators.rsiOf avgGain avgLoss <= 100)%R.
    apply rsiOf_bounds_R.
    + apply average_nonneg_R. unfold gains. apply Forall_forall.
      intros x Hx. apply filter_In in Hx. destruct Hx as [_ Hx].
      cbn [nltb num_of_Z R_number] in Hx. apply Rltb_lt in Hx. lra.
    + apply average_nonneg_R. unfold losses. apply Forall_forall.
      intros x Hx. apply in_map_iff in Hx. destruct Hx as (c & <- & _).
      apply Rabs_pos.
  - intros prices Hl Hn. unfold UseAlerts.calculateSimpleRSI.
    destruct (Nat.ltb_spec (length prices) 15) as [Hs|_]; [lia|].
    set (changes := map _ (seq 1 (length prices - 1))).
    assert (E : filter (fun change => (change <? #0)%js) changes = []).
    { assert (F : Forall (fun c => 0 <= c)%R changes).
      { unfold changes. apply Forall_forall. intros c Hc.
        apply in_map_iff in Hc. destruct Hc as (i & <- & Hi).
        apply in_seq in Hi. cbn [nsub num_of_Z R_number].
        apply never_falls_nth; [exact Hn|lia|lia]. }
      clearbody changes. induction F as [|c l Hc _ IH]; [reflexivity|].
      cbn [filter nltb num_of_Z R_number].
      destruct (Rltb c 0) eqn:Ec; [apply Rltb_lt in Ec; lra|exact IH]. }
    rewrite E. cbn [map length Nat.ltb Nat.leb neqb num_of_Z R_number].
    assert (Reqb 0 0 = true) as -> by (apply Reqb_eq; reflexivity).
    reflexivity.
Qed.

Lemma never_falls_repeat (c : R) (n : nat) : never_falls (repeat c n).
Proof.
  intros i a b Ha Hb.
  apply nth_error_In, repeat_spec in Ha.
  apply nth_error_In, repeat_spec in Hb. subst. lra.
Qed.

Lemma simple_rsi_percentage_witness :
  ((15 <= length (repeat 3%R 15))%nat /\ never_falls (repeat 3%R 15))
  /\ UseAlerts.calculateSimpleRSI (repeat 3%R 15) = 100%R.
Proof.
  split; [split; [cbn; lia|apply never_falls_repeat]|].
  apply (proj2 (proj2 simple_rsi_percentage));
    [cbn; lia|apply never_falls_repeat].
Defined.

(* ================================================================= *)
(** ** VWAP and ATR (exact arithmetic) *)

(** The accumulation of [calculateVWAP]: with volumes that are not negative
    and typical prices in [[lo, hi]], the cumulative price-volume stays
    between [lo] and [hi] times the cumulative volume. *)
Lemma vwap_loop_R (lo hi : R) (bars : list (ChartDataPoint.t R))
    (result : list (option R)) (cpv cv : R) :
  Forall (fun d =>
            (lo <= ChartDataPoint.low d)%R
            /\ (ChartDataPoint.low d <= ChartDataPoint.close d)%R
            /\ (ChartDataPoint.close d <= ChartDataPoint.high d)%R
            /\ (ChartDataPoint.high d <= hi)%R
            /\ (0 <= ChartDataPoint.volume d)%R) bars ->
  (lo * cv <= cpv <= hi * cv)%R -> (0 <= cv)%R ->
  Forall (fun o => forall v, o = Some v -> (lo <= v <= hi)%R) result ->
  Forall (fun o => forall v, o = Some v -> (lo <= v <= hi)%R)
    (fst (fst (fold_left
      (fun '(result, cumulativePriceVolume, cumulativeVolume) d =>
         let typicalPrice :=
           ((ChartDataPoint.high d + ChartDataPoint.low d
             + ChartDataPoint.close d) / 3)%R in
         let priceVolume := (typicalPrice * ChartDataPoint.volume d)%R in
         let cumulativePriceVolume := (cumulativePriceVolume + priceVolume)%R in
         let cumulativeVolume := (cumulativeVolume + ChartDataPoint.volume d)%R in
         if Reqb cumulativeVolume 0
         then (result ++ [None], cumulativePriceVolume, cumulativeVolume)
         else (result ++ [Some (cumulativePriceVolume / cumulativeVolume)%R],
               cumulativePriceVolume, cumulativeVolume))
      bars (result, cpv, cv)))).
Proof.
  intros F. revert result cpv cv.
  induction F as [|d l Hd _ IH]; intros result cpv cv Hb Hv Hr; [exact Hr|].
  cbn [fold_left]. cbv zeta.
  destruct Hd as (H1 & H2 & H3 & H4 & H5).
  set (tp := ((ChartDataPoint.high d + ChartDataPoint.low d
               + ChartDataPoint.close d) / 3)%R).
  assert (Htp : (lo <= tp <= hi)%R) by (unfold tp; lra).
  assert (0 <= (tp - lo) * ChartDataPoint.volume d)%R
    by (apply Rmult_le_pos; lra).
  assert (0 <= (hi - tp) * ChartDataPoint.volume d)%R
    by (apply Rmult_le_pos; lra).
  assert (Hb' : (lo * (cv + ChartDataPoint.volume d)
                 <= cpv + tp * ChartDataPoint.volume d
                 <= hi * (cv + ChartDataPoint.volume d))%R) by (split; nra).
  destruct (Reqb (cv + ChartDataPoint.volume d) 0) eqn:E.
  - apply IH; [exact Hb'|lra|].
    apply Forall_app. split; [exact Hr|].
    constructor; [discriminate|constructor].
  - apply Reqb_neq in E. apply IH; [exact Hb'|lra|].
    apply Forall_app. split; [exact Hr|].
    constructor; [|constructor]. intros v Ev. injection Ev as <-.
    assert (Hpos : (0 < cv + ChartDataPoint.volume d)%R) by lra.
    split.
    + apply Rmult_le_reg_r with (cv + ChartDataPoint.volume d)%R;
        [exact Hpos|].
      unfold Rdiv. rewrite Rmult_assoc, Rinv_l by lra. lra.
    + apply Rmult_le_reg_r with (cv + ChartDataPoint.volume d)%R;
        [exact Hpos|].
      unfold Rdiv. rewrite Rmult_assoc, Rinv_l by lra. lra.
Qed.

Lemma vwap_loop_no_volume_R (bars : list (ChartDataPoint.t R))
    (result : list (option R)) (cpv : R) :
  Forall (fun d => ChartDataPoint.volume d = 0%R) bars ->
  fst (fst (fold_left
    (fun '(result, cumulativePriceVolume, cumulativeVolume) d =>
       let typicalPrice :=
         ((ChartDataPoint.high d + ChartDataPoint.low d
           + ChartDataPoint.close d) / 3)%R in
       let priceVolume := (typicalPrice * ChartDataPoint.volume d)%R in
       let cumulativePriceVolume := (cumulativePriceVolume + priceVolume)%R in
       let cumulativeVolume := (cumulativeVolume + ChartDataPoint.volume d)%R in
       if Reqb cumulativeVolume 0
       then (result ++ [None], cumulativePriceVolume, cumulativeVolume)
       else (result ++ [Some (cumulativePriceVolume / cumulativeVolume)%R],
             cumulativePriceVolume, cumulativeVolume))
    bars (result, cpv, 0%R)))
  = result ++ repeat None (length bars).
Proof.
  intros F. revert result cpv.
  induction F as [|d l Hd _ IH]; intros result cpv.
  - cbn. rewrite app_nil_r. reflexivity.
  - cbn [fold_left]. cbv zeta. rewrite Hd, Rplus_0_l.
    assert (Reqb 0 0 = true) as -> by (apply Reqb_eq; reflexivity).
    rewrite IH, <- app_assoc. reflexivity.
Qed.

(** X19.  VWAP over exact arithmetic, for bars with low <= close <= high,
    prices in [[lo, hi]] and volumes that are not negative: every entry
    that is a number lies in [[lo, hi]].  Bars without any volume give the
    no-value marker at every position, never a division by zero. *)
Theorem vwap_within_range :
  (forall (lo hi : R) (bars : list (ChartDataPoint.t R)),
     Forall (fun d =>
               (lo <= ChartDataPoint.low d)%R
               /\ (ChartDataPoint.low d <= ChartDataPoint.close d)%R
               /\ (ChartDataPoint.close d <= ChartDataPoint.high d)%R
               /\ (ChartDataPoint.high d <= hi)%R
               /\ (0 <= ChartDataPoint.volume d)%R) bars ->
     Forall (fun o => forall v, o = Some v -> (lo <= v <= hi)%R)
            (Indicators.calculateVWAP bars))
  /\ (forall bars : list (ChartDataPoint.t R),
        Forall (fun d => ChartDataPoint.volume d = 0%R) bars ->
        Indicators.calculateVWAP bars = repeat None (length bars)).
Proof.
  split.
  - intros lo hi bars F. unfold Indicators.calculateVWAP.
    cbn [nadd nmul ndiv neqb num_of_Z R_number].
    apply vwap_loop_R; [exact F|lra|lra|constructor].
  - intros bars F. unfold Indicators.calculateVWAP.
    cbn [nadd nmul ndiv neqb num_of_Z R_number].
    rewrite vwap_loop_no_volume_R by exact F. reflexivity.
Qed.

Lemma vwap_within_range_witness :
  Forall (fun d =>
            (1 <= ChartDataPoint.low d)%R
            /\ (ChartDataPoint.low d <= ChartDataPoint.close d)%R
            /\ (ChartDataPoint.close d <= ChartDataPoint.high d)%R
            /\ (ChartDataPoint.high d <= 3)%R
            /\ (0 <= ChartDataPoint.volume d)%R)
    [ {| ChartDataPoint.time := "09:30"; ChartDataPoint.open := 2%R;
         ChartDataPoint.high := 3%R; ChartDataPoint.low := 1%R;
         ChartDataPoint.close := 2%R; ChartDataPoint.volume := 0%R;
         ChartDataPoint.timestamp := 0%R |} ]
  /\ Forall (fun o => forall v, o = Some v -> (1 <= v <= 3)%R)
       (Indicators.calculateVWAP
          [ {| ChartDataPoint.time := "09:30"; ChartDataPoint.open := 2%R;
               ChartDataPoint.high := 3%R; ChartDataPoint.low := 1%R;
               ChartDataPoint.close := 2%R; ChartDataPoint.volume := 0%R;
               ChartDataPoint.timestamp := 0%R |} ])
  /\ Forall (fun d => ChartDataPoint.volume d = 0%R)
       [ {| ChartDataPoint.time := "09:30"; ChartDataPoint.open := 2%R;
            ChartDataPoint.high := 3%R; ChartDataPoint.low := 1%R;
            ChartDataPoint.close := 2%R; ChartDataPoint.volume := 0%R;
            ChartDataPoint.timestamp := 0%R |} ]
  /\ Indicators.calculateVWAP
       [ {| ChartDataPoint.time := "09:30"; ChartDataPoint.open := 2%R;
            ChartDataPoint.high := 3%R; ChartDataPoint.low := 1%R;
            ChartDataPoint.close := 2%R; ChartDataPoint.volume := 0%R;
            ChartDataPoint.timestamp := 0%R |} ]
     = repeat None 1.
Proof.
  assert (B : Forall (fun d =>
            (1 <= ChartDataPoint.low d)%R
            /\ (ChartDataPoint.low d <= ChartDataPoint.close d)%R
            /\ (ChartDataPoint.close d <= ChartDataPoint.high d)%R
            /\ (ChartDataPoint.high d <= 3)%R
            /\ (0 <= ChartDataPoint.volume d)%R)
    [ {| ChartDataPoint.time := "09:30"%string; ChartDataPoint.open := 2%R;
         ChartDataPoint.high := 3%R; ChartDataPoint.low := 1%R;
         ChartDataPoint.close := 2%R; ChartDataPoint.volume := 0%R;
         ChartDataPoint.timestamp := 0%R |} ])
    by (repeat constructor; cbn; lra).
  assert (F : Forall (fun d => ChartDataPoint.volume d = 0%R)
    [ {| ChartDataPoint.time := "09:30"%string; ChartDataPoint.open := 2%R;
         ChartDataPoint.high := 3%R; ChartDataPoint.low := 1%R;
         ChartDataPoint.close := 2%R; ChartDataPoint.volume := 0%R;
         ChartDataPoint.timestamp := 0%R |} ])
    by (repeat constructor).
  split; [exact B|]. split; [exact (proj1 vwap_within_range _ _ _ B)|].
  split; [exact F|].
  apply (proj2 vwap_within_range _ F).
Defined.

Lemma adjacent_map_Forall {A B} (P : A -> Prop) (Q : B -> Prop)
    (f : A -> A -> B) (l : list A) :
  (forall a b, P a -> P b -> Q (f a b)) ->
  Forall P l -> Forall Q (adjacent_map f l).
Proof.
  intros Hf. induction l as [|x [|y l] IH]; intros F;
    [constructor|constructor|].
  change (adjacent_map f (x :: y :: l)) with (f x y :: adjacent_map f (y :: l)).
  inversion F as [|? ? Hx F']; subst. inversion F' as [|? ? Hy _]; subst.
  constructor; [apply Hf; assumption|apply IH; exact F'].
Qed.

(** X20.  ATR over exact arithmetic, for a period >= 1 and bars whose high,
    low and close lie in [[lo, hi]]: every true range, and so every number
    of the ATR series, lies between 0 and [hi - lo]. *)
Theorem atr_within_range :
  forall (lo hi : R) (bars : list (ChartDataPoint.t R)) (period : Z),
    (1 <= period)%Z ->
    Forall (fun d =>
              (lo <= ChartDataPoint.low d <= hi)%R
              /\ (lo <= ChartDataPoint.close d <= hi)%R
              /\ (lo <= ChartDataPoint.high d <= hi)%R) bars ->
    Forall (fun o => forall v, o = Some v -> (0 <= v <= hi - lo)%R)
           (Indicators.calculateATRIndicator bars period).
Proof.
  intros lo hi bars period Hp F. unfold Indicators.calculateATRIndicator.
  constructor; [discriminate|].
  assert (Ft : Forall (fun x => 0 <= x <= hi - lo)%R
                 (adjacent_map Indicators.trueRange bars)).
  { eapply adjacent_map_Forall; [|exact F]. cbv beta.
    intros a b (A1 & A2 & A3) (B1 & B2 & B3). unfold Indicators.trueRange.
    cbn [nsub nabs nmax R_number R_math]. split.
    - eapply Rle_trans; [apply Rabs_pos|apply Rmax_r].
    - repeat apply Rmax_lub; [lra|apply Rabs_le; lra|apply Rabs_le; lra]. }
  eapply Forall_impl; [|apply (ema_bounds_R Hp Ft)]. cbv beta.
  intros o (v & -> & B) v' E. injection E as <-. exact B.
Qed.

Lemma atr_within_range_witness :
  ((1 <= 14)%Z
   /\ Forall (fun d =>
                (1 <= ChartDataPoint.low d <= 3)%R
                /\ (1 <= ChartDataPoint.close d <= 3)%R
                /\ (1 <= ChartDataPoint.high d <= 3)%R)
        (repeat {| ChartDataPoint.time := "09:30";
                   ChartDataPoint.open := 2%R;
                   ChartDataPoint.high := 3%R; ChartDataPoint.low := 1%R;
                   ChartDataPoint.close := 2%R; ChartDataPoint.volume := 10%R;
                   ChartDataPoint.timestamp := 0%R |} 2))
  /\ Forall (fun o => forall v, o = Some v -> (0 <= v <= 3 - 1)%R)
       (Indicators.calculateATRIndicator
          (repeat {| ChartDataPoint.time := "09:30";
                     ChartDataPoint.open := 2%R;
                     ChartDataPoint.high := 3%R; ChartDataPoint.low := 1%R;
                     ChartDataPoint.close := 2%R; ChartDataPoint.volume := 10%R;
                     ChartDataPoint.timestamp := 0%R |} 2) 14).
Proof.
  assert (F : Forall (fun d =>
                (1 <= ChartDataPoint.low d <= 3)%R
                /\ (1 <= ChartDataPoint.close d <= 3)%R
                /\ (1 <= ChartDataPoint.high d <= 3)%R)
        (repeat {| ChartDataPoint.time := "09:30"%string;
                   ChartDataPoint.open := 2%R;
                   ChartDataPoint.high := 3%R; ChartDataPoint.low := 1%R;
                   ChartDataPoint.close := 2%R; ChartDataPoint.volume := 10%R;
                   ChartDataPoint.timestamp := 0%R |} 2))
    by (repeat constructor; cbn; lra).
  split; [split; [lia|exact F]|].
  apply atr_within_range; [lia|exact F].
Defined.

(* ================================================================= *)
(** * Further properties of the quantitative analytics *)

Section QuantShapes.
Context {N : Type} `{JsNumber N}.

Lemma cumulative_loop (returns : list N) (cumReturns : list N) (cumulative : N) :
  fst (fold_left
    (fun '(cumReturns, cumulative) r =>
       let cumulative := (cumulative + r)%js in
       (cumReturns ++ [cumulative], cumulative))
    returns (cumReturns, cumulative))
  = cumReturns
    ++ map (fun k => fold_left nadd (firstn (S k) returns) cumulative)
           (seq 0 (length returns)).
Proof.
  revert cumReturns cumulative.
  induction returns as [|r l IH]; intros cumReturns cumulative.
  - cbn. rewrite app_nil_r. reflexivity.
  - cbn [fold_left]. cbv zeta. rewrite IH, <- app_assoc.
    cbn [length seq map app firstn fold_left]. do 2 f_equal.
    rewrite <- seq_shift, map_map. reflexivity.
Qed.

Lemma compound_loop_length (returns : list N) (prices : list N) (p : N) :
  length (fst (fold_left
    (fun '(prices, currentPrice) ret =>
       let currentPrice := (currentPrice * (#1 + ret))%js in
       (prices ++ [currentPrice], currentPrice))
    returns (prices, p)))
  = (length prices + length returns)%nat.
Proof.
  revert prices p. induction returns as [|r l IH]; intros prices p.
  - cbn. lia.
  - cbn [fold_left]. cbv zeta. rewrite IH, length_app. cbn. lia.
Qed.

End QuantShapes.

(** X21.  Shapes of the return series, in every number model: the
    cumulative returns have one entry more than the returns, entry [k]
    being the sum of the first [k] returns added from the left (so entry 0
    is 0); [calculateReturns] yields one return less than there are prices
    (none for fewer than two prices); and the prices rebuilt by
    [cumulativeReturnsToPrice] are one more than the returns. *)
Theorem return_series_shapes :
  forall (N : Type) (JN : JsNumber N) (returns prices : list N) (start : N),
    length (Quant.calculateCumulativeReturns returns) = S (length returns)
    /\ (forall k, (k <= length returns)%nat ->
          nth_error (Quant.calculateCumulativeReturns returns) k
          = Some (fold_left nadd (firstn k returns) (#0)%js))
    /\ length (Quant.calculateReturns prices) = (length prices - 1)%nat
    /\ length (Quant.cumulativeReturnsToPrice returns start)
       = S (length returns).
Proof.
  intros N JN returns prices start.
  assert (E : Quant.calculateCumulativeReturns returns
              = (#0)%js
                :: map (fun k => fold_left nadd (firstn (S k) returns) (#0)%js)
                     (seq 0 (length returns))).
  { unfold Quant.calculateCumulativeReturns. rewrite cumulative_loop.
    reflexivity. }
  split; [|split; [|split]].
  - rewrite E. cbn [length]. rewrite length_map, length_seq. reflexivity.
  - intros k Hk. rewrite E. destruct k as [|k]; [reflexivity|].
    cbn [nth_error]. rewrite nth_error_map, nth_error_seq.
    destruct (Nat.ltb_spec k (length returns)) as [_|Hge]; [|lia].
    reflexivity.
  - unfold Quant.calculateReturns.
    destruct (Nat.ltb_spec (length prices) 2) as [Hs|_].
    + cbn. lia.
    + apply adjacent_map_length.
  - unfold Quant.cumulativeReturnsToPrice. rewrite compound_loop_length.
    reflexivity.
Qed.

Lemma return_series_shapes_witness :
  (1 <= length [1; 2]%R)%nat
  /\ nth_error (Quant.calculateCumulativeReturns [1; 2]%R) 1
     = Some (fold_left nadd (firstn 1 [1; 2]%R) (#0)%js).
Proof.
  split; [cbn; lia|].
  apply (proj1 (proj2 (@return_series_shapes R R_number [1; 2]%R [] 0%R))).
  cbn; lia.
Defined.

(** ** Returns and prices (exact arithmetic) *)

Lemma compound_then_returns_R (returns : list R) (pre : list R) (p : R) :
  p <> 0%R -> Forall (fun r => 1 + r <> 0)%R returns ->
  exists tail,
    fst (fold_left
      (fun '(prices, currentPrice) ret =>
         let currentPrice := (currentPrice * (1 + ret))%R in
         (prices ++ [currentPrice], currentPrice))
      returns (pre ++ [p], p))
    = pre ++ p :: tail
    /\ adjacent_map (fun previous current => (current - previous) / previous)%R
         (p :: tail)
       = returns
    /\ Forall (fun x => x <> 0%R) tail.
Proof.
  intros Hp F. revert pre p Hp.
  induction F as [|r l Hr _ IH]; intros pre p Hp.
  - exists []. cbn. auto.
  - cbn [fold_left]. cbv beta iota zeta.
    assert (Hp' : (p * (1 + r))%R <> 0%R)
      by (apply Rmult_integral_contrapositive; split; assumption).
    destruct (IH (pre ++ [p]) (p * (1 + r))%R Hp') as (tail & E & A & Z).
    exists ((p * (1 + r))%R :: tail). split; [|split].
    + transitivity ((pre ++ [p]) ++ (p * (1 + r))%R :: tail); [exact E|].
      rewrite <- app_assoc. reflexivity.
    + change (adjacent_map
                (fun previous current => (current - previous) / previous)%R
                (p :: (p * (1 + r))%R :: tail))
        with (((p * (1 + r) - p) / p)%R
              :: adjacent_map
                   (fun previous current => (current - previous) / previous)%R
                   ((p * (1 + r))%R :: tail)).
      rewrite A. f_equal. field. exact Hp.
    + constructor; assumption.
Qed.

Lemma returns_then_compound_R (prices : list R) (pre : list R) (p : R) :
  Forall (fun x => x <> 0%R) (p :: prices) ->
  fst (fold_left
    (fun '(prices, currentPrice) ret =>
       let currentPrice := (currentPrice * (1 + ret))%R in
       (prices ++ [currentPrice], currentPrice))
    (adjacent_map (fun previous current => (current - previous) / previous)%R
       (p :: prices))
    (pre ++ [p], p))
  = pre ++ p :: prices.
Proof.
  revert pre p. induction prices as [|q l IH]; intros pre p F.
  - reflexivity.
  - change (adjacent_map
              (fun previous current => (current - previous) / previous)%R
              (p :: q :: l))
      with (((q - p) / p)%R
            :: adjacent_map
                 (fun previous current => (current - previous) / previous)%R
                 (q :: l)).
    cbn [fold_left]. cbv beta iota zeta.
    inversion F as [|? ? Hp F']; subst.
    replace (p * (1 + (q - p) / p))%R with q by (field; exact Hp).
    transitivity ((pre ++ [p]) ++ q :: l); [exact (IH (pre ++ [p]) q F')|].
    rewrite <- app_assoc. reflexivity.
Qed.

(** X22.  Returns and prices are inverse to each other over exact
    arithmetic.  The returns of the prices compounded from a nonzero start
    price are the returns one started from, as long as no return is -1 (no
    price is zero); and compounding the returns of a series of nonzero
    prices from its first price gives the series back. *)
Theorem returns_prices_round_trip :
  (forall (returns : list R) (start : R),
     start <> 0%R -> Forall (fun r => 1 + r <> 0)%R returns ->
     Quant.calculateReturns (Quant.cumulativeReturnsToPrice returns start)
     = returns)
  /\ (forall (first : R) (rest : list R),
        Forall (fun x => x <> 0%R) (first :: rest) ->
        Quant.cumulativeReturnsToPrice
          (Quant.calculateReturns (first :: rest)) first
        = first :: rest).
Proof.
  split.
  - intros returns start Hs F.
    destruct (@compound_then_returns_R returns [] start Hs F)
      as (tail & E & A & _).
    unfold Quant.cumulativeReturnsToPrice.
    cbn [nadd nmul num_of_Z R_number]. cbn [app] in E. rewrite E.
    unfold Quant.calculateReturns. cbn [nsub ndiv R_number].
    destruct (Nat.ltb_spec (length (start :: tail)) 2) as [Hl|_];
      [|exact A].
    destruct tail; [|cbn in Hl; lia]. cbn in A. exact A.
  - intros first rest F.
    unfold Quant.calculateReturns, Quant.cumulativeReturnsToPrice.
    cbn [nadd nsub nmul ndiv num_of_Z R_number].
    destruct (Nat.ltb_spec (length (first :: rest)) 2) as [Hl|_].
    + destruct rest; [reflexivity|cbn in Hl; lia].
    + apply (@returns_then_compound_R rest [] first F).
Qed.

Lemma returns_prices_round_trip_witness :
  (100%R <> 0%R /\ Forall (fun r => 1 + r <> 0)%R [1; 2]%R
   /\ Forall (fun x => x <> 0%R) [100; 200; 600]%R)
  /\ Quant.calculateReturns (Quant.cumulativeReturnsToPrice [1; 2]%R 100%R)
     = [1; 2]%R
  /\ Quant.cumulativeReturnsToPrice
       (Quant.calculateReturns [100; 200; 600]%R) 100%R
     = [100; 200; 600]%R.
Proof.
  assert (F : Forall (fun r => 1 + r <> 0)%R [1; 2]%R)
    by (repeat constructor; lra).
  assert (S : 100%R <> 0%R) by lra.
  assert (P : Forall (fun x => x <> 0%R) [100; 200; 600]%R)
    by (repeat constructor; lra).
  split; [split; [exact S|split; [exact F|exact P]]|]. split.
  - apply (proj1 returns_prices_round_trip); [exact S|exact F].
  - apply (proj2 returns_prices_round_trip). exact P.
Defined.

(** ** Maximum drawdown (exact arithmetic) *)

Lemma drawdown_loop_R (rest : list R) (md peak : R) (series : list R) :
  Forall (fun x => 0 < x)%R rest -> (0 < peak)%R -> (0 <= md < 1)%R ->
  Forall (fun d => 0 <= d <= md)%R series -> In md series ->
  let '(md', _, series') :=
    fold_left
      (fun '(maxDrawdown, peak, drawdownSeries) price =>
         let peak := if Rltb peak price then price else peak in
         let drawdown := ((peak - price) / peak)%R in
         (Rmax maxDrawdown drawdown, peak, drawdownSeries ++ [drawdown]))
      rest (md, peak, series) in
  (0 <= md' < 1)%R
  /\ Forall (fun d => 0 <= d <= md')%R series'
  /\ In md' series'
  /\ length series' = (length series + length rest)%nat.
Proof.
  intros F. revert md peak series.
  induction F as [|price l Hprice _ IH]; intros md peak series Hpk Hmd Hs Hin.
  - cbn. repeat split; try lra; try assumption. lia.
  - cbn [fold_left]. cbv beta iota zeta.
    set (peak' := if Rltb peak price then price else peak).
    assert (Hpeak' : (0 < peak')%R /\ (price <= peak')%R).
    { unfold peak'. destruct (Rltb peak price) eqn:E; [lra|].
      apply Rltb_nlt in E. lra. }
    destruct Hpeak' as [Hpos Hge].
    set (dd := ((peak' - price) / peak')%R).
    assert (Hdd : (0 <= dd < 1)%R).
    { unfold dd. split; [apply Rle_mult_inv_pos; lra|].
      apply Rmult_lt_reg_r with peak'; [exact Hpos|].
      unfold Rdiv. rewrite Rmult_assoc, Rinv_l by lra. lra. }
    pose proof (Rmax_l md dd) as Ml. pose proof (Rmax_r md dd) as Mr.
    assert (Hmax : (0 <= Rmax md dd < 1)%R).
    { split; [lra|]. unfold Rmax. destruct (Rle_dec md dd); lra. }
    specialize (IH (Rmax md dd) peak' (series ++ [dd]) Hpos Hmax).
    destruct (fold_left _ l _) as [[md' pk'] series'].
    destruct IH as (I1 & I2 & I3 & I4).
    + apply Forall_app. split.
      * eapply Forall_impl; [|exact Hs]. cbv beta. intros d Hd. lra.
      * constructor; [lra|constructor].
    + apply in_or_app. unfold Rmax. destruct (Rle_dec md dd).
      * right. left. reflexivity.
      * left. exact Hin.
    + repeat split; try lra; try assumption.
      rewrite I4, length_app. cbn. lia.
Qed.

Lemma drawdown_loop_rising_R (rest : list R) (p : R) (series : list R) :
  never_falls (p :: rest) -> Forall (fun x => 0 < x)%R (p :: rest) ->
  exists peak,
    fold_left
      (fun '(maxDrawdown, peak, drawdownSeries) price =>
         let peak := if Rltb peak price then price else peak in
         let drawdown := ((peak - price) / peak)%R in
         (Rmax maxDrawdown drawdown, peak, drawdownSeries ++ [drawdown]))
      rest (0%R, p, series)
    = (0%R, peak, series ++ repeat 0%R (length rest)).
Proof.
  revert p series. induction rest as [|q l IH]; intros p series Hn F.
  - exists p. cbn. rewrite app_nil_r. reflexivity.
  - cbn [fold_left]. cbv beta iota zeta.
    pose proof (Hn 0%nat p q eq_refl eq_refl) as Hpq.
    inversion F as [|? ? Hp F']; subst.
    inversion F' as [|? ? Hq _]; subst.
    assert (E : (if Rltb p q then q else p) = q).
    { destruct (Rltb p q) eqn:E; [reflexivity|].
      apply Rltb_nlt in E. lra. }
    rewrite E.
    replace ((q - q) / q)%R with 0%R by (unfold Rdiv; ring).
    replace (Rmax 0 0) with 0%R
      by (unfold Rmax; destruct (Rle_dec 0 0); reflexivity).
    destruct (IH q (series ++ [0%R]) (never_falls_tail Hn) F') as [peak Ep].
    exists peak.
    transitivity (0%R, peak, (series ++ [0%R]) ++ repeat 0%R (length l));
      [exact Ep|].
    rewrite <- app_assoc. reflexivity.
Qed.

(** X23.  Maximum drawdown over exact arithmetic, for positive prices: the
    drawdown series has one entry for each price, every entry lies in
    [[0, 1)], and the maximum drawdown is the largest of them (one of the
    entries, and at least each of them).  For prices that never fall every
    drawdown, and so the maximum, is 0. *)
Theorem max_drawdown_bounds :
  (forall (first : R) (rest : list R),
     Forall (fun x => 0 < x)%R (first :: rest) ->
     let result := Quant.calculateMaxDrawdown (first :: rest) in
     (0 <= Quant.maxDrawdown result < 1)%R
     /\ length (Quant.drawdownSeries result) = length (first :: rest)
     /\ Forall (fun d => 0 <= d <= Quant.maxDrawdown result)%R
               (Quant.drawdownSeries result)
     /\ In (Quant.maxDrawdown result) (Quant.drawdownSeries result))
  /\ (forall prices : list R,
        Forall (fun x => 0 < x)%R prices -> never_falls prices ->
        Quant.calculateMaxDrawdown prices
        = {| Quant.maxDrawdown := 0%R;
             Quant.drawdownSeries := repeat 0%R (length prices) |}).
Proof.
  split.
  - intros first rest F. inversion F as [|? ? Hf Fr]; subst.
    unfold Quant.calculateMaxDrawdown.
    cbn [nsub ndiv nltb nmax num_of_Z R_number R_math].
    pose proof (@drawdown_loop_R rest 0 first [0%R] Fr Hf ltac:(lra)) as L.
    destruct (fold_left _ rest _) as [[md pk] series].
    destruct L as (L1 & L2 & L3 & L4).
    + constructor; [lra|constructor].
    + left. reflexivity.
    + cbn [Quant.maxDrawdown Quant.drawdownSeries].
      repeat split; try lra; assumption.
  - intros prices F Hn. destruct prices as [|first rest]; [reflexivity|].
    unfold Quant.calculateMaxDrawdown.
    cbn [nsub ndiv nltb nmax num_of_Z R_number R_math].
    destruct (@drawdown_loop_rising_R rest first [0%R] Hn F) as [peak E].
    match goal with
    | |- context [fold_left ?f rest ?a] =>
        replace (fold_left f rest a)
          with (0%R, peak, [0%R] ++ repeat 0%R (length rest)) by (symmetry; exact E)
    end.
    reflexivity.
Qed.

Lemma max_drawdown_bounds_witness :
  (Forall (fun x => 0 < x)%R [1; 2; 2]%R /\ never_falls [1; 2; 2]%R)
  /\ Quant.calculateMaxDrawdown [1; 2; 2]%R
     = {| Quant.maxDrawdown := 0%R;
          Quant.drawdownSeries := repeat 0%R (length [1; 2; 2]%R) |}.
Proof.
  assert (F : Forall (fun x => 0 < x)%R [1; 2; 2]%R)
    by (repeat constructor; lra).
  assert (Hn : never_falls [1; 2; 2]%R).
  { intros [|[|[|i]]] a b Ha Hb; cbn in Ha, Hb;
      try discriminate; try (destruct i; discriminate);
      injection Ha as <-; injection Hb as <-; lra. }
  split; [split; [exact F|exact Hn]|].
  apply (proj2 max_drawdown_bounds); [exact F|exact Hn].
Defined.

(** ** A series measured against itself (exact arithmetic) *)

Lemma in_combine_same {A} (l : list A) (x y : A) :
  In (x, y) (combine l l) -> x = y.
Proof.
  induction l as [|a l IH]; cbn; [contradiction|].
  intros [E|Hin]; [congruence|exact (IH Hin)].
Qed.

Lemma beta_loop_self_R (mean : R) (l : list R) (a : R) :
  exists b,
    fold_left
      (fun '(covariance, marketVariance) '(s, m) =>
         let stockDev := (s - mean)%R in
         let marketDev := (m - mean)%R in
         ((covariance + stockDev * marketDev)%R,
          (marketVariance + marketDev * marketDev)%R))
      (combine l l) (a, a)
    = (b, b).
Proof.
  revert a. induction l as [|x l IH]; intros a.
  - exists a. reflexivity.
  - cbn [combine fold_left]. cbv beta iota zeta. apply IH.
Qed.

Lemma correlation_loop_swap_R (mean1 mean2 : R) (l1 l2 : list R)
    (c v1 v2 : R) :
  let '(c', v1', v2') :=
    fold_left
      (fun '(covariance, variance1, variance2) '(x1, x2) =>
         let dev1 := (x1 - mean1)%R in
         let dev2 := (x2 - mean2)%R in
         ((covariance + dev1 * dev2)%R,
          (variance1 + dev1 * dev1)%R,
          (variance2 + dev2 * dev2)%R))
      (combine l1 l2) (c, v1, v2) in
  fold_left
    (fun '(covariance, variance1, variance2) '(x1, x2) =>
       let dev1 := (x1 - mean2)%R in
       let dev2 := (x2 - mean1)%R in
       ((covariance + dev1 * dev2)%R,
        (variance1 + dev1 * dev1)%R,
        (variance2 + dev2 * dev2)%R))
    (combine l2 l1) (c, v2, v1)
  = (c', v2', v1').
Proof.
  revert l2 c v1 v2. induction l1 as [|x l1 IH]; intros l2 c v1 v2.
  - destruct l2; reflexivity.
  - destruct l2 as [|y l2]; [reflexivity|].
    cbn [combine fold_left]. cbv beta iota zeta.
    replace ((y - mean2) * (x - mean1))%R with ((x - mean1) * (y - mean2))%R
      by ring.
    apply IH.
Qed.

Lemma mean_zeros_R (l : list R) :
  Forall (fun x => x = 0)%R l -> Quant.calculateMean l = 0%R.
Proof.
  intros F. unfold Quant.calculateMean. destruct (length l =? 0)%nat;
    [reflexivity|].
  cbn [nadd ndiv num_of_Z R_number].
  change (fold_left (fun sum val => sum + val)%R l 0%R)
    with (fold_left Rplus l 0%R).
  rewrite sum_zero_R by exact F. unfold Rdiv. ring.
Qed.

Lemma deviation_zeros_R (l : list R) :
  Forall (fun x => x = 0)%R l -> Quant.calculateStandardDeviation l = 0%R.
Proof.
  intros F. unfold Quant.calculateStandardDeviation.
  destruct (length l =? 0)%nat; [reflexivity|].
  destruct (length l =? 1)%nat; [reflexivity|].
  rewrite mean_zeros_R by exact F.
  cbn [nadd nsub nmul ndiv nsqrt num_of_Z R_number].
  assert (E : fold_left (fun sum val => sum + (val - 0) * (val - 0))%R l 0%R
              = 0%R).
  { induction F as [|x l' Hx _ IH]; [reflexivity|].
    cbn [fold_left]. subst x.
    replace (0 + (0 - 0) * (0 - 0))%R with 0%R by ring. exact IH. }
  rewrite E. replace (0 / IZR (Z.of_nat (length l) - 1))%R with 0%R
    by (unfold Rdiv; ring).
  apply sqrt_0.
Qed.

Lemma last_n_all {N} `{JsNumber N} (l : list N) :
  Quant.last_n l (length l) = l.
Proof.
  unfold Quant.last_n, slice, rel_index.
  destruct (Z.ltb_spec (- Z.of_nat (length l)) 0) as [Hn|Hn];
    destruct (Z.ltb_spec (Z.of_nat (length l)) 0) as [Hl|_]; try lia.
  - replace (Z.max (Z.of_nat (length l) + - Z.of_nat (length l)) 0) with 0%Z
      by lia.
    rewrite Z.min_id, Z.sub_0_r, Nat2Z.id. cbn [Z.to_nat skipn].
    apply firstn_all.
  - rewrite Z.min_id. replace (Z.of_nat (length l)) with 0%Z by lia.
    destruct l; [reflexivity|cbn in Hn; lia].
Qed.

Lemma correlation_loop_self_value_R (mean : R) (l : list R) (a : R) :
  fold_left
    (fun '(covariance, variance1, variance2) '(x1, x2) =>
       let dev1 := (x1 - mean)%R in
       let dev2 := (x2 - mean)%R in
       ((covariance + dev1 * dev2)%R,
        (variance1 + dev1 * dev1)%R,
        (variance2 + dev2 * dev2)%R))
    (combine l l) (a, a, a)
  = (fold_left (fun acc val => acc + (val - mean) * (val - mean))%R l a,
     fold_left (fun acc val => acc + (val - mean) * (val - mean))%R l a,
     fold_left (fun acc val => acc + (val - mean) * (val - mean))%R l a).
Proof.
  revert a. induction l as [|x l IH]; intros a; [reflexivity|].
  cbn [combine fold_left]. cbv beta iota zeta. apply IH.
Qed.

(** A sum of squared deviations is zero only if every deviation is. *)
Lemma fold_squares_zero (m : R) (l : list R) (a : R) :
  (0 <= a)%R ->
  fold_left (fun acc val => acc + (val - m) * (val - m))%R l a = 0%R ->
  a = 0%R /\ Forall (fun x => x = m) l.
Proof.
  revert a. induction l as [|x l IH]; intros a Ha E.
  - cbn in E. split; [exact E|constructor].
  - cbn [fold_left] in E.
    pose proof (Rle_0_sqr (x - m)) as Hs. unfold Rsqr in Hs.
    assert (Ha' : (0 <= a + (x - m) * (x - m))%R) by lra.
    destruct (IH _ Ha' E) as [Z F].
    assert (Hx : ((x - m) * (x - m))%R = 0%R) by lra.
    split; [lra|]. constructor; [|exact F].
    apply Rmult_integral in Hx. lra.
Qed.

Lemma fold_squares_all_mean (m : R) (l : list R) :
  Forall (fun x => x = m) l ->
  fold_left (fun acc val => acc + (val - m) * (val - m))%R l 0%R = 0%R.
Proof.
  induction 1 as [|x l Hx _ IH]; [reflexivity|].
  cbn [fold_left]. subst x.
  replace (0 + (m - m) * (m - m))%R with 0%R by ring. exact IH.
Qed.

Lemma calculateMean_repeat_R (c : R) (n : nat) :
  (0 < n)%nat -> Quant.calculateMean (repeat c n) = c.
Proof.
  intros Hn. unfold Quant.calculateMean, Quant.length_of.
  rewrite repeat_length.
  destruct (Nat.eqb_spec n 0) as [->|_]; [lia|].
  cbn [nadd ndiv num_of_Z R_number].
  change (fold_left (fun sum val => sum + val)%R (repeat c n) 0%R)
    with (fold_left Rplus (repeat c n) 0%R).
  rewrite sum_repeat_R, <- INR_IZR_INZ.
  assert (0 < INR n)%R by (apply lt_0_INR; exact Hn).
  field. lra.
Qed.

(** The mean of a nonempty series whose values are all equal is that
    value. *)
Lemma all_equal_mean (l : list R) :
  l <> [] -> all_equal l -> Forall (fun x => x = Quant.calculateMean l) l.
Proof.
  intros Hne Heq. destruct l as [|c l]; [contradiction|].
  assert (F : Forall (eq c) (c :: l)).
  { apply Forall_forall. intros x Hx. apply Heq; [left; reflexivity|exact Hx]. }
  assert (M : Quant.calculateMean (c :: l) = c).
  { rewrite (Forall_eq_repeat F). apply calculateMean_repeat_R. cbn. lia. }
  rewrite M. eapply Forall_impl; [|exact F]. cbv beta. intros x <-. reflexivity.
Qed.

(** The correlation of a series with itself, by the sum of its squared
    deviations from the mean. *)
Lemma correlation_self_value_R (returns : list R) :
  returns <> [] ->
  Quant.calculateCorrelation returns returns
  = (if Reqb (fold_left
                (fun acc val =>
                   acc + (val - Quant.calculateMean returns)
                         * (val - Quant.calculateMean returns))%R
                returns 0%R) 0
     then 0 else 1)%R.
Proof.
  intros Hne. unfold Quant.calculateCorrelation.
  destruct returns as [|c l]; [contradiction|].
  cbn [length Nat.eqb orb]. rewrite Nat.min_id.
  change (S (length l)) with (length (c :: l)). rewrite last_n_all.
  set (mean := Quant.calculateMean (c :: l)).
  cbn [nadd nsub nmul ndiv nsqrt neqb num_of_Z R_number].
  match goal with
  | |- context [fold_left ?f (combine (c :: l) (c :: l)) ?a] =>
      replace (fold_left f (combine (c :: l) (c :: l)) a)
        with (fold_left (fun acc val => acc + (val - mean) * (val - mean))%R
                (c :: l) 0%R,
              fold_left (fun acc val => acc + (val - mean) * (val - mean))%R
                (c :: l) 0%R,
              fold_left (fun acc val => acc + (val - mean) * (val - mean))%R
                (c :: l) 0%R)
        by (symmetry; exact (correlation_loop_self_value_R mean (c :: l) 0))
  end.
  cbv beta iota.
  set (v := fold_left _ (c :: l) 0%R).
  assert (Hv : (0 <= v)%R) by (apply fold_squares_nonneg; lra).
  rewrite sqrt_square by exact Hv.
  destruct (Reqb v 0) eqn:Ev; [reflexivity|].
  apply Reqb_neq in Ev. field. exact Ev.
Qed.

(** X24.  A series of returns measured against itself, over exact
    arithmetic: its beta is 1; its information ratio is 0 (no active
    return, no tracking error, and the zero-denominator rule yields 0, not
    Infinity); its correlation with itself is 0 when its values are all
    equal (no variance; the empty series is one), and 1 when they are not.
    The correlation of two series does not depend on their order. *)
Theorem measured_against_itself :
  forall returns other : list R,
    Quant.calculateBeta returns returns = 1%R
    /\ Quant.calculateInformationRatio returns returns = Finite 0%R
    /\ (all_equal returns ->
        Quant.calculateCorrelation returns returns = 0%R)
    /\ (~ all_equal returns ->
        Quant.calculateCorrelation returns returns = 1%R)
    /\ Quant.calculateCorrelation returns other
       = Quant.calculateCorrelation other returns.
Proof.
  intros returns other. split; [|split; [|split; [|split]]].
  - unfold Quant.calculateBeta.
    destruct (_ || _); [reflexivity|].
    destruct (_ <? 2)%nat; [reflexivity|].
    set (s := Quant.last_n returns _). set (mean := Quant.calculateMean s).
    cbn [nadd nsub nmul ndiv neqb num_of_Z R_number].
    destruct (@beta_loop_self_R mean s 0) as [b E].
    match goal with
    | |- context [fold_left ?f (combine s s) ?a] =>
        replace (fold_left f (combine s s) a) with (b, b)
          by (symmetry; exact E)
    end.
    destruct (Reqb b 0) eqn:Eb; [reflexivity|].
    apply Reqb_neq in Eb. field. exact Eb.
  - unfold Quant.calculateInformationRatio.
    destruct (_ || _); [reflexivity|].
    set (s := Quant.last_n returns _).
    assert (F : Forall (fun x => x = 0)%R
                  (map (fun '(r, b) => (r - b)%js) (combine s s))).
    { apply Forall_forall. intros x Hx. apply in_map_iff in Hx.
      destruct Hx as ([r b] & <- & Hin). apply in_combine_same in Hin.
      subst b. cbn [nsub R_number]. ring. }
    rewrite (deviation_zeros_R F), (mean_zeros_R F).
    cbn [neqb num_of_Z R_number].
    assert (Reqb 0 0 = true) as -> by (apply Reqb_eq; reflexivity).
    unfold Quant.infinity_or_zero. cbn [nltb num_of_Z R_number].
    assert (Rltb 0 0 = false) as -> by (apply Rltb_nlt; lra).
    reflexivity.
  - intros Heq. destruct returns as [|c l] eqn:Er; [reflexivity|].
    rewrite correlation_self_value_R by discriminate.
    rewrite fold_squares_all_mean
      by (apply all_equal_mean; [discriminate|exact Heq]).
    assert (Reqb 0 0 = true) as -> by (apply Reqb_eq; reflexivity).
    reflexivity.
  - intros Hne. destruct returns as [|c l] eqn:Er.
    + exfalso. apply Hne. intros x y [].
    + rewrite correlation_self_value_R by discriminate.
      destruct (Reqb _ 0) eqn:Ev; [|reflexivity].
      exfalso. apply Hne. apply Reqb_eq in Ev.
      destruct (fold_squares_zero _ _ (Rle_refl 0) Ev) as [_ F].
      rewrite Forall_forall in F. intros x y Hx Hy.
      rewrite (F x Hx), (F y Hy). reflexivity.
  - unfold Quant.calculateCorrelation.
    rewrite (orb_comm (length other =? 0)%nat).
    destruct (_ || _); [reflexivity|].
    rewrite (Nat.min_comm (length other)).
    set (n := Nat.min (length returns) (length other)).
    set (s1 := Quant.last_n returns n). set (s2 := Quant.last_n other n).
    set (mean1 := Quant.calculateMean s1). set (mean2 := Quant.calculateMean s2).
    cbn [nadd nsub nmul ndiv nsqrt neqb num_of_Z R_number].
    pose proof (correlation_loop_swap_R mean1 mean2 s1 s2 0 0 0) as L.
    destruct (fold_left _ (combine s1 s2) _) as [[c v1] v2].
    match goal with
    | |- context [fold_left ?f (combine s2 s1) ?a] =>
        replace (fold_left f (combine s2 s1) a) with (c, v2, v1)
          by (symmetry; exact L)
    end.
    cbv beta iota. rewrite (Rmult_comm v2 v1). reflexivity.
Qed.

Lemma measured_against_itself_witness :
  (all_equal [2; 2]%R /\ ~ all_equal [1; 3]%R)
  /\ Quant.calculateCorrelation [2; 2]%R [2; 2]%R = 0%R
  /\ Quant.calculateCorrelation [1; 3]%R [1; 3]%R = 1%R.
Proof.
  assert (A : all_equal [2; 2]%R).
  { intros x y [<-|[<-|[]]] [<-|[<-|[]]]; reflexivity. }
  assert (B : ~ all_equal [1; 3]%R).
  { intros Heq.
    pose proof (Heq 1%R 3%R (or_introl eq_refl) (or_intror (or_introl eq_refl))).
    lra. }
  split; [split; [exact A|exact B]|]. split.
  - exact (proj1 (proj2 (proj2 (measured_against_itself [2; 2]%R []))) A).
  - exact (proj1 (proj2 (proj2 (proj2
             (measured_against_itself [1; 3]%R [])))) B).
Defined.

(* ================================================================= *)
(** * Support and resistance *)

Lemma nth_error_in_slice {A} (l : list A) (s e j : nat) (p : A) :
  (s <= j)%nat -> (j < e)%nat -> (e <= length l)%nat ->
  nth_error l j = Some p -> In p (slice l (Z.of_nat s) (Z.of_nat e)).
Proof.
  intros Hs He Hl Hp. rewrite slice_inside by lia.
  apply nth_error_In with (n := (j - s)%nat).
  rewrite nth_error_firstn.
  destruct (Nat.ltb_spec (j - s) (e - s)) as [_|Hge]; [|lia].
  rewrite nth_error_skipn. replace (s + (j - s))%nat with j by lia. exact Hp.
Qed.

(** X25.  Support and resistance detection, in every number model: every
    reported support level is a local minimum, the price at a position
    with [window] prices on either side of which none compares below it,
    and every resistance level is a local maximum; a series of at most
    [2 * window] prices has no level at all. *)
Theorem support_resistance_sound :
  forall (N : Type) (JN : JsNumber N) (prices : list N) (window : nat),
    Forall (local_minimum prices window)
           (AlertTriggers.support
              (AlertTriggers.detectSupportResistance prices window))
    /\ Forall (local_maximum prices window)
              (AlertTriggers.resistance
                 (AlertTriggers.detectSupportResistance prices window))
    /\ ((length prices <= 2 * window)%nat ->
        AlertTriggers.detectSupportResistance prices window
        = {| AlertTriggers.support := []; AlertTriggers.resistance := [] |}).
Proof.
  intros N JN prices window.
  assert (G : Forall (local_minimum prices window)
                (AlertTriggers.support
                   (AlertTriggers.detectSupportResistance prices window))
              /\ Forall (local_maximum prices window)
                   (AlertTriggers.resistance
                      (AlertTriggers.detectSupportResistance prices window))).
  { unfold AlertTriggers.detectSupportResistance.
    set (P := fun s : list N * list N =>
                Forall (local_minimum prices window) (fst s)
                /\ Forall (local_maximum prices window) (snd s)).
    match goal with
    | |- context [fold_left ?f ?l ?a] => assert (I : P (fold_left f l a))
    end.
    { apply fold_left_invariant; [split; constructor|].
      intros [support resistance] i Hi [Hs Hr]. apply in_seq in Hi.
      assert (Hcur : nth_error prices i = Some (nth i prices (#0)%js))
        by (apply nth_error_nth'; lia).
      replace (Z.of_nat i - Z.of_nat window)%Z
        with (Z.of_nat (i - window)) by lia.
      replace (Z.of_nat i + 1)%Z with (Z.of_nat (i + 1)) by lia.
      replace (Z.of_nat i + Z.of_nat window + 1)%Z
        with (Z.of_nat (i + window + 1)) by lia.
      set (current := nth i prices (#0)%js) in *.
      set (leftWindow := slice prices (Z.of_nat (i - window)) (Z.of_nat i)).
      set (rightWindow :=
             slice prices (Z.of_nat (i + 1)) (Z.of_nat (i + window + 1))).
      assert (Hwin : forall (j : nat) (p : N),
                (i - window <= j <= i + window)%nat -> j <> i ->
                nth_error prices j = Some p ->
                In p leftWindow \/ In p rightWindow).
      { intros j p Hj Hne Hp.
        destruct (Nat.lt_ge_cases j i) as [Hlt|Hge].
        - left. apply nth_error_in_slice with (j := j);
            [lia|lia|lia|exact Hp].
        - right. apply nth_error_in_slice with (j := j);
            [lia|lia|lia|exact Hp]. }
      unfold P. cbn [fst snd]. split.
      - destruct (forallb (fun p => (p >=? current)%js) leftWindow
                  && forallb (fun p => (p >=? current)%js) rightWindow) eqn:E.
        + assert (M : local_minimum prices window current).
          { apply andb_true_iff in E. destruct E as [El Er].
            exists i. repeat split; try lia; try exact Hcur.
            intros j p Hj Hne Hp.
            destruct (Hwin j p Hj Hne Hp) as [Hin|Hin].
            - exact (proj1 (forallb_forall _ _) El p Hin).
            - exact (proj1 (forallb_forall _ _) Er p Hin). }
          destruct (forallb _ leftWindow && forallb _ rightWindow);
            cbn [fst]; (apply Forall_app; split; [exact Hs|]);
            (constructor; [exact M|constructor]).
        + destruct (forallb _ leftWindow && forallb _ rightWindow);
            cbn [fst]; exact Hs.
      - destruct (forallb (fun p => (p <=? current)%js) leftWindow
                  && forallb (fun p => (p <=? current)%js) rightWindow) eqn:E.
        + assert (M : local_maximum prices window current).
          { apply andb_true_iff in E. destruct E as [El Er].
            exists i. repeat split; try lia; try exact Hcur.
            intros j p Hj Hne Hp.
            destruct (Hwin j p Hj Hne Hp) as [Hin|Hin].
            - exact (proj1 (forallb_forall _ _) El p Hin).
            - exact (proj1 (forallb_forall _ _) Er p Hin). }
          destruct (forallb _ leftWindow && forallb _ rightWindow);
            cbn [snd]; (apply Forall_app; split; [exact Hr|]);
            (constructor; [exact M|constructor]).
        + destruct (forallb _ leftWindow && forallb _ rightWindow);
            cbn [snd]; exact Hr. }
    destruct (fold_left _ _ _) as [support resistance]. exact I. }
  split; [exact (proj1 G)|]. split; [exact (proj2 G)|].
  intros Hl. unfold AlertTriggers.detectSupportResistance.
  replace (length prices - window - window)%nat with 0%nat by lia.
  reflexivity.
Qed.

Lemma support_resistance_sound_witness :
  (length [1; 2; 3]%R <= 2 * 2)%nat
  /\ AlertTriggers.detectSupportResistance [1; 2; 3]%R 2
     = {| AlertTriggers.support := []; AlertTriggers.resistance := [] |}.
Proof.
  split; [cbn; lia|].
  apply (proj2 (proj2 (@support_resistance_sound R R_number [1; 2; 3]%R 2))).
  cbn; lia.
Defined.
